(** * Bumper Balls Arena: the authoritative game engine, embedded in Rocq

    A shallow embedding of the server logic of the repository (the
    bumper-balls module: physics stepper, collision resolver, elimination and
    victory engine, session lifecycle, socket handlers, state sanitizer) and
    of the lobby server's [game:start] and [game:end] handlers and its
    validation utilities, followed by the properties the specification
    states about them and by further properties of the code.

    JavaScript numbers are kept abstract behind the interface [Number]; the
    code is written once against it and read two ways:
    - [FNum]: IEEE 754 binary64 (Rocq's primitive floats), which is what the
      program computes with: it evaluates, and NaN and the infinities exist;
    - [RNum]: the real numbers, the exact arithmetic the physics formulas
      are written in. *)

From Stdlib Require Import ZArith NArith Reals Lra Lia Floats.
From stdpp Require Import gmap strings list pretty.

Set Default Proof Using "Type".

(** ** JavaScript numbers *)

Class Number := {
  num : Type;
  ofZ : Z -> num;                 (* an integer literal *)
  nadd : num -> num -> num;       (* a + b *)
  nsub : num -> num -> num;       (* a - b *)
  nmul : num -> num -> num;       (* a * b *)
  ndiv : num -> num -> num;       (* a / b *)
  nneg : num -> num;              (* -a *)
  nsqrt : num -> num;             (* Math.sqrt(a) *)
  nltb : num -> num -> bool;      (* a < b *)
  nleb : num -> num -> bool;      (* a <= b *)
  neqb : num -> num -> bool;      (* a === b *)
}.

Declare Scope js_scope.
Delimit Scope js_scope with js.
Notation "a + b" := (nadd a b) : js_scope.
Notation "a - b" := (nsub a b) : js_scope.
Notation "a * b" := (nmul a b) : js_scope.
Notation "a / b" := (ndiv a b) : js_scope.
Notation "- a" := (nneg a) : js_scope.
Notation "a <? b" := (nltb a b) : js_scope.
Notation "a <=? b" := (nleb a b) : js_scope.
Notation "a >? b" := (nltb b a) : js_scope.
Notation "a >=? b" := (nleb b a) : js_scope.
Notation "a === b" := (neqb a b) (at level 70, no associativity) : js_scope.
Notation "a !== b" := (negb (neqb a b)) (at level 70, no associativity) : js_scope.
Notation "# k" := (ofZ k) (at level 1, format "# k") : js_scope.

(** The reals.  Comparisons decide the order of [R]. *)
Definition Rltb (a b : R) : bool := if Rlt_dec a b then true else false.
Definition Rleb (a b : R) : bool := if Rle_dec a b then true else false.
Definition Reqb (a b : R) : bool := if Req_dec_T a b then true else false.

#[export] Instance RNum : Number := {|
  num := R; ofZ := IZR;
  nadd := Rplus; nsub := Rminus; nmul := Rmult; ndiv := Rdiv; nneg := Ropp;
  nsqrt := R_sqrt.sqrt;
  nltb := Rltb; nleb := Rleb; neqb := Reqb |}.

(** IEEE 754 binary64.  [<], [<=] and [===] are false on NaN, and [===]
    identifies the two zeros, as in JavaScript. *)
Definition float_ofZ (k : Z) : float :=
  match k with
  | Z0 => PrimFloat.zero
  | Zpos _ => PrimFloat.of_uint63 (Uint63.of_Z k)
  | Zneg p => PrimFloat.opp (PrimFloat.of_uint63 (Uint63.of_Z (Zpos p)))
  end.

#[export] Instance FNum : Number := {|
  num := float; ofZ := float_ofZ;
  nadd := PrimFloat.add; nsub := PrimFloat.sub;
  nmul := PrimFloat.mul; ndiv := PrimFloat.div; nneg := PrimFloat.opp;
  nsqrt := PrimFloat.sqrt;
  nltb := PrimFloat.ltb; nleb := PrimFloat.leb; neqb := PrimFloat.eqb |}.

Section Numbers.
Context {N : Number}.
Local Open Scope js_scope.

(** A decimal literal [n/d]: on binary64 the correctly rounded quotient of
    two small integers is the double the literal denotes. *)
Definition dec (n d : Z) : num := #n / #d.

(** [x ** 2].  The exponentiation operator is implementation-approximated;
    for the exponent 2 it is the product. *)
Definition sq (a : num) : num := a * a.

(** ToBoolean of a number: false on 0, -0 and NaN. *)
Definition truthy (a : num) : bool := (a === a) && (a !== #0).

(** [a || b] on numbers. *)
Definition orElse (a b : num) : num := if truthy a then a else b.

(** Neither NaN nor an infinity: [a - a] is 0 exactly for the finite. *)
Definition isFinite (a : num) : bool := (a - a) === #0.
Definition isNaN (a : num) : bool := a !== a.

End Numbers.

(** ** The data model (server/types.ts and the module's own interfaces) *)

Module Vector3D.
Record t {N : Number} := mk { x : num; y : num; z : num }.
Arguments mk {N} x y z.
Section Setters.
Context {N : Number}.
Definition set_x (a : num) (v : t) : t := mk a (y v) (z v).
Definition set_y (a : num) (v : t) : t := mk (x v) a (z v).
Definition set_z (a : num) (v : t) : t := mk (x v) (y v) a.
End Setters.
End Vector3D.

Module MovementInput.
Record t {N : Number} := mk { x : num; z : num; sprint : bool }.
Arguments mk {N} x z sprint.
End MovementInput.

Module PlayerBall.
Record t {N : Number} := mk {
  socketId : string;
  name : string;
  color : string;
  position : Vector3D.t;
  velocity : Vector3D.t;
  rotation : Vector3D.t;
  acceleration : Vector3D.t;
  isEliminated : bool;
  eliminatedAt : option num;
  stamina : num;
  isSprinting : bool;
  eliminations : nat;          (* a counter: starts at 0, only ever [++] *)
  survivalTime : num;
  lastInput : option MovementInput.t;
  lastHitBy : option string;
  lastHitTime : option num;
}.
Arguments mk {N}.
Section Setters.
Context {N : Number}.
Definition set_position (v : Vector3D.t) (p : t) : t :=
  mk (socketId p) (name p) (color p) v (velocity p) (rotation p)
    (acceleration p) (isEliminated p) (eliminatedAt p) (stamina p)
    (isSprinting p) (eliminations p) (survivalTime p) (lastInput p)
    (lastHitBy p) (lastHitTime p).
Definition set_velocity (v : Vector3D.t) (p : t) : t :=
  mk (socketId p) (name p) (color p) (position p) v (rotation p)
    (acceleration p) (isEliminated p) (eliminatedAt p) (stamina p)
    (isSprinting p) (eliminations p) (survivalTime p) (lastInput p)
    (lastHitBy p) (lastHitTime p).
Definition set_acceleration (v : Vector3D.t) (p : t) : t :=
  mk (socketId p) (name p) (color p) (position p) (velocity p) (rotation p) v
    (isEliminated p) (eliminatedAt p) (stamina p) (isSprinting p)
    (eliminations p) (survivalTime p) (lastInput p) (lastHitBy p)
    (lastHitTime p).
Definition set_isEliminated (v : bool) (p : t) : t :=
  mk (socketId p) (name p) (color p) (position p) (velocity p) (rotation p)
    (acceleration p) v (eliminatedAt p) (stamina p) (isSprinting p)
    (eliminations p) (survivalTime p) (lastInput p) (lastHitBy p)
    (lastHitTime p).
Definition set_eliminatedAt (v : option num) (p : t) : t :=
  mk (socketId p) (name p) (color p) (position p) (velocity p) (rotation p)
    (acceleration p) (isEliminated p) v (stamina p) (isSprinting p)
    (eliminations p) (survivalTime p) (lastInput p) (lastHitBy p)
    (lastHitTime p).
Definition set_stamina (v : num) (p : t) : t :=
  mk (socketId p) (name p) (color p) (position p) (velocity p) (rotation p)
    (acceleration p) (isEliminated p) (eliminatedAt p) v (isSprinting p)
    (eliminations p) (survivalTime p) (lastInput p) (lastHitBy p)
    (lastHitTime p).
Definition set_isSprinting (v : bool) (p : t) : t :=
  mk (socketId p) (name p) (color p) (position p) (velocity p) (rotation p)
    (acceleration p) (isEliminated p) (eliminatedAt p) (stamina p) v
    (eliminations p) (survivalTime p) (lastInput p) (lastHitBy p)
    (lastHitTime p).
Definition set_eliminations (v : nat) (p : t) : t :=
  mk (socketId p) (name p) (color p) (position p) (velocity p) (rotation p)
    (acceleration p) (isEliminated p) (eliminatedAt p) (stamina p)
    (isSprinting p) v (survivalTime p) (lastInput p) (lastHitBy p)
    (lastHitTime p).
Definition set_survivalTime (v : num) (p : t) : t :=
  mk (socketId p) (name p) (color p) (position p) (velocity p) (rotation p)
    (acceleration p) (isEliminated p) (eliminatedAt p) (stamina p)
    (isSprinting p) (eliminations p) v (lastInput p) (lastHitBy p)
    (lastHitTime p).
Definition set_lastInput (v : option MovementInput.t) (p : t) : t :=
  mk (socketId p) (name p) (color p) (position p) (velocity p) (rotation p)
    (acceleration p) (isEliminated p) (eliminatedAt p) (stamina p)
    (isSprinting p) (eliminations p) (survivalTime p) v (lastHitBy p)
    (lastHitTime p).
Definition set_lastHitBy (v : option string) (p : t) : t :=
  mk (socketId p) (name p) (color p) (position p) (velocity p) (rotation p)
    (acceleration p) (isEliminated p) (eliminatedAt p) (stamina p)
    (isSprinting p) (eliminations p) (survivalTime p) (lastInput p) v
    (lastHitTime p).
Definition set_lastHitTime (v : option num) (p : t) : t :=
  mk (socketId p) (name p) (color p) (position p) (velocity p) (rotation p)
    (acceleration p) (isEliminated p) (eliminatedAt p) (stamina p)
    (isSprinting p) (eliminations p) (survivalTime p) (lastInput p)
    (lastHitBy p) v.
End Setters.
End PlayerBall.
Export PlayerBall.
Abbreviation PlayerBall := PlayerBall.t.
Abbreviation MovementInput := MovementInput.t.
Abbreviation Vector3D := Vector3D.t.

(** ** CONSTANTS *)

Section Constants.
Context {N : Number}.
Local Open Scope js_scope.

Definition BALL_RADIUS : num := dec 5 10.
Definition MAX_VELOCITY : num := #30.
Definition SPRINT_MAX_VELOCITY : num := #50.
Definition MOVE_FORCE : num := #75.
Definition SPRINT_FORCE : num := #120.
Definition FRICTION : num := dec 90 100.
Definition GRAVITY : num := dec 981 100.
Definition PLATFORM_RADIUS : num := #10.
Definition FALL_THRESHOLD : num := #(-5).
Definition SPAWN_HEIGHT : num := #1.
Definition TICK_RATE : num := #60.
Definition SYNC_RATE : num := #60.
Definition COUNTDOWN_DURATION : Z := 3.
Definition MAX_STAMINA : num := #100.
Definition STAMINA_REGEN : num := #15.
Definition STAMINA_DRAIN : num := #45.
Definition MIN_SPRINT_STAMINA : num := #10.
Definition SPAWN_RADIUS : num := #8.
Definition PLAYER_COLORS : list string :=
  ["#FF4444"; "#4444FF"; "#44FF44"; "#FFFF44";
   "#FF44FF"; "#44FFFF"; "#FF8844"; "#8844FF"]%string.

End Constants.

(** ** Player input and stamina *)

Section Stamina.
Context {N : Number}.
Local Open Scope js_scope.

(** [applyPlayerInput(player, deltaTime)] *)
Definition applyPlayerInput (player : PlayerBall) (deltaTime : num) : PlayerBall :=
  match lastInput player with
  | None => player
  | Some input =>
      let force := if isSprinting player then SPRINT_FORCE else MOVE_FORCE in
      let a := acceleration player in
      let a := Vector3D.set_x (MovementInput.x input * force) a in
      let a := Vector3D.set_z (MovementInput.z input * force) a in
      set_acceleration a player
  end.

(** [player.lastInput?.x !== 0 || player.lastInput?.z !== 0]: with no input
    recorded both sides compare [undefined] with 0 and are true. *)
Definition isMoving (player : PlayerBall) : bool :=
  match lastInput player with
  | None => true
  | Some input => (MovementInput.x input !== #0) || (MovementInput.z input !== #0)
  end.

(** [player.lastInput?.sprint] as a condition. *)
Definition wantsSprint (player : PlayerBall) : bool :=
  match lastInput player with
  | None => false
  | Some input => MovementInput.sprint input
  end.

(** [updateStamina(player, deltaTime)] *)
Definition updateStamina (player : PlayerBall) (deltaTime : num) : PlayerBall :=
  let player :=
    if isSprinting player && isMoving player then
      let player := set_stamina (stamina player - STAMINA_DRAIN * deltaTime) player in
      if stamina player <? #0 then
        set_isSprinting false (set_stamina #0 player)
      else player
    else
      let player := set_stamina (stamina player + STAMINA_REGEN * deltaTime) player in
      if stamina player >? MAX_STAMINA then
        set_stamina MAX_STAMINA player
      else player
  in
  if wantsSprint player && (stamina player >=? MIN_SPRINT_STAMINA) then
    set_isSprinting true player
  else
    set_isSprinting false player.

End Stamina.


(** ** Game data *)

Inductive Status := countdown | playing | ended.
Inductive GameMode := classic | shrinking | timed.

Module GameData.
Record t {N : Number} := mk {
  status : Status;
  countdownValue : option Z;
  startTime : num;
  gameMode : GameMode;
  players : list PlayerBall;
  alivePlayers : list string;
  eliminationOrder : list string;
  winnerId : option string;      (* absent (or undefined) until the game ends *)
  lastTickTime : num;
}.
Arguments mk {N}.
Section Setters.
Context {N : Number}.
Definition set_status (v : Status) (g : t) : t :=
  mk v (countdownValue g) (startTime g) (gameMode g) (players g)
    (alivePlayers g) (eliminationOrder g) (winnerId g) (lastTickTime g).
Definition set_countdownValue (v : option Z) (g : t) : t :=
  mk (status g) v (startTime g) (gameMode g) (players g) (alivePlayers g)
    (eliminationOrder g) (winnerId g) (lastTickTime g).
Definition set_startTime (v : num) (g : t) : t :=
  mk (status g) (countdownValue g) v (gameMode g) (players g) (alivePlayers
    g) (eliminationOrder g) (winnerId g) (lastTickTime g).
Definition set_gameMode (v : GameMode) (g : t) : t :=
  mk (status g) (countdownValue g) (startTime g) v (players g) (alivePlayers
    g) (eliminationOrder g) (winnerId g) (lastTickTime g).
Definition set_players (v : list PlayerBall) (g : t) : t :=
  mk (status g) (countdownValue g) (startTime g) (gameMode g) v (alivePlayers
    g) (eliminationOrder g) (winnerId g) (lastTickTime g).
Definition set_alivePlayers (v : list string) (g : t) : t :=
  mk (status g) (countdownValue g) (startTime g) (gameMode g) (players g) v
    (eliminationOrder g) (winnerId g) (lastTickTime g).
Definition set_eliminationOrder (v : list string) (g : t) : t :=
  mk (status g) (countdownValue g) (startTime g) (gameMode g) (players g)
    (alivePlayers g) v (winnerId g) (lastTickTime g).
Definition set_winnerId (v : option string) (g : t) : t :=
  mk (status g) (countdownValue g) (startTime g) (gameMode g) (players g)
    (alivePlayers g) (eliminationOrder g) v (lastTickTime g).
Definition set_lastTickTime (v : num) (g : t) : t :=
  mk (status g) (countdownValue g) (startTime g) (gameMode g) (players g)
    (alivePlayers g) (eliminationOrder g) (winnerId g) v.
End Setters.
End GameData.
Export GameData.
Abbreviation GameData := GameData.t.

(** ** The lobby directory's records (server/types.ts) *)

Inductive GameState := LOBBY_WAITING | PLAYING | GAME_ENDED.

Module Player.
Record t {N : Number} := mk {
  socketId : string;
  gameBuddiesUuid : option string;
  name : string;
  score : num;
  connected : bool;
  isHost : bool;
  disconnectedAt : option num;
}.
Arguments mk {N}.
Section Setters.
Context {N : Number}.
Definition set_score (v : num) (p : t) : t :=
  mk (socketId p) (gameBuddiesUuid p) (name p) v (connected p) (isHost p)
    (disconnectedAt p).
End Setters.
End Player.

Module Settings.
(** [gameMode] is not declared on the interface; the game reads
    [lobby.settings?.gameMode], which a settings update can carry. *)
Record t := mk {
  minPlayers : Z;
  maxPlayers : Z;
  gameMode : option GameMode;
}.
End Settings.

Module ChatMessage.
Record t {N : Number} := mk {
  id : string;
  playerId : string;
  playerName : string;
  message : string;
  timestamp : num;
  isSystem : option bool;
}.
Arguments mk {N}.
End ChatMessage.

Module Lobby.
(** [gameData] points at a game data object, named by the stamp the object
    got when it was created ([None] is [null]). *)
Record t {N : Number} := mk {
  id : string;
  code : string;
  hostId : string;
  settings : Settings.t;
  players : list Player.t;
  state : GameState;
  gameData : option nat;
  isGameBuddiesRoom : bool;
  gameBuddiesRoomCode : option string;
  messages : list ChatMessage.t;
}.
Arguments mk {N}.
Section Setters.
Context {N : Number}.
Definition set_players (v : list Player.t) (l : t) : t :=
  mk (id l) (code l) (hostId l) (settings l) v (state l) (gameData l)
    (isGameBuddiesRoom l) (gameBuddiesRoomCode l) (messages l).
Definition set_state (v : GameState) (l : t) : t :=
  mk (id l) (code l) (hostId l) (settings l) (players l) v (gameData l)
    (isGameBuddiesRoom l) (gameBuddiesRoomCode l) (messages l).
Definition set_gameData (v : option nat) (l : t) : t :=
  mk (id l) (code l) (hostId l) (settings l) (players l) (state l) v
    (isGameBuddiesRoom l) (gameBuddiesRoomCode l) (messages l).
Definition set_messages (v : list ChatMessage.t) (l : t) : t :=
  mk (id l) (code l) (hostId l) (settings l) (players l) (state l) (gameData
    l) (isGameBuddiesRoom l) (gameBuddiesRoomCode l) v.
End Setters.
End Lobby.
Abbreviation Lobby := Lobby.t.

(** ** JavaScript values sent over the wire *)

#[warnings="-register-all"]
Inductive JSValue {N : Number} :=
  | JNull
  | JBool (b : bool)
  | JNum (n : num)
  | JStr (s : string)
  | JArr (items : list JSValue)
  | JObj (fields : list (string * JSValue)).

Section Objects.
Context {N : Number}.

(** Property lookup on an object literal. *)
Fixpoint getField (k : string) (fields : list (string * JSValue)) : option JSValue :=
  match fields with
  | [] => None
  | (k', v) :: rest => if String.eqb k k' then Some v else getField k rest
  end.

(** [{...o, k: v}]: an own property keeps its place, a new one goes last. *)
Fixpoint setField (k : string) (v : JSValue) (fields : list (string * JSValue))
  : list (string * JSValue) :=
  match fields with
  | [] => [(k, v)]
  | (k', v') :: rest =>
      if String.eqb k k' then (k, v) :: rest else (k', v') :: setField k v rest
  end.

Definition hasField (k : string) (o : JSValue) : bool :=
  match o with
  | JObj fields => bool_decide (is_Some (getField k fields))
  | _ => false
  end.

Definition field (k : string) (o : JSValue) : option JSValue :=
  match o with
  | JObj fields => getField k fields
  | _ => None
  end.

(** An optional property is left out of the literal when it is undefined. *)
Definition optField (k : string) (v : option JSValue) : list (string * JSValue) :=
  match v with
  | Some v => [(k, v)]
  | None => []
  end.

Definition JNat (n : nat) : JSValue := JNum (ofZ (Z.of_nat n)).

End Objects.


(** ** The host environment and the server's state *)

(** What the runtime supplies: the wall clock ([Date.now()], as the sequence
    of its successive readings), [crypto.randomUUID()] and the [Math]
    functions the spawn ring uses. *)
Class Host {N : Number} := {
  clock : nat -> num;
  randomUUID : nat -> string;
  Math_cos : num -> num;
  Math_sin : num -> num;
  Math_PI : num;
}.

Inductive Target := ToRoom (room : string) | ToSocket (socketId : string).

(** [io.to(room).emit(event, payload)] and [socket.emit(event, payload)]. *)
Record Emit {N : Number} := mkEmit {
  target : Target;
  event : string;
  payload : JSValue;
}.
Arguments mkEmit {N}.

(** The callbacks handed to [setInterval] and [setTimeout], each with the
    variables its closure captured: the room code, the game data object (by
    its stamp) and, for the countdown, the counter [count]. *)
Inductive TimerTask :=
  | CountdownTask (roomCode : string) (gameDataId : nat) (count : Z)
  | GameLoopTask (roomCode : string) (gameDataId : nat)
  | SyncLoopTask (roomCode : string) (gameDataId : nat)
  | CleanupTask (roomCode : string).

(** A value of the [activeGames] map.  [lobby] is a reference into the heap
    of lobby objects; [gameDataId] is the identity of the [gameData] object
    (a fresh stamp per object), which is what the timers compare with
    [!==]. *)
Module Game.
Record t {N : Number} := mk {
  lobby : nat;
  gameData : GameData;
  gameDataId : nat;
  gameLoop : option nat;
  syncLoop : option nat;
  countdownInterval : option nat;
  cleanupTimeout : option nat;
}.
Arguments mk {N}.
Section Setters.
Context {N : Number}.
Definition set_lobby (v : nat) (e : t) : t :=
  mk v (gameData e) (gameDataId e) (gameLoop e) (syncLoop e)
    (countdownInterval e) (cleanupTimeout e).
Definition set_gameData (v : GameData) (e : t) : t :=
  mk (lobby e) v (gameDataId e) (gameLoop e) (syncLoop e) (countdownInterval
    e) (cleanupTimeout e).
Definition set_gameDataId (v : nat) (e : t) : t :=
  mk (lobby e) (gameData e) v (gameLoop e) (syncLoop e) (countdownInterval e)
    (cleanupTimeout e).
Definition set_gameLoop (v : option nat) (e : t) : t :=
  mk (lobby e) (gameData e) (gameDataId e) v (syncLoop e) (countdownInterval
    e) (cleanupTimeout e).
Definition set_syncLoop (v : option nat) (e : t) : t :=
  mk (lobby e) (gameData e) (gameDataId e) (gameLoop e) v (countdownInterval
    e) (cleanupTimeout e).
Definition set_countdownInterval (v : option nat) (e : t) : t :=
  mk (lobby e) (gameData e) (gameDataId e) (gameLoop e) (syncLoop e) v
    (cleanupTimeout e).
Definition set_cleanupTimeout (v : option nat) (e : t) : t :=
  mk (lobby e) (gameData e) (gameDataId e) (gameLoop e) (syncLoop e)
    (countdownInterval e) v.
End Setters.
End Game.

Module World.
Record t {N : Number} := mk {
  activeGames : gmap string Game.t;     (* the module's registry *)
  lobbies : gmap string nat;            (* the server's [lobbies] map *)
  lobbyObjs : gmap nat Lobby;           (* the lobby objects *)
  timers : gmap nat TimerTask;          (* pending intervals and timeouts *)
  nextTimer : nat;
  nextGameData : nat;
  outbox : list Emit;                   (* everything emitted, oldest first *)
  clockReads : nat;
  uuidDraws : nat;
}.
Arguments mk {N}.
Section Setters.
Context {N : Number}.
Definition set_activeGames (v : gmap string Game.t) (w : t) : t :=
  mk v (lobbies w) (lobbyObjs w) (timers w) (nextTimer w) (nextGameData w)
    (outbox w) (clockReads w) (uuidDraws w).
Definition set_lobbies (v : gmap string nat) (w : t) : t :=
  mk (activeGames w) v (lobbyObjs w) (timers w) (nextTimer w) (nextGameData
    w) (outbox w) (clockReads w) (uuidDraws w).
Definition set_lobbyObjs (v : gmap nat Lobby) (w : t) : t :=
  mk (activeGames w) (lobbies w) v (timers w) (nextTimer w) (nextGameData w)
    (outbox w) (clockReads w) (uuidDraws w).
Definition set_timers (v : gmap nat TimerTask) (w : t) : t :=
  mk (activeGames w) (lobbies w) (lobbyObjs w) v (nextTimer w) (nextGameData
    w) (outbox w) (clockReads w) (uuidDraws w).
Definition set_nextTimer (v : nat) (w : t) : t :=
  mk (activeGames w) (lobbies w) (lobbyObjs w) (timers w) v (nextGameData w)
    (outbox w) (clockReads w) (uuidDraws w).
Definition set_nextGameData (v : nat) (w : t) : t :=
  mk (activeGames w) (lobbies w) (lobbyObjs w) (timers w) (nextTimer w) v
    (outbox w) (clockReads w) (uuidDraws w).
Definition set_outbox (v : list Emit) (w : t) : t :=
  mk (activeGames w) (lobbies w) (lobbyObjs w) (timers w) (nextTimer w)
    (nextGameData w) v (clockReads w) (uuidDraws w).
Definition set_clockReads (v : nat) (w : t) : t :=
  mk (activeGames w) (lobbies w) (lobbyObjs w) (timers w) (nextTimer w)
    (nextGameData w) (outbox w) v (uuidDraws w).
Definition set_uuidDraws (v : nat) (w : t) : t :=
  mk (activeGames w) (lobbies w) (lobbyObjs w) (timers w) (nextTimer w)
    (nextGameData w) (outbox w) (clockReads w) v.
End Setters.
End World.
Export World.
Abbreviation World := World.t.

(** ** A state and exception monad over the world *)

Inductive Result (A : Type) :=
  | Ok (a : A)
  | Throw (error : string).
Arguments Ok {A} a.
Arguments Throw {A} error.

Definition M {N : Number} (A : Type) : Type := World -> Result A * World.

#[export] Instance M_ret {N : Number} : MRet M := fun A a w => (Ok a, w).
#[export] Instance M_bind {N : Number} : MBind M := fun A B f m w =>
  match m w with
  | (Ok a, w') => f a w'
  | (Throw e, w') => (Throw e, w')
  end.

Section Monad.
Context {N : Number} {H : Host}.

Definition get : M World := fun w => (Ok w, w).
Definition modify (f : World -> World) : M unit := fun w => (Ok tt, f w).
Definition throw {A} (e : string) : M A := fun w => (Throw e, w).

(** The world a computation leaves behind, and what it returned. *)
Definition exec {A} (m : M A) (w : World) : World := snd (m w).
Definition result {A} (m : M A) (w : World) : Result A := fst (m w).

(** [Date.now()] *)
Definition Date_now : M num := fun w =>
  (Ok (clock (clockReads w)), set_clockReads (S (clockReads w)) w).

(** [randomUUID()] *)
Definition newUUID : M string := fun w =>
  (Ok (randomUUID (uuidDraws w)), set_uuidDraws (S (uuidDraws w)) w).

Definition emit (t : Target) (ev : string) (v : JSValue) : M unit :=
  modify (fun w => set_outbox (outbox w ++ [mkEmit t ev v]) w).

(** [setInterval] and [setTimeout] return a fresh handle. *)
Definition setTimer (task : TimerTask) : M nat := fun w =>
  let h := nextTimer w in
  (Ok h, set_nextTimer (S h) (set_timers (<[h := task]> (timers w)) w)).

(** [clearInterval] and [clearTimeout]: no effect on a handle that is not
    pending. *)
Definition clearTimer (h : nat) : M unit :=
  modify (fun w => set_timers (delete h (timers w)) w).

(** [if (handle) clearInterval(handle)] *)
Definition clearIfSet (h : option nat) : M unit :=
  match h with
  | Some h => clearTimer h
  | None => mret tt
  end.

Definition getGame (roomCode : string) : M (option Game.t) := fun w =>
  (Ok (activeGames w !! roomCode), w).

(** A field write on the entry of [roomCode], which is there. *)
Definition updGame (roomCode : string) (f : Game.t -> Game.t) : M unit :=
  modify (fun w => set_activeGames (alter f roomCode (activeGames w)) w).

Definition getLobby (a : nat) : M (option Lobby) := fun w =>
  (Ok (lobbyObjs w !! a), w).

Definition updLobby (a : nat) (f : Lobby -> Lobby) : M unit :=
  modify (fun w => set_lobbyObjs (alter f a (lobbyObjs w)) w).

(** Loops over a list, threading a value. *)
Fixpoint foldM {A B} (f : B -> A -> M B) (l : list A) (b : B) : M B :=
  match l with
  | [] => mret b
  | a :: l' => b' ← f b a; foldM f l' b'
  end.

End Monad.

(** ** The physics stepper *)

Section Physics.
Context {N : Number} {H : Host}.
Local Open Scope js_scope.

(** Reading and writing one component of a player's vectors
    ([player.velocity.x = ...]). *)
Definition posX (p : PlayerBall) : num := Vector3D.x (position p).
Definition posY (p : PlayerBall) : num := Vector3D.y (position p).
Definition posZ (p : PlayerBall) : num := Vector3D.z (position p).
Definition velX (p : PlayerBall) : num := Vector3D.x (velocity p).
Definition velY (p : PlayerBall) : num := Vector3D.y (velocity p).
Definition velZ (p : PlayerBall) : num := Vector3D.z (velocity p).
Definition accX (p : PlayerBall) : num := Vector3D.x (acceleration p).
Definition accY (p : PlayerBall) : num := Vector3D.y (acceleration p).
Definition accZ (p : PlayerBall) : num := Vector3D.z (acceleration p).
Definition set_posX (a : num) (p : PlayerBall) : PlayerBall :=
  set_position (Vector3D.set_x a (position p)) p.
Definition set_posY (a : num) (p : PlayerBall) : PlayerBall :=
  set_position (Vector3D.set_y a (position p)) p.
Definition set_posZ (a : num) (p : PlayerBall) : PlayerBall :=
  set_position (Vector3D.set_z a (position p)) p.
Definition set_velX (a : num) (p : PlayerBall) : PlayerBall :=
  set_velocity (Vector3D.set_x a (velocity p)) p.
Definition set_velY (a : num) (p : PlayerBall) : PlayerBall :=
  set_velocity (Vector3D.set_y a (velocity p)) p.
Definition set_velZ (a : num) (p : PlayerBall) : PlayerBall :=
  set_velocity (Vector3D.set_z a (velocity p)) p.
Definition set_accX (a : num) (p : PlayerBall) : PlayerBall :=
  set_acceleration (Vector3D.set_x a (acceleration p)) p.
Definition set_accY (a : num) (p : PlayerBall) : PlayerBall :=
  set_acceleration (Vector3D.set_y a (acceleration p)) p.
Definition set_accZ (a : num) (p : PlayerBall) : PlayerBall :=
  set_acceleration (Vector3D.set_z a (acceleration p)) p.

(** The body of the loop of [updatePhysics], for one player. *)
Definition stepPlayer (deltaTime : num) (player : PlayerBall) : PlayerBall :=
  if isEliminated player then player else
  (* Update survival time *)
  let player := set_survivalTime (survivalTime player + deltaTime * #1000) player in
  (* Apply input forces *)
  let player := applyPlayerInput player deltaTime in
  (* Update stamina *)
  let player := updateStamina player deltaTime in
  (* Apply gravity *)
  let player := set_accY (- GRAVITY) player in
  (* Update velocity *)
  let player := set_velX (velX player + accX player * deltaTime) player in
  let player := set_velY (velY player + accY player * deltaTime) player in
  let player := set_velZ (velZ player + accZ player * deltaTime) player in
  (* Apply friction *)
  let player := set_velX (velX player * FRICTION) player in
  let player := set_velZ (velZ player * FRICTION) player in
  (* Clamp velocity *)
  let maxVel := if isSprinting player then SPRINT_MAX_VELOCITY else MAX_VELOCITY in
  let speed := nsqrt (sq (velX player) + sq (velZ player)) in
  let player :=
    if speed >? maxVel then
      let player := set_velX ((velX player / speed) * maxVel) player in
      set_velZ ((velZ player / speed) * maxVel) player
    else player in
  (* Update position *)
  let player := set_posX (posX player + velX player * deltaTime) player in
  let player := set_posY (posY player + velY player * deltaTime) player in
  let player := set_posZ (posZ player + velZ player * deltaTime) player in
  (* Keep the player at spawn height while on the platform *)
  let distFromCenter := nsqrt (sq (posX player) + sq (posZ player)) in
  let isOnPlatform := distFromCenter <=? PLATFORM_RADIUS in
  let player :=
    if isOnPlatform && (posY player <? SPAWN_HEIGHT) then
      set_velY #0 (set_posY SPAWN_HEIGHT player)
    else player in
  (* Reset acceleration *)
  let player := set_accX #0 player in
  set_accZ #0 player.

(** ** The collision resolver *)

(** [resolveCollision(p1, p2, dx, dz, distance)]: the two players after the
    call. *)
Definition resolveCollision (p1 p2 : PlayerBall) (dx dz distance : num)
  : M (PlayerBall * PlayerBall) :=
  (* Normalize collision normal *)
  let nx := dx / distance in
  let nz := dz / distance in
  (* Separate the balls *)
  let overlap := BALL_RADIUS * #2 - distance in
  let p1 := set_posX (posX p1 - nx * overlap * dec 5 10) p1 in
  let p1 := set_posZ (posZ p1 - nz * overlap * dec 5 10) p1 in
  let p2 := set_posX (posX p2 + nx * overlap * dec 5 10) p2 in
  let p2 := set_posZ (posZ p2 + nz * overlap * dec 5 10) p2 in
  (* Individual speeds *)
  let speed1 := nsqrt (sq (velX p1) + sq (velZ p1)) in
  let speed2 := nsqrt (sq (velX p2) + sq (velZ p2)) in
  (* Sprint gives an effective mass advantage *)
  let mass1 := if isSprinting p1 then dec 15 10 else #1 in
  let mass2 := if isSprinting p2 then dec 15 10 else #1 in
  (* Relative velocity, and its part along the normal *)
  let relVelX := velX p2 - velX p1 in
  let relVelZ := velZ p2 - velZ p1 in
  let velAlongNormal := relVelX * nx + relVelZ * nz in
  (* Don't resolve if velocities are separating *)
  if velAlongNormal >? #0 then mret (p1, p2) else
  let restitution := dec 105 10 in
  let totalMass := mass1 + mass2 in
  let j := ((- (#1 + restitution)) * velAlongNormal) / totalMass in
  (* Speed-based knockback multiplier *)
  let speedFactor1 := #1 + (speed1 / MAX_VELOCITY) * #9 in
  let speedFactor2 := #1 + (speed2 / MAX_VELOCITY) * #9 in
  (* Asymmetric impulses: each player receives the other's *)
  let impulse1 := j * mass2 * speedFactor2 in
  let impulse2 := j * mass1 * speedFactor1 in
  (* Apply impulses *)
  let p1 := set_velX (velX p1 - impulse1 * nx) p1 in
  let p1 := set_velZ (velZ p1 - impulse1 * nz) p1 in
  let p2 := set_velX (velX p2 + impulse2 * nx) p2 in
  let p2 := set_velZ (velZ p2 + impulse2 * nz) p2 in
  (* Minimum impulse *)
  let minImpulse := #24 in
  let p1ImpulseMagnitude := nsqrt (sq (impulse1 * nx) + sq (impulse1 * nz)) in
  let p2ImpulseMagnitude := nsqrt (sq (impulse2 * nx) + sq (impulse2 * nz)) in
  let p1 :=
    if p1ImpulseMagnitude <? minImpulse then
      let scale := minImpulse / orElse p1ImpulseMagnitude #1 in
      let p1 := set_velX (velX p1 - impulse1 * nx * scale) p1 in
      set_velZ (velZ p1 - impulse1 * nz * scale) p1
    else p1 in
  let p2 :=
    if p2ImpulseMagnitude <? minImpulse then
      let scale := minImpulse / orElse p2ImpulseMagnitude #1 in
      let p2 := set_velX (velX p2 + impulse2 * nx * scale) p2 in
      set_velZ (velZ p2 + impulse2 * nz * scale) p2
    else p2 in
  (* Track who hit who: the faster player gets the credit *)
  now ← Date_now;
  if speed1 >? speed2 then
    mret (p1, set_lastHitTime (Some now) (set_lastHitBy (Some (socketId p1)) p2))
  else
    mret (set_lastHitTime (Some now) (set_lastHitBy (Some (socketId p2)) p1), p2).

(** The body of the inner loop of [checkCollisions], for the pair
    [(p1, p2)]. *)
Definition collide (p1 p2 : PlayerBall) : M (PlayerBall * PlayerBall) :=
  let dx := posX p2 - posX p1 in
  let dz := posZ p2 - posZ p1 in
  let distance := nsqrt (dx * dx + dz * dz) in
  let minDistance := BALL_RADIUS * #2 in
  if distance <? minDistance then resolveCollision p1 p2 dx dz distance
  else mret (p1, p2).

(** [players.filter(p => !p.isEliminated)] keeps references to the player
    objects: here, their indices in [players], counted from [k]. *)
Fixpoint aliveFrom (k : nat) (ps : list PlayerBall) : list nat :=
  match ps with
  | [] => []
  | p :: ps' =>
      if isEliminated p then aliveFrom (S k) ps' else k :: aliveFrom (S k) ps'
  end.

(** The pairs [(l[i], l[j])], [i < j], in the order the two loops visit
    them. *)
Fixpoint pairs (l : list nat) : list (nat * nat) :=
  match l with
  | [] => []
  | a :: l' => map (pair a) l' ++ pairs l'
  end.

(** One visit: the two players are read from, and written back to, the
    array. *)
Definition collidePair (ps : list PlayerBall) (ij : nat * nat) : M (list PlayerBall) :=
  match ps !! ij.1, ps !! ij.2 with
  | Some p1, Some p2 =>
      r ← collide p1 p2;
      mret (<[ij.2 := r.2]> (<[ij.1 := r.1]> ps))
  | _, _ => mret ps
  end.

(** [checkCollisions(gameData)] *)
Definition checkCollisions (gameData : GameData) : M GameData :=
  ps ← foldM collidePair (pairs (aliveFrom 0 (players gameData))) (players gameData);
  mret (set_players ps gameData).

(** [updatePhysics(gameData, deltaTime)] *)
Definition updatePhysics (gameData : GameData) (deltaTime : num) : M GameData :=
  let gameData := set_players (map (stepPlayer deltaTime) (players gameData)) gameData in
  checkCollisions gameData.

End Physics.

(** ** The state sanitizer and the objects put on the wire *)

Section Wire.
Context {N : Number}.

Definition vectorToJS (v : Vector3D) : JSValue :=
  JObj [("x", JNum (Vector3D.x v)); ("y", JNum (Vector3D.y v));
        ("z", JNum (Vector3D.z v))]%string.

Definition inputToJS (i : MovementInput) : JSValue :=
  JObj [("x", JNum (MovementInput.x i)); ("z", JNum (MovementInput.z i));
        ("sprint", JBool (MovementInput.sprint i))]%string.

Definition statusToJS (s : Status) : JSValue :=
  JStr match s with
       | countdown => "countdown" | playing => "playing" | ended => "ended"
       end.

Definition gameModeToJS (m : GameMode) : JSValue :=
  JStr match m with
       | classic => "classic" | shrinking => "shrinking" | timed => "timed"
       end.

(** The own properties of a player object.  (The order of properties is not
    tracked: an object is read by key.) *)
Definition playerFields (p : PlayerBall) : list (string * JSValue) :=
  [("socketId", JStr (socketId p)); ("name", JStr (name p));
   ("color", JStr (color p)); ("position", vectorToJS (position p));
   ("velocity", vectorToJS (velocity p)); ("rotation", vectorToJS (rotation p));
   ("acceleration", vectorToJS (acceleration p));
   ("isEliminated", JBool (isEliminated p))]%string
  ++ optField "eliminatedAt" (JNum <$> eliminatedAt p)
  ++ [("stamina", JNum (stamina p)); ("isSprinting", JBool (isSprinting p));
      ("eliminations", JNat (eliminations p));
      ("survivalTime", JNum (survivalTime p))]%string
  ++ optField "lastInput" (inputToJS <$> lastInput p)
  ++ optField "lastHitBy" (JStr <$> lastHitBy p)
  ++ optField "lastHitTime" (JNum <$> lastHitTime p).

(** The own properties of a game data object. *)
Definition gameDataFields (g : GameData) : list (string * JSValue) :=
  [("status", statusToJS (status g))]%string
  ++ optField "countdownValue" ((fun k => JNum (ofZ k)) <$> countdownValue g)
  ++ [("startTime", JNum (startTime g)); ("gameMode", gameModeToJS (gameMode g));
      ("players", JArr (map (fun p => JObj (playerFields p)) (players g)));
      ("alivePlayers", JArr (map JStr (alivePlayers g)));
      ("eliminationOrder", JArr (map JStr (eliminationOrder g)))]%string
  ++ optField "winnerId" (JStr <$> winnerId g)
  ++ [("lastTickTime", JNum (lastTickTime g))]%string.

Definition gameDataToJS (g : GameData) : JSValue := JObj (gameDataFields g).

(** The object literal [sanitizeGameData] maps each player to. *)
Definition sanitizePlayerBall (p : PlayerBall) : JSValue :=
  JObj [("socketId", JStr (socketId p)); ("name", JStr (name p));
        ("color", JStr (color p)); ("position", vectorToJS (position p));
        ("velocity", vectorToJS (velocity p));
        ("rotation", vectorToJS (rotation p));
        ("isEliminated", JBool (isEliminated p));
        ("stamina", JNum (stamina p));
        ("isSprinting", JBool (isSprinting p));
        ("eliminations", JNat (eliminations p));
        ("survivalTime", JNum (survivalTime p))]%string.

(** [sanitizeGameData(gameData)]: [{...gameData, players: players.map(...)}] *)
Definition sanitizeGameData (gameData : GameData) : JSValue :=
  JObj (setField "players" (JArr (map sanitizePlayerBall (players gameData)))
          (gameDataFields gameData)).

(** [sanitizePlayer] of the lobby server, also the literal [endGame] and the
    restart build for the lobby's player list ([score || 0] there). *)
Definition sanitizePlayer (p : Player.t) : JSValue :=
  JObj [("socketId", JStr (Player.socketId p)); ("name", JStr (Player.name p));
        ("score", JNum (Player.score p));
        ("connected", JBool (Player.connected p));
        ("isHost", JBool (Player.isHost p))]%string.

Definition playerListEntry (p : Player.t) : JSValue :=
  JObj [("socketId", JStr (Player.socketId p)); ("name", JStr (Player.name p));
        ("score", JNum (orElse (Player.score p) (ofZ 0)));
        ("connected", JBool (Player.connected p));
        ("isHost", JBool (Player.isHost p))]%string.

Definition settingsToJS (s : Settings.t) : JSValue :=
  JObj ([("minPlayers", JNum (ofZ (Settings.minPlayers s)));
         ("maxPlayers", JNum (ofZ (Settings.maxPlayers s)))]%string
        ++ optField "gameMode" (gameModeToJS <$> Settings.gameMode s)).

Definition gameStateToJS (s : GameState) : JSValue :=
  JStr match s with
       | LOBBY_WAITING => "LOBBY_WAITING"
       | PLAYING => "PLAYING"
       | GAME_ENDED => "GAME_ENDED"
       end.

Definition chatMessageToJS (m : ChatMessage.t) : JSValue :=
  JObj ([("id", JStr (ChatMessage.id m));
         ("playerId", JStr (ChatMessage.playerId m));
         ("playerName", JStr (ChatMessage.playerName m));
         ("message", JStr (ChatMessage.message m));
         ("timestamp", JNum (ChatMessage.timestamp m))]%string
        ++ optField "isSystem" (JBool <$> ChatMessage.isSystem m)).

End Wire.

(** ** The elimination and victory engine *)

Section Engine.
Context {N : Number} {H : Host}.
Local Open Scope js_scope.

(** ToBoolean of a string. *)
Definition strTruthy (s : string) : bool := negb (String.eqb s "").

(** [gameData.players.find(p => p.socketId === id)], with the index of the
    player found. *)
Definition findPlayer (id : option string) (ps : list PlayerBall)
  : option (nat * PlayerBall) :=
  list_find (fun p => Some (socketId p) = id) ps.

(** The credit step of [eliminatePlayer]: [attacker.eliminations++] for the
    first player whose id is [hitBy], when that player is still in. *)
Definition creditAttacker (hitBy : string) (gameData : GameData) : GameData :=
  match findPlayer (Some hitBy) (players gameData) with
  | Some (k, attacker) =>
      if negb (isEliminated attacker) then
        set_players
          (<[k := set_eliminations (S (eliminations attacker)) attacker]>
             (players gameData)) gameData
      else gameData
  | None => gameData
  end.

(** [eliminatePlayer(player, gameData, roomCode, io)], where [player] is
    [gameData.players[i]]. *)
Definition eliminatePlayer (i : nat) (gameData : GameData) (roomCode : string)
  : M GameData :=
  match players gameData !! i with
  | None => mret gameData
  | Some player =>
      let player := set_isEliminated true player in
      now ← Date_now;
      let player := set_eliminatedAt (Some now) player in
      let gameData := set_players (<[i := player]> (players gameData)) gameData in
      (* Credit the player who last hit them, within the last 3 seconds *)
      gameData ←
        match lastHitBy player, lastHitTime player with
        | Some hitBy, Some hitTime =>
            if strTruthy hitBy && truthy hitTime then
              now ← Date_now;
              let timeSinceHit := now - hitTime in
              if timeSinceHit <? #3000 then mret (creditAttacker hitBy gameData)
              else mret gameData
            else mret gameData
        | _, _ => mret gameData
        end;
      (* Add to elimination order *)
      let gameData :=
        set_eliminationOrder (eliminationOrder gameData ++ [socketId player])
          gameData in
      (* Remove from alive players *)
      let gameData :=
        set_alivePlayers
          (filter (fun id => id ≠ socketId player) (alivePlayers gameData))
          gameData in
      (* Notify players *)
      emit (ToRoom roomCode) "bumper:player-eliminated"
        (JObj [("socketId", JStr (socketId player));
               ("playerName", JStr (name player));
               ("remainingPlayers", JNat (length (alivePlayers gameData)))]%string);;
      mret gameData
  end.

(** The body of the loop of [checkEliminations], for [gameData.players[i]]. *)
Definition checkElimination (roomCode : string) (gameData : GameData) (i : nat)
  : M GameData :=
  match players gameData !! i with
  | None => mret gameData
  | Some player =>
      if isEliminated player then mret gameData else
      (* Out of bounds: instant elimination *)
      let distFromCenter := nsqrt (sq (posX player) + sq (posZ player)) in
      if distFromCenter >? PLATFORM_RADIUS then
        eliminatePlayer i gameData roomCode
      (* Fallen below the platform (secondary check) *)
      else if posY player <? FALL_THRESHOLD then
        eliminatePlayer i gameData roomCode
      else mret gameData
  end.

(** [checkEliminations(gameData, roomCode, io)] *)
Definition checkEliminations (gameData : GameData) (roomCode : string) : M GameData :=
  foldM (checkElimination roomCode) (seq 0 (length (players gameData))) gameData.

(** [[...players].sort((a, b) => b.eliminations - a.eliminations)]: a stable
    sort, most eliminations first. *)
Fixpoint insertByEliminations (p : PlayerBall) (l : list PlayerBall) : list PlayerBall :=
  match l with
  | [] => [p]
  | q :: l' =>
      if (eliminations p <? eliminations q)%nat
      then q :: insertByEliminations p l'
      else p :: q :: l'
  end.

Definition sortByEliminations (ps : list PlayerBall) : list PlayerBall :=
  foldr insertByEliminations [] ps.

(** [sortedPlayers[0].socketId]: a TypeError on an empty roster. *)
Definition leaderId (ps : list PlayerBall) : M (option string) :=
  match sortByEliminations ps with
  | p :: _ => mret (Some (socketId p))
  | [] => throw "TypeError: Cannot read properties of undefined (reading 'socketId')"
  end.

(** [eliminationOrder.indexOf(id)] *)
Definition indexOf (id : string) (l : list string) : Z :=
  match list_find (fun x => x = id) l with
  | Some (k, _) => Z.of_nat k
  | None => (-1)%Z
  end.

Definition placeOf (gameData : GameData) (player : PlayerBall) : Z :=
  if isEliminated player then
    (Z.of_nat (length (players gameData))
     - indexOf (socketId player) (eliminationOrder gameData))%Z
  else 1%Z.

Definition scoreOfPlace (place : Z) : Z :=
  if (place =? 1)%Z then 100
  else if (place =? 2)%Z then 75
  else if (place =? 3)%Z then 50
  else if (place =? 4)%Z then 25
  else 10.

Definition finalScore (gameData : GameData) (player : PlayerBall) : JSValue :=
  let place := placeOf gameData player in
  JObj [("socketId", JStr (socketId player)); ("name", JStr (name player));
        ("place", JNum #place); ("score", JNum #(scoreOfPlace place));
        ("eliminations", JNat (eliminations player));
        ("survivalTime", JNum (survivalTime player))]%string.

(** The part of [endGame] that credits the winner in the lobby
    ([if (game.lobby && game.lobby.players) ...]). *)
Definition creditLobbyWinner (lobbyRef : nat) (winnerId : option string)
    (roomCode : string) : M unit :=
  lobby ← getLobby lobbyRef;
  match lobby with
  | None => mret tt
  | Some lobby =>
      match list_find (fun p => Some (Player.socketId p) = winnerId)
              (Lobby.players lobby) with
      | None => mret tt
      | Some (k, lobbyWinner) =>
          let lobbyWinner :=
            Player.set_score (orElse (Player.score lobbyWinner) #0 + #1)
              lobbyWinner in
          let players := <[k := lobbyWinner]> (Lobby.players lobby) in
          updLobby lobbyRef (Lobby.set_players players);;
          emit (ToRoom roomCode) "lobby:player-list-update"
            (JObj [("players", JArr (map playerListEntry players))]%string)
      end
  end.

(** [endGame(gameData, winnerId, roomCode, io)].  [winnerId] is [None] when
    the caller passes [undefined]. *)
Definition endGame (gameData : GameData) (winnerId : option string)
    (roomCode : string) : M GameData :=
  let gameData := set_status ended gameData in
  let gameData := set_winnerId winnerId gameData in
  let winner := findPlayer winnerId (players gameData) in
  (* Stop game loops *)
  game ← getGame roomCode;
  match game with
  | Some game =>
      clearIfSet (Game.gameLoop game);;
      clearIfSet (Game.syncLoop game);;
      clearIfSet (Game.cleanupTimeout game);;
      (* Increment winner's score in lobby *)
      creditLobbyWinner (Game.lobby game) winnerId roomCode
  | None => mret tt
  end;;
  (* Calculate final scores *)
  let finalScores := map (finalScore gameData) (players gameData) in
  let winnerName :=
    match winner with
    | Some (_, w) => if strTruthy (name w) then name w else "Unknown"
    | None => "Unknown"
    end%string in
  (* Notify all players *)
  emit (ToRoom roomCode) "bumper:game-end"
    (JObj (optField "winnerId" (JStr <$> winnerId)
           ++ [("winnerName", JStr winnerName);
               ("finalScores", JArr finalScores);
               ("gameData", sanitizeGameData gameData)]%string));;
  (* Clean up after 10 seconds *)
  cleanupTimeout ← setTimer (CleanupTask roomCode);
  match game with
  | Some _ => updGame roomCode (Game.set_cleanupTimeout (Some cleanupTimeout))
  | None => mret tt
  end;;
  mret gameData.

(** [checkVictoryCondition(gameData, roomCode, io)] *)
Definition checkVictoryCondition (gameData : GameData) (roomCode : string)
  : M GameData :=
  match status gameData with
  | playing =>
      (* Only one player remains *)
      gameData ←
        (if (length (alivePlayers gameData) =? 1)%nat
         then endGame gameData (alivePlayers gameData !! 0%nat) roomCode
         else mret gameData);
      (* All players eliminated: the last to be eliminated wins *)
      gameData ←
        (if (length (alivePlayers gameData) =? 0)%nat
         then
           let winnerId := last (eliminationOrder gameData) in
           endGame gameData winnerId roomCode
         else mret gameData);
      (* Timed mode: time expired *)
      match gameMode gameData with
      | timed =>
          now ← Date_now;
          let elapsed := (now - startTime gameData) / #1000 in
          let duration := #180 in
          if elapsed >=? duration then
            (* Winner is the player with most eliminations *)
            winnerId ← leaderId (players gameData);
            endGame gameData winnerId roomCode
          else mret gameData
      | _ => mret gameData
      end
  | _ => mret gameData
  end.

End Engine.

(** ** The session lifecycle *)

Section Lifecycle.
Context {N : Number} {H : Host}.
Local Open Scope js_scope.

(** A fresh identity for a game data object. *)
Definition newGameDataId : M nat := fun w =>
  (Ok (nextGameData w), set_nextGameData (S (nextGameData w)) w).

(** The player balls built from the lobby's roster, on the spawn ring. *)
Definition spawnPlayer (count : nat) (index : nat) (player : Player.t) : PlayerBall :=
  let angle := (#(Z.of_nat index) / #(Z.of_nat count)) * Math_PI * #2 in
  let spawnX := Math_cos angle * SPAWN_RADIUS in
  let spawnZ := Math_sin angle * SPAWN_RADIUS in
  PlayerBall.mk
    (Player.socketId player)
    (Player.name player)
    (default ""%string (PLAYER_COLORS !! (index mod length PLAYER_COLORS)%nat))
    (Vector3D.mk spawnX SPAWN_HEIGHT spawnZ)
    (Vector3D.mk #0 #0 #0)
    (Vector3D.mk #0 #0 #0)
    (Vector3D.mk #0 #0 #0)
    false None MAX_STAMINA false 0%nat #0
    (Some (MovementInput.mk #0 #0 false)) None None.

(** The game data literal of [initializeBumperBallsGame] and of the restart
    handler. *)
Definition newGameData (lobby : Lobby) : M GameData :=
  let players := imap (spawnPlayer (length (Lobby.players lobby))) (Lobby.players lobby) in
  startTime ← Date_now;
  lastTickTime ← Date_now;
  mret (GameData.mk countdown (Some COUNTDOWN_DURATION) startTime
          (default classic (Settings.gameMode (Lobby.settings lobby)))
          players (map socketId players) [] None lastTickTime).

(** The payload of [game:started]. *)
Definition gameStartedPayload (lobby : Lobby) (gameData : GameData) : JSValue :=
  JObj [("lobby",
         JObj [("code", JStr (Lobby.code lobby));
               ("hostId", JStr (Lobby.hostId lobby));
               ("settings", settingsToJS (Lobby.settings lobby));
               ("players", JArr (map sanitizePlayer (Lobby.players lobby)));
               ("state", gameStateToJS (Lobby.state lobby));
               ("gameData", gameDataToJS gameData);
               ("isGameBuddiesRoom", JBool (Lobby.isGameBuddiesRoom lobby))])]%string.

Definition stateUpdate (roomCode : string) (gameData : GameData) : M unit :=
  emit (ToRoom roomCode) "bumper:state-update"
    (JObj [("gameData", sanitizeGameData gameData)]%string).

(** [startCountdown(roomCode, gameData, io)]: the interval is set, its
    callback is [countdownTick] below. *)
Definition startCountdown (roomCode : string) (gameDataId : nat) : M unit :=
  game ← getGame roomCode;
  match game with
  | None => mret tt
  | Some _ =>
      countdownInterval ← setTimer (CountdownTask roomCode gameDataId COUNTDOWN_DURATION);
      updGame roomCode (Game.set_countdownInterval (Some countdownInterval))
  end.

(** [initializeBumperBallsGame(lobby, io)], the lobby given by reference. *)
Definition initializeBumperBallsGame (lobbyRef : nat) : M unit :=
  lobby ← getLobby lobbyRef;
  match lobby with
  | None => throw "TypeError: lobby is undefined"
  | Some lobby =>
      gameData ← newGameData lobby;
      gameDataId ← newGameDataId;
      (* Attach game data to lobby *)
      updLobby lobbyRef (Lobby.set_gameData (Some gameDataId));;
      (* Store game state with lobby reference *)
      modify (fun w =>
        set_activeGames
          (<[Lobby.code lobby :=
               Game.mk lobbyRef gameData gameDataId None None None None]>
             (activeGames w)) w);;
      emit (ToRoom (Lobby.code lobby)) "game:started"
        (gameStartedPayload lobby gameData);;
      startCountdown (Lobby.code lobby) gameDataId
  end.

(** [startGameLoop(roomCode, gameData, io)]: the game data after the call;
    the two intervals are set, their callbacks are [gameLoopTick] and
    [syncLoopTick]. *)
Definition startGameLoop (roomCode : string) (gameDataId : nat) (gameData : GameData)
  : M GameData :=
  let gameData := set_status playing gameData in
  now ← Date_now;
  let gameData := set_startTime now gameData in
  now ← Date_now;
  let gameData := set_lastTickTime now gameData in
  game ← getGame roomCode;
  match game with
  | None => mret gameData
  | Some _ =>
      (* Immediately emit the playing state *)
      stateUpdate roomCode gameData;;
      gameLoop ← setTimer (GameLoopTask roomCode gameDataId);
      updGame roomCode (Game.set_gameLoop (Some gameLoop));;
      syncLoop ← setTimer (SyncLoopTask roomCode gameDataId);
      updGame roomCode (Game.set_syncLoop (Some syncLoop));;
      mret gameData
  end.

(** The current entry of [roomCode] when it still holds the game data
    object the callback was created for
    ([!currentGame || currentGame.gameData !== gameData] fails). *)
Definition currentGameOf (roomCode : string) (gameDataId : nat) : M (option Game.t) :=
  currentGame ← getGame roomCode;
  match currentGame with
  | Some g => if (Game.gameDataId g =? gameDataId)%nat then mret (Some g) else mret None
  | None => mret None
  end.

(** The callback of the countdown interval [h], whose counter is [count]. *)
Definition countdownTick (h : nat) (roomCode : string) (gameDataId : nat) (count : Z)
  : M unit :=
  currentGame ← currentGameOf roomCode gameDataId;
  match currentGame with
  | None => clearTimer h
  | Some currentGame =>
      let gameData := set_countdownValue (Some count) (Game.gameData currentGame) in
      updGame roomCode (Game.set_gameData gameData);;
      (* Broadcast countdown *)
      stateUpdate roomCode gameData;;
      let count := (count - 1)%Z in
      modify (fun w =>
        set_timers (alter (fun _ => CountdownTask roomCode gameDataId count) h (timers w)) w);;
      if (count <? 0)%Z then
        clearTimer h;;
        updGame roomCode (Game.set_countdownInterval None);;
        gameData ← startGameLoop roomCode gameDataId gameData;
        updGame roomCode (Game.set_gameData gameData)
      else mret tt
  end.

(** The callback of the physics interval [h]: one tick. *)
Definition gameLoopTick (h : nat) (roomCode : string) (gameDataId : nat) : M unit :=
  currentGame ← currentGameOf roomCode gameDataId;
  match currentGame with
  | None => clearTimer h
  | Some currentGame =>
      let gameData := Game.gameData currentGame in
      now ← Date_now;
      let deltaTime := (now - lastTickTime gameData) / #1000 in
      let gameData := set_lastTickTime now gameData in
      gameData ← updatePhysics gameData deltaTime;
      gameData ← checkEliminations gameData roomCode;
      gameData ← checkVictoryCondition gameData roomCode;
      updGame roomCode (Game.set_gameData gameData)
  end.

(** The callback of the state sync interval [h]. *)
Definition syncLoopTick (h : nat) (roomCode : string) (gameDataId : nat) : M unit :=
  currentGame ← currentGameOf roomCode gameDataId;
  match currentGame with
  | None => clearTimer h
  | Some game =>
      (* Keep lobby.gameData in sync *)
      updLobby (Game.lobby game) (Lobby.set_gameData (Some gameDataId));;
      stateUpdate roomCode (Game.gameData game)
  end.

(** The callback of the clean up timeout. *)
Definition cleanupTick (roomCode : string) : M unit :=
  modify (fun w => set_activeGames (delete roomCode (activeGames w)) w).

(** The timer [h] fires. *)
Definition fireTimer (h : nat) : M unit :=
  w ← get;
  match timers w !! h with
  | None => mret tt
  | Some (CountdownTask roomCode gameDataId count) =>
      countdownTick h roomCode gameDataId count
  | Some (GameLoopTask roomCode gameDataId) => gameLoopTick h roomCode gameDataId
  | Some (SyncLoopTask roomCode gameDataId) => syncLoopTick h roomCode gameDataId
  | Some (CleanupTask roomCode) => clearTimer h;; cleanupTick roomCode
  end.

(** ** The socket handlers of [setupBumperBallsHandlers], for the socket
    [socket] (its id) *)

(** [socket.on('bumper:move', ...)] *)
Definition onBumperMove (socket : string) (roomCode : string) (movement : MovementInput)
  : M unit :=
  game ← getGame roomCode;
  match game with
  | None => mret tt
  | Some game =>
      let gameData := Game.gameData game in
      match findPlayer (Some socket) (players gameData) with
      | None => mret tt
      | Some (k, player) =>
          if isEliminated player then mret tt else
          let player := set_lastInput (Some movement) player in
          updGame roomCode
            (Game.set_gameData (set_players (<[k := player]> (players gameData)) gameData))
      end
  end.

(** [socket.on('game:end', ...)] of the game module: "Manual game end (host
    only)", with its "TODO: Verify socket is host". *)
Definition onBumperGameEnd (socket : string) (roomCode : string) : M unit :=
  game ← getGame roomCode;
  match game with
  | None => mret tt
  | Some game =>
      (* End with current leader *)
      winnerId ← leaderId (players (Game.gameData game));
      gameData ← endGame (Game.gameData game) winnerId roomCode;
      updGame roomCode (Game.set_gameData gameData)
  end.

Definition errorTo (socket : string) (message : string) : M unit :=
  emit (ToSocket socket) "error" (JObj [("message", JStr message)]%string).

(** [socket.on('bumper:restart', ...)] *)
Definition onBumperRestart (socket : string) (roomCode : string) : M unit :=
  game ← getGame roomCode;
  match game with
  | None => errorTo socket "Game not found"
  | Some game =>
      lobby ← getLobby (Game.lobby game);
      match lobby with
      | None => errorTo socket "Game not found"
      | Some lobby =>
          (* Verify socket is host *)
          if negb (String.eqb (Lobby.hostId lobby) socket) then
            errorTo socket "Only host can restart the game"
          else
            (* Clear all intervals and timeouts *)
            clearIfSet (Game.gameLoop game);;
            clearIfSet (Game.syncLoop game);;
            clearIfSet (Game.countdownInterval game);;
            clearIfSet (Game.cleanupTimeout game);;
            updGame roomCode (fun e =>
              Game.set_cleanupTimeout None (Game.set_countdownInterval None
                (Game.set_syncLoop None (Game.set_gameLoop None e))));;
            (* Reset game data (the game object stays) *)
            newData ← newGameData lobby;
            newId ← newGameDataId;
            updGame roomCode (fun e =>
              Game.set_gameDataId newId (Game.set_gameData newData e));;
            updLobby (Game.lobby game) (Lobby.set_gameData (Some newId));;
            emit (ToRoom (Lobby.code lobby)) "game:started"
              (gameStartedPayload lobby newData);;
            startCountdown (Lobby.code lobby) newId
      end
  end.

(** ** The lobby server's own [game:end] handler *)

Definition lobbyFields (gameData : JSValue) (lobby : Lobby) : list (string * JSValue) :=
  [("id", JStr (Lobby.id lobby)); ("code", JStr (Lobby.code lobby));
   ("hostId", JStr (Lobby.hostId lobby));
   ("settings", settingsToJS (Lobby.settings lobby));
   ("players",
    JArr (map (fun p =>
      JObj ([("socketId", JStr (Player.socketId p))]%string
            ++ optField "gameBuddiesUuid" (JStr <$> Player.gameBuddiesUuid p)
            ++ [("name", JStr (Player.name p)); ("score", JNum (Player.score p));
                ("connected", JBool (Player.connected p));
                ("isHost", JBool (Player.isHost p))]%string
            ++ optField "disconnectedAt" (JNum <$> Player.disconnectedAt p)))
      (Lobby.players lobby)));
   ("state", gameStateToJS (Lobby.state lobby));
   ("gameData", gameData);
   ("isGameBuddiesRoom", JBool (Lobby.isGameBuddiesRoom lobby))]%string
  ++ optField "gameBuddiesRoomCode" (JStr <$> Lobby.gameBuddiesRoomCode lobby)
  ++ [("messages", JArr (map chatMessageToJS (Lobby.messages lobby)))]%string.

(** [sendSystemMessage(lobby, message)] *)
Definition sendSystemMessage (lobbyRef : nat) (lobby : Lobby) (message : string) : M unit :=
  id ← newUUID;
  timestamp ← Date_now;
  let systemMessage := ChatMessage.mk id "system" "System" message timestamp (Some true) in
  updLobby lobbyRef (fun l => Lobby.set_messages (Lobby.messages l ++ [systemMessage]) l);;
  emit (ToRoom (Lobby.code lobby)) "chat:message" (chatMessageToJS systemMessage).

(** [socket.on('game:end', ...)] of the lobby server. *)
Definition onServerGameEnd (socket : string) (roomCode : string) : M unit :=
  w ← get;
  match lobbies w !! roomCode with
  | None => mret tt
  | Some lobbyRef =>
      lobby ← getLobby lobbyRef;
      match lobby with
      | None => mret tt
      | Some lobby =>
          if negb (String.eqb (Lobby.hostId lobby) socket) then
            errorTo socket "Only host can end the game"
          else
            let lobby := Lobby.set_gameData None (Lobby.set_state GAME_ENDED lobby) in
            updLobby lobbyRef (fun _ => lobby);;
            emit (ToRoom (Lobby.code lobby)) "game:ended"
              (JObj [("lobby",
                      JObj (setField "players"
                              (JArr (map sanitizePlayer (Lobby.players lobby)))
                              (lobbyFields JNull lobby)))]%string);;
            sendSystemMessage lobbyRef lobby "Game ended!"
      end
  end.

(** ** Messages from a client *)

Inductive ClientEvent :=
  | BumperMove (roomCode : string) (movement : MovementInput)
  | GameEnd (roomCode : string)
  | BumperRestart (roomCode : string).

(** The listeners of [socket] run in the order they were registered: the
    game module's handlers first ([setupBumperBallsHandlers] is called at the
    top of the connection handler), the lobby server's after. *)
Definition onEvent (socket : string) (ev : ClientEvent) : M unit :=
  match ev with
  | BumperMove roomCode movement => onBumperMove socket roomCode movement
  | GameEnd roomCode =>
      onBumperGameEnd socket roomCode;; onServerGameEnd socket roomCode
  | BumperRestart roomCode => onBumperRestart socket roomCode
  end.

End Lifecycle.

(** ** The lobby server's [game:start] handler *)

Section ServerStart.

Context {N : Number} {H : Host}.

(** [try { body } catch (error) { handler }]: what the body did before it
    threw stays done. *)
Definition tryCatch {A} (body : M A) (handler : string -> M A) : M A := fun w =>
  match body w with
  | (Ok a, w') => (Ok a, w')
  | (Throw error, w') => handler error w'
  end.

(** [socket.on('game:start', ...)] of the lobby server. *)
Definition onGameStart (socket : string) (roomCode : string) : M unit :=
  tryCatch
    (w ← get;
     match lobbies w !! roomCode with
     | None => errorTo socket "Room not found"
     | Some lobbyRef =>
         lobby ← getLobby lobbyRef;
         match lobby with
         | None => errorTo socket "Room not found"
         | Some lobby =>
             (* Check if host *)
             if negb (String.eqb (Lobby.hostId lobby) socket) then
               errorTo socket "Only host can start the game"
             (* Check minimum players *)
             else if (Z.of_nat (length (Lobby.players lobby))
                      <? Settings.minPlayers (Lobby.settings lobby))%Z then
               errorTo socket
                 ("Need at least " +:+ pretty (Settings.minPlayers (Lobby.settings lobby))
                  +:+ " players to start")
             else
               (* Change state to PLAYING *)
               updLobby lobbyRef (Lobby.set_state PLAYING);;
               (* Initialize Bumper Balls game *)
               initializeBumperBallsGame lobbyRef;;
               sendSystemMessage lobbyRef lobby "Game starting!"
         end
     end)
    (fun _ => errorTo socket "Failed to start game").

End ServerStart.

(** ** The validation utilities of the lobby server *)

Section Validation.

(** A JavaScript string, as the sequence of its UTF-16 code units. *)
Definition JSString : Type := list N.

(** The code units [String.prototype.trim] strips: WhiteSpace (TAB, VT, FF,
    ZWNBSP and the space separators) and LineTerminator (LF, CR, LS, PS). *)
Definition isWhiteSpace (c : N) : bool :=
  ((9 <=? c) && (c <=? 13) || (c =? 32) || (c =? 160) || (c =? 5760)
   || (8192 <=? c) && (c <=? 8202) || (c =? 8232) || (c =? 8233) || (c =? 8239)
   || (c =? 8287) || (c =? 12288) || (c =? 65279))%N.

Fixpoint trimStart (s : JSString) : JSString :=
  match s with
  | c :: rest => if isWhiteSpace c then trimStart rest else s
  | [] => []
  end.

Definition trimEnd (s : JSString) : JSString := rev (trimStart (rev s)).

(** [s.trim()] *)
Definition trim (s : JSString) : JSString := trimEnd (trimStart s).

(** [!s] for a string [s]: the empty string is the one falsy string. *)
Definition isEmptyString (s : JSString) : bool :=
  match s with
  | [] => true
  | _ => false
  end.

(** [sanitizeInput(input)]: [<] is code unit 60, [>] is 62. *)
Definition sanitizeInput (input : JSString) : JSString :=
  List.filter (fun c => negb ((c =? 60) || (c =? 62))%N) (trim input).

(** [{ valid: boolean; error?: string }] *)
Record Validation := mkValidation {
  valid : bool;
  error : option string;
}.

(** [validatePlayerName(name)] *)
Definition validatePlayerName (name : JSString) : Validation :=
  if isEmptyString name || (length (trim name) =? 0)%nat then
    mkValidation false (Some "Player name is required"%string)
  else
    let trimmed := trim name in
    if (length trimmed <? 1)%nat || (20 <? length trimmed)%nat then
      mkValidation false (Some "Player name must be 1-20 characters"%string)
    else mkValidation true None.

(** [validateChatMessage(message)], for a [message] that is a string. *)
Definition validateChatMessage (message : JSString) : Validation :=
  if isEmptyString message then
    mkValidation false (Some "Message is required"%string)
  else
    let trimmed := trim message in
    if (length trimmed =? 0)%nat then
      mkValidation false (Some "Message cannot be empty"%string)
    else if (500 <? length trimmed)%nat then
      mkValidation false (Some "Message too long (max 500 characters)"%string)
    else mkValidation true None.

End Validation.

(* ===================================================================== *)
(** * Part II: specification vocabulary and example inputs *)
(* ===================================================================== *)

Section RealExamples.
Local Open Scope R_scope.

Definition origin : Vector3D (N := RNum) := Vector3D.mk (N := RNum) 0 0 0.

(** A sprinting player with 40 stamina who keeps pushing forward. *)
Definition sprinter : PlayerBall (N := RNum) :=
  PlayerBall.mk (N := RNum) "s1" "Ann" "#FF4444"
    (Vector3D.mk (N := RNum) 8 1 0) origin origin origin
    false None 40 true 0%nat 0
    (Some (MovementInput.mk (N := RNum) 1 0 true)) None None.

End RealExamples.

(** ** Vocabulary for the collision resolver, in exact arithmetic *)

(** The runtime read over the reals: any clock and UUID source will do for
    the examples; [Math] is the real thing. *)
Definition realHost : Host (N := RNum) :=
  @Build_Host RNum
    (fun k => (1700000000000 + 16 * INR k)%R)
    (fun _ => "00000000-0000-4000-8000-000000000000"%string)
    cos sin PI.

Definition emptyWorld {N : Number} : World :=
  World.mk ∅ ∅ ∅ ∅ 0%nat 0%nat [] 0%nat 0%nat.

Section CollisionVocabulary.
Local Open Scope R_scope.
Implicit Types p q : PlayerBall (N := RNum).

(** The local variables of [resolveCollision], as functions of its
    arguments: [speed1], [mass1], [velAlongNormal], [j], [impulse1] (the
    impulse a player receives from [other]), [p1ImpulseMagnitude]. *)
Definition speedOf p : R := R_sqrt.sqrt (velX p * velX p + velZ p * velZ p).
Definition massOf p : R := if isSprinting p then 15 / 10 else 1.
Definition velAlongNormal p1 p2 (nx nz : R) : R :=
  (velX p2 - velX p1) * nx + (velZ p2 - velZ p1) * nz.
Definition impulseScalar p1 p2 (nx nz : R) : R :=
  - (1 + 105 / 10) * velAlongNormal p1 p2 nx nz / (massOf p1 + massOf p2).
Definition impulseFrom other (j : R) : R :=
  j * massOf other * (1 + speedOf other / 30 * 9).
Definition magnitude (vx vz : R) : R := R_sqrt.sqrt (vx * vx + vz * vz).

(** [scale] of the minimum-impulse step when it runs, 0 when it does not. *)
Definition minImpulseScale (m : R) : R :=
  if Rltb m 24 then 24 / (if Reqb m 0 then 1 else m) else 0.

(** Same position and same velocity. *)
Definition samePlanar p q : Prop :=
  position p = position q /\ velocity p = velocity q.

(** A player moving at 2 units/s towards a resting player half a unit
    away. *)
Definition rplayer (id : string) (px pz vx vz : R) : PlayerBall (N := RNum) :=
  PlayerBall.mk (N := RNum) id id "#FF4444"
    (Vector3D.mk (N := RNum) px 1 pz) (Vector3D.mk (N := RNum) vx 0 vz)
    origin origin false None 100 false 0%nat 0
    (Some (MovementInput.mk (N := RNum) 0 0 false)) None None.
Definition bumped : PlayerBall (N := RNum) := rplayer "s2" (1 / 2) 0 0 0.

End CollisionVocabulary.

Section ImpulseVocabulary.
Local Open Scope R_scope.

(** How an impulse [(ix, iz)] of magnitude [m > 0] shows in the velocity
    change [(dvx, dvz)] of the player it is applied to. *)
Definition impulseApplied (dvx dvz ix iz m : R) : Prop :=
  (24 <= m -> dvx = ix /\ dvz = iz) /\
  (0 < m < 24 ->
     dvx = (1 + 24 / m) * ix /\ dvz = (1 + 24 / m) * iz /\
     magnitude dvx dvz = m + 24).

End ImpulseVocabulary.

(** ** The program on binary64: a runtime and example states *)

Section FloatRuntime.
Local Open Scope float_scope.

(** [Math.cos] and [Math.sin] are implementation-approximated; this
    implementation sums 30 terms of the Taylor series about 0, which on the
    angles of the spawn ring (between 0 and 2 pi) is good to a few units in
    the last places. *)
Fixpoint taylor (n : nat) (k term acc x2 : float) : float :=
  match n with
  | O => acc
  | S n' =>
      let term' := - term * x2 / ((k + 1) * (k + 2)) in
      taylor n' (k + 2) term' (acc + term') x2
  end.
Definition float_cos (a : float) : float := taylor 30 0 1 1 (a * a).
Definition float_sin (a : float) : float := taylor 30 1 a a (a * a).

(** The clock starts at [t0] and every reading comes 1 ms after the one
    before. *)
Definition t0 : float := 1700000000000.
Definition floatHost : Host (N := FNum) :=
  @Build_Host FNum
    (fun k => t0 + float_ofZ (Z.of_nat k))
    (fun _ => "00000000-0000-4000-8000-000000000000"%string)
    float_cos float_sin 0x1.921fb54442d18p+1.

Definition fvec (a b c : float) : Vector3D (N := FNum) := Vector3D.mk (N := FNum) a b c.

(** A player ball with full stamina and no input. *)
Definition fball (id name : string) (pos vel : Vector3D (N := FNum))
    (out : bool) (kos : nat) : PlayerBall (N := FNum) :=
  PlayerBall.mk (N := FNum) id name "#FF4444" pos vel (fvec 0 0 0) (fvec 0 0 0)
    out None 100 false kos 0
    (Some (MovementInput.mk (N := FNum) 0 0 false)) None None.

(** Two players whose centers coincide. *)
Definition twin1 : PlayerBall (N := FNum) :=
  fball "s1" "Ann" (fvec 1 1 2) (fvec 3 0 0) false 0.
Definition twin2 : PlayerBall (N := FNum) :=
  fball "s2" "Bob" (fvec 1 1 2) (fvec 0 0 (-1)) false 0.

Definition roster3 : list (Player.t (N := FNum)) :=
  [Player.mk (N := FNum) "s1" None "Ann" 0 true true None;
   Player.mk (N := FNum) "s2" None "Bob" 0 true false None;
   Player.mk (N := FNum) "s3" None "Cy" 0 true false None].

Definition arenaLobby (mode : option GameMode) : Lobby (N := FNum) :=
  Lobby.mk (N := FNum) "lobby-1" "ROOM" "s1" (Settings.mk 2 12 mode) roster3
    PLAYING (Some 0%nat) false None [].

(** A session in play with two players left: Ann (the host) in the middle
    of the platform, Bob, who knocked Cy out, at [bobAt]. *)
Definition lateGame (mode : GameMode) (started : float) (bobAt : Vector3D (N := FNum))
  : GameData (N := FNum) :=
  GameData.mk (N := FNum) playing (Some 0%Z) started mode
    [fball "s1" "Ann" (fvec 0 1 0) (fvec 0 0 0) false 0;
     fball "s2" "Bob" bobAt (fvec 0 0 0) false 1;
     fball "s3" "Cy" (fvec 12 (-6) 0) (fvec 0 (-10) 0) true 0]
    ["s1"; "s2"]%string ["s3"]%string None (t0 - 16).

Definition lateWorld (mode : GameMode) (started : float) (bobAt : Vector3D (N := FNum))
  : World (N := FNum) :=
  World.mk (N := FNum)
    {[ "ROOM"%string :=
         Game.mk (N := FNum) 0%nat (lateGame mode started bobAt) 0%nat
           (Some 1%nat) (Some 2%nat) None None ]}
    {[ "ROOM"%string := 0%nat ]}
    {[ 0%nat := arenaLobby (Some mode) ]}
    {[ 1%nat := GameLoopTask "ROOM" 0; 2%nat := SyncLoopTask "ROOM" 0 ]}
    3%nat 1%nat [] 0%nat 0%nat.

(** Timed mode, three minutes after the start, Bob just over the edge. *)
Definition timeUpWorld : World (N := FNum) :=
  lateWorld timed (t0 - 180000) (fvec 10.5 1 0).

(** Classic mode, both players well on the platform. *)
Definition midGameWorld : World (N := FNum) :=
  lateWorld classic (t0 - 60000) (fvec 4 1 0).

(** The [winnerId] each [bumper:game-end] in an outbox announces. *)
Definition gameEndsAnnounced (out : list (Emit (N := FNum))) : list (option JSValue) :=
  map (fun e => field "winnerId" (payload e))
    (filter (fun e => event e = "bumper:game-end"%string) out).

(** Who was sent what. *)
Definition sent (out : list (Emit (N := FNum))) : list (Target * string) :=
  map (fun e => (target e, event e)) out.

End FloatRuntime.

(** ** Vocabulary for the input handler and the sanitizer *)

Section FrameVocabulary.
Context {N : Number}.

(** [p'] is [p] but for its [lastInput]. *)
Definition sameButLastInput (p p' : PlayerBall) : Prop :=
  socketId p' = socketId p /\ name p' = name p /\ color p' = color p /\
  position p' = position p /\ velocity p' = velocity p /\
  rotation p' = rotation p /\ acceleration p' = acceleration p /\
  isEliminated p' = isEliminated p /\ eliminatedAt p' = eliminatedAt p /\
  stamina p' = stamina p /\ isSprinting p' = isSprinting p /\
  eliminations p' = eliminations p /\ survivalTime p' = survivalTime p /\
  lastHitBy p' = lastHitBy p /\ lastHitTime p' = lastHitTime p.

(** [g'] is [g] but for its [players]. *)
Definition sameButPlayers (g g' : GameData) : Prop :=
  status g' = status g /\ countdownValue g' = countdownValue g /\
  startTime g' = startTime g /\ gameMode g' = gameMode g /\
  alivePlayers g' = alivePlayers g /\
  eliminationOrder g' = eliminationOrder g /\
  winnerId g' = winnerId g /\ lastTickTime g' = lastTickTime g.

(** [e'] is [e] but for its [gameData]. *)
Definition sameButGameData (e e' : Game.t) : Prop :=
  Game.lobby e' = Game.lobby e /\ Game.gameDataId e' = Game.gameDataId e /\
  Game.gameLoop e' = Game.gameLoop e /\ Game.syncLoop e' = Game.syncLoop e /\
  Game.countdownInterval e' = Game.countdownInterval e /\
  Game.cleanupTimeout e' = Game.cleanupTimeout e.

(** [w'] is [w] but for the entry of [roomCode] in the registry. *)
Definition sameButGame (roomCode : string) (w w' : World) : Prop :=
  (forall r, r ≠ roomCode -> activeGames w' !! r = activeGames w !! r) /\
  lobbies w' = lobbies w /\ lobbyObjs w' = lobbyObjs w /\
  timers w' = timers w /\ nextTimer w' = nextTimer w /\
  nextGameData w' = nextGameData w /\ outbox w' = outbox w /\
  clockReads w' = clockReads w /\ uuidDraws w' = uuidDraws w.

(** The player a message from [socket] addresses: the first of the roster
    with that id. *)
Definition addressed (socket : string) (ps : list PlayerBall) (k : nat) (p : PlayerBall)
  : Prop :=
  ps !! k = Some p /\ socketId p = socket /\
  forall j q, ps !! j = Some q -> (j < k)%nat -> socketId q ≠ socket.

(** The fields [sanitizeGameData] says it removes from a player, and what
    the client's own [PlayerBall] declares. *)
Definition serverOnlyPlayerFields : list string :=
  ["acceleration"; "lastInput"; "lastHitBy"; "lastHitTime"]%string.

End FrameVocabulary.

(** ** Vocabulary for the elimination invariants *)

#[export] Instance Target_eq_dec : EqDecision Target.
Proof. solve_decision. Defined.

Section SessionVocabulary.
Context {N : Number} {H : Host}.

(** What the elimination bookkeeping sees of a player. *)
Definition flagOf (p : PlayerBall) : string * bool := (socketId p, isEliminated p).
Definition flags (g : GameData) : list (string * bool) := map flagOf (players g).

(** The invariant of one session's game data: the roster's ids are
    distinct; [alivePlayers] lists, in roster order, the ids of the players
    that are not eliminated; [eliminationOrder] has no duplicates and holds
    exactly the ids of the eliminated players. *)
Definition session_inv (g : GameData) : Prop :=
  NoDup (flags g).*1 /\
  alivePlayers g = (filter (fun x => x.2 = false) (flags g)).*1 /\
  NoDup (eliminationOrder g) /\
  (forall id, id ∈ eliminationOrder g <-> (id, true) ∈ flags g).

(** From [g] to [g'] the roster keeps its players, and the eliminated stay
    eliminated. *)
Definition eliminated_stay (g g' : GameData) : Prop :=
  length (players g') = length (players g) /\
  forall i p, players g !! i = Some p ->
    exists p', players g' !! i = Some p' /\ socketId p' = socketId p /\
               (isEliminated p = true -> isEliminated p' = true).

(** The [bumper:player-eliminated] notifications sent to a room. *)
Definition eliminationEvents (roomCode : string) (out : list Emit) : nat :=
  length (filter (fun e => target e = ToRoom roomCode /\
                           event e = "bumper:player-eliminated"%string) out).

(** The session an entry of the registry holds. *)
Definition sessionOf (e : Game.t) : GameData * nat := (Game.gameData e, Game.gameDataId e).
Definition rosterOf (l : Lobby) : list string := map Player.socketId (Lobby.players l).

(** The invariant of the server: every session satisfies [session_inv] and
    was stamped before [nextGameData]; every lobby's roster has distinct
    socket ids (what [lobby:join] checks before it adds a player). *)
Definition world_inv (w : World) : Prop :=
  (forall r e, activeGames w !! r = Some e ->
     session_inv (Game.gameData e) /\ (Game.gameDataId e < nextGameData w)%nat) /\
  (forall a l, lobbyObjs w !! a = Some l -> NoDup (rosterOf l)).

(** The steps of the server: a timer fires, a client message arrives, the
    lobby server starts a game, or the lobby directory does something of its
    own (players join and leave, chat), which touches neither the registry
    nor the timers of the game module and sends no elimination notice.  A
    callback that throws ends the process: it is no step. *)
Inductive step : World -> World -> Prop :=
  | step_timer h w w' :
      fireTimer h w = (Ok tt, w') -> step w w'
  | step_event socket ev w w' :
      onEvent socket ev w = (Ok tt, w') -> step w w'
  | step_start lobbyRef w w' :
      initializeBumperBallsGame lobbyRef w = (Ok tt, w') -> step w w'
  | step_directory w w' :
      activeGames w' = activeGames w ->
      nextGameData w' = nextGameData w ->
      (forall r, eliminationEvents r (outbox w') = eliminationEvents r (outbox w)) ->
      (forall a l, lobbyObjs w' !! a = Some l -> NoDup (rosterOf l)) ->
      step w w'.

Inductive reachable : World -> Prop :=
  | reachable_start : reachable emptyWorld
  | reachable_step w w' : reachable w -> step w w' -> reachable w'.

End SessionVocabulary.

(** ** Vocabulary for the steps of a session *)

Section StepVocabulary.
Context {N : Number} {H : Host}.

(** [m] run from [w] returns [a] and leaves [w']: then [Q w a w']. *)
Definition sat {A} (m : M A) (Q : World -> A -> World -> Prop) : Prop :=
  forall w a w', m w = (Ok a, w') -> Q w a w'.

(** Between [w] and [w'] no session, no roster and no stamp changed. *)
Definition quiet (w w' : World) : Prop :=
  (forall r, sessionOf <$> activeGames w' !! r = sessionOf <$> activeGames w !! r) /\
  (forall a, rosterOf <$> lobbyObjs w' !! a = rosterOf <$> lobbyObjs w !! a) /\
  nextGameData w' = nextGameData w.

(** ... and no elimination was announced. *)
Definition still (w w' : World) : Prop :=
  quiet w w' /\
  forall r, eliminationEvents r (outbox w') = eliminationEvents r (outbox w).

Definition stillM {A} (m : M A) : Prop := sat m (fun w _ w' => still w w').

(** [m] is still and what it returns satisfies [P]. *)
Definition pureM {A} (m : M A) (P : A -> Prop) : Prop :=
  sat m (fun w a w' => still w w' /\ P a).

(** The elimination bookkeeping of [g'] is that of [g]. *)
Definition sameView (g g' : GameData) : Prop :=
  flags g' = flags g /\ alivePlayers g' = alivePlayers g /\
  eliminationOrder g' = eliminationOrder g.

(** The flags of [fl'] are those of [fl], but that some players were
    eliminated in between. *)
Definition flags_stay (fl fl' : list (string * bool)) : Prop :=
  length fl' = length fl /\
  forall i id b, fl !! i = Some (id, b) ->
    exists b', fl' !! i = Some (id, b') /\ (b = true -> b' = true).

(** From [g] to [g'] the player at [i], whose id is [id], was eliminated. *)
Definition eliminated_at (i : nat) (id : string) (g g' : GameData) : Prop :=
  flags g' = <[i := (id, true)]> (flags g) /\
  alivePlayers g' = filter (fun y => y ≠ id) (alivePlayers g) /\
  eliminationOrder g' = eliminationOrder g ++ [id].

(** The game data went from [g] to [g'] while the server went from [w] to
    [w']: players were only eliminated, the invariant was kept, and every
    elimination was announced to the room, once. *)
Definition progress (roomCode : string) (g : GameData) (w : World)
    (g' : GameData) (w' : World) : Prop :=
  flags_stay (flags g) (flags g') /\
  quiet w w' /\
  (forall r, r ≠ roomCode ->
     eliminationEvents r (outbox w') = eliminationEvents r (outbox w)) /\
  (session_inv g ->
     session_inv g' /\
     (eliminationEvents roomCode (outbox w') + length (alivePlayers g')
      = eliminationEvents roomCode (outbox w) + length (alivePlayers g))%nat).

Definition progM (roomCode : string) (g : GameData) (m : M GameData) : Prop :=
  sat m (fun w g' w' => progress roomCode g w g' w').

(** The session [e'] holds in [w'] continues the one the room had in [w]. *)
Definition continued (w w' : World) (r : string) (e' : Game.t) : Prop :=
  exists e, activeGames w !! r = Some e /\
    Game.gameDataId e' = Game.gameDataId e /\
    flags_stay (flags (Game.gameData e)) (flags (Game.gameData e')) /\
    (session_inv (Game.gameData e) ->
       session_inv (Game.gameData e') /\
       (eliminationEvents r (outbox w') + length (alivePlayers (Game.gameData e'))
        = eliminationEvents r (outbox w) + length (alivePlayers (Game.gameData e)))%nat).

(** The session [e'] holds in [w'] was created in the step from [w]. *)
Definition fresh (w w' : World) (e' : Game.t) : Prop :=
  Game.gameDataId e' = nextGameData w /\
  nextGameData w' = S (nextGameData w) /\
  (world_inv w -> session_inv (Game.gameData e')).

Definition wstep (w w' : World) : Prop :=
  (nextGameData w <= nextGameData w')%nat /\
  (world_inv w -> forall a l', lobbyObjs w' !! a = Some l' -> NoDup (rosterOf l')) /\
  forall r e', activeGames w' !! r = Some e' -> continued w w' r e' \/ fresh w w' e'.

(** A step that concerns the session of room [X] only. *)
Definition acts (X : string) (w w' : World) : Prop :=
  (forall a, rosterOf <$> lobbyObjs w' !! a = rosterOf <$> lobbyObjs w !! a) /\
  nextGameData w' = nextGameData w /\
  (forall r, r ≠ X ->
     sessionOf <$> activeGames w' !! r = sessionOf <$> activeGames w !! r /\
     eliminationEvents r (outbox w') = eliminationEvents r (outbox w)) /\
  (forall e', activeGames w' !! X = Some e' -> continued w w' X e').

(** A step that gives room [X] a new session. *)
Definition starts (X : string) (w w' : World) : Prop :=
  (forall a, rosterOf <$> lobbyObjs w' !! a = rosterOf <$> lobbyObjs w !! a) /\
  nextGameData w' = S (nextGameData w) /\
  (forall r, r ≠ X ->
     sessionOf <$> activeGames w' !! r = sessionOf <$> activeGames w !! r /\
     eliminationEvents r (outbox w') = eliminationEvents r (outbox w)) /\
  (forall e', activeGames w' !! X = Some e' -> fresh w w' e').

(** Rosters, and the sessions and elimination notices of the rooms other
    than [X], are the same in [w] and [w']. *)
Definition frame (X : string) (w w' : World) : Prop :=
  (forall a, rosterOf <$> lobbyObjs w' !! a = rosterOf <$> lobbyObjs w !! a) /\
  (forall r, r ≠ X ->
     sessionOf <$> activeGames w' !! r = sessionOf <$> activeGames w !! r /\
     eliminationEvents r (outbox w') = eliminationEvents r (outbox w)).

End StepVocabulary.

(** ** A session run on floats *)

Section SessionRun.
#[local] Existing Instance floatHost.

(** A lobby of three before its first game. *)
Definition waitingLobby : Lobby (N := FNum) :=
  Lobby.mk (N := FNum) "lobby-1" "ROOM" "s1" (Settings.mk 2 12 None) roster3
    LOBBY_WAITING None false None [].

Definition lobbyWorld : World (N := FNum) :=
  World.mk (N := FNum) ∅ {[ "ROOM"%string := 0%nat ]} {[ 0%nat := waitingLobby ]} ∅
    0%nat 0%nat [] 0%nat 0%nat.

(** The game starts, the countdown runs out, Ann steers outwards, the
    process stalls for half a second, and the physics interval fires. *)
Definition afterStart : World (N := FNum) := exec (initializeBumperBallsGame 0%nat) lobbyWorld.
Definition afterCountdown : World (N := FNum) :=
  exec (fireTimer 0%nat) (exec (fireTimer 0%nat) (exec (fireTimer 0%nat)
    (exec (fireTimer 0%nat) afterStart))).
Definition steerOut : ClientEvent (N := FNum) :=
  BumperMove "ROOM" (MovementInput.mk (N := FNum) 1%float 0%float false).
Definition afterMove : World (N := FNum) := exec (onEvent "s1" steerOut) afterCountdown.
Definition afterStall : World (N := FNum) :=
  set_clockReads (clockReads afterMove + 500)%nat afterMove.
Definition afterTick : World (N := FNum) := exec (fireTimer 1%nat) afterStall.

End SessionRun.

(** ** Vocabulary for further properties of the code *)

Section TotalityVocabulary.
Context {N : Number} {H : Host}.

(** [m] returns from every state: it does not throw. *)
Definition total {A} (m : M A) : Prop := forall w, exists a w', m w = (Ok a, w').

End TotalityVocabulary.

Section PhysicsKeepsVocabulary.
Context {N : Number} {H : Host}.
Implicit Types p q : PlayerBall.

(** The fields of a player the physics never writes. *)
Definition kept (p : PlayerBall) :=
  (socketId p, name p, color p, rotation p, isEliminated p, eliminatedAt p,
   eliminations p, lastInput p).

End PhysicsKeepsVocabulary.

Section HitCreditVocabulary.
Context {N : Number} {H : Host}.
Implicit Types p q : PlayerBall.
Local Open Scope js_scope.

(** Who hit a player last, and when. *)
Definition hitRecord (p : PlayerBall) : option string * option num :=
  (lastHitBy p, lastHitTime p).

(** What the hit record depends on, and the velocity. *)
Definition hitView (p : PlayerBall) := (socketId p, lastHitBy p, lastHitTime p).

End HitCreditVocabulary.

Section CollisionKeepsVocabulary.
Context {N : Number} {H : Host}.
Implicit Types p q : PlayerBall.
Implicit Types ps : list PlayerBall.

(** The players [ps'] are those of [ps] but for what the physics writes in
    players still in the game. *)
Definition physicsFrame (ps ps' : list PlayerBall) : Prop :=
  length ps' = length ps /\
  forall k p, ps !! k = Some p ->
    exists p', ps' !! k = Some p' /\ kept p' = kept p /\
               (isEliminated p = true -> p' = p).

End CollisionKeepsVocabulary.

Section CalmVocabulary.
Local Open Scope R_scope.

(** No two players still in the game overlap: the centres of any two of
    them are at least two ball radii apart in the plane, which is when
    [checkCollisions] resolves nothing. *)
Definition apart (ps : list (PlayerBall (N := RNum))) : Prop :=
  forall i j p q,
    (i < j)%nat -> ps !! i = Some p -> ps !! j = Some q ->
    isEliminated p = false -> isEliminated q = false ->
    1 <= magnitude (posX q - posX p) (posZ q - posZ p).

(** A session in play with two players 5 units apart, the first one moving
    at twice [MAX_VELOCITY] and falling from a height of 1/2. *)
Definition calmGame : GameData (N := RNum) :=
  GameData.mk (N := RNum) playing (Some 0%Z) 0 classic
    [set_posY (N := RNum) (1 / 2) (rplayer "s1" 0 0 60 0); rplayer "s2" 5 0 0 0]
    ["s1"; "s2"]%string [] None 0.

End CalmVocabulary.

Section LeaderPropertiesVocabulary.
Context {N : Number} {H : Host}.
Implicit Types p q : PlayerBall.
Implicit Types ps : list PlayerBall.

(** The first player of [ps] with the most eliminations, at index [k]. *)
Definition firstLeader (ps : list PlayerBall) (k : nat) (p : PlayerBall) : Prop :=
  ps !! k = Some p /\
  (forall q, q ∈ ps -> (eliminations q <= eliminations p)%nat) /\
  (forall j q, (j < k)%nat -> ps !! j = Some q -> (eliminations q < eliminations p)%nat).

End LeaderPropertiesVocabulary.

Section SanitizerFurtherVocabulary.
Context {N : Number}.

(** What a client may see of a player. *)
Definition clientView (p : PlayerBall) :=
  (socketId p, name p, color p, position p, velocity p, rotation p,
   isEliminated p, stamina p, isSprinting p, eliminations p, survivalTime p).

End SanitizerFurtherVocabulary.

Section EliminationFurtherVocabulary.
Context {N : Number} {H : Host}.
Implicit Types p q : PlayerBall.
Implicit Types g : GameData.
Local Open Scope js_scope.

(** The two tests of [checkEliminations]: beyond the platform's edge, or
    fallen below the threshold. *)
Definition outOfBounds (p : PlayerBall) : bool :=
  (nsqrt (sq (posX p) + sq (posZ p)) >? PLATFORM_RADIUS) || (posY p <? FALL_THRESHOLD).

(** The player [gameData.players[i]] as [eliminatePlayer] leaves it, when the
    clock read [now]. *)
Definition eliminatedAs (now : num) (p : PlayerBall) : PlayerBall :=
  set_eliminatedAt (Some now) (set_isEliminated true p).

(** The credit [eliminatePlayer] gives: the index of the player whose
    [eliminations] it increments, if any. *)
Definition creditOf (i : nat) (g : GameData) (w : World) : option nat :=
  match players g !! i with
  | Some p =>
      match lastHitBy p, lastHitTime p with
      | Some hitBy, Some hitTime =>
          if strTruthy hitBy && truthy hitTime
             && (clock (S (clockReads w)) - hitTime <? #3000)
          then
            match findPlayer (Some hitBy)
                    (<[i := eliminatedAs (clock (clockReads w)) p]> (players g)) with
            | Some (k, attacker) => if isEliminated attacker then None else Some k
            | None => None
            end
          else None
      | _, _ => None
      end
  | None => None
  end.

(** The players after [eliminatePlayer(players[i], ...)]. *)
Definition playersAfterElimination (i : nat) (g : GameData) (w : World)
  : list PlayerBall :=
  match players g !! i with
  | Some p =>
      let ps := <[i := eliminatedAs (clock (clockReads w)) p]> (players g) in
      match creditOf i g w with
      | Some k =>
          match ps !! k with
          | Some attacker => <[k := set_eliminations (S (eliminations attacker)) attacker]> ps
          | None => ps
          end
      | None => ps
      end
  | None => players g
  end.

(** After the first [m] players of [g] have been checked: they are
    eliminated if they were or are out of bounds, the others are as
    before; nobody moved. *)
Definition checkedUpTo (g : GameData) (m : nat) (g' : GameData) : Prop :=
  length (players g') = length (players g) /\
  forall k p, players g !! k = Some p ->
    exists p', players g' !! k = Some p' /\
      socketId p' = socketId p /\ position p' = position p /\
      isEliminated p'
      = (if decide (k < m)%nat then isEliminated p || outOfBounds p else isEliminated p).

End EliminationFurtherVocabulary.

Section EndGameFurtherVocabulary.
Context {N : Number} {H : Host}.
Implicit Types g : GameData.
Implicit Types w : World.

(** The events of [out] that are [ev]. *)
Definition eventsNamed (ev : string) (out : list Emit) : list Emit :=
  filter (fun e => event e = ev) out.

(** The winner the victory check declares when at most one player is left
    standing: the survivor, or the last player to have been eliminated. *)
Definition lastStanding g : option string :=
  match alivePlayers g with
  | [survivor] => Some survivor
  | _ => last (eliminationOrder g)
  end.

(** The game is playing and at most one player is left alive. *)
Definition decided g : bool :=
  match status g with
  | playing => (length (alivePlayers g) <=? 1)%nat
  | _ => false
  end.

End EndGameFurtherVocabulary.

Section FurtherExamplesVocabulary.
Local Open Scope float_scope.

(** Bob over the edge, a second after Ann has bumped him. *)
Definition bumpedBob : PlayerBall (N := FNum) :=
  set_lastHitTime (N := FNum) (Some (t0 - 1000))
    (set_lastHitBy (Some "s1"%string)
       (fball "s2" "Bob" (fvec 10.5 1 0) (fvec 30 0 0) false 1)).

Definition bumpedGame : GameData (N := FNum) :=
  set_players
    [fball "s1" "Ann" (fvec 0 1 0) (fvec 0 0 0) false 0; bumpedBob;
     fball "s3" "Cy" (fvec 12 (-6) 0) (fvec 0 (-10) 0) true 0]
    (lateGame classic (t0 - 60000) (fvec 10.5 1 0)).

(** The same session once Bob is out as well: Ann is the last one in. *)
Definition lastOneGame : GameData (N := FNum) :=
  GameData.mk (N := FNum) playing (Some 0%Z) (t0 - 60000) classic
    [fball "s1" "Ann" (fvec 0 1 0) (fvec 0 0 0) false 1;
     fball "s2" "Bob" (fvec 12 (-6) 0) (fvec 30 (-10) 0) true 1;
     fball "s3" "Cy" (fvec 12 (-6) 0) (fvec 0 (-10) 0) true 0]
    ["s1"]%string ["s3"; "s2"]%string None (t0 - 16).

Definition lastOneWorld : World (N := FNum) :=
  set_activeGames
    (alter (Game.set_gameData lastOneGame) "ROOM"%string (activeGames midGameWorld))
    midGameWorld.

End FurtherExamplesVocabulary.

Section LifecycleVocabulary.
Context {N : Number} {H : Host}.

(** [if (handle) clearInterval(handle)] on the table of pending timers. *)
Definition cancel (h : option nat) (ts : gmap nat TimerTask) : gmap nat TimerTask :=
  match h with
  | Some h => delete h ts
  | None => ts
  end.

(** The session an interval's callback was created for. *)
Definition taskSession (task : TimerTask) : option (string * nat) :=
  match task with
  | CountdownTask roomCode gameDataId _ => Some (roomCode, gameDataId)
  | GameLoopTask roomCode gameDataId => Some (roomCode, gameDataId)
  | SyncLoopTask roomCode gameDataId => Some (roomCode, gameDataId)
  | CleanupTask _ => None
  end.

(** Game data as a session starts with them: in countdown, the lobby's
    roster in its order, everybody alive and without eliminations, nobody
    out and no winner. *)
Definition freshGame (lobby : Lobby) (g : GameData) : Prop :=
  status g = countdown /\
  countdownValue g = Some COUNTDOWN_DURATION /\
  gameMode g = default classic (Settings.gameMode (Lobby.settings lobby)) /\
  map socketId (players g) = map Player.socketId (Lobby.players lobby) /\
  alivePlayers g = map Player.socketId (Lobby.players lobby) /\
  eliminationOrder g = [] /\
  winnerId g = None /\
  Forall (fun p => isEliminated p = false /\ eliminations p = 0%nat) (players g).

(** The timer [h] fires [n] times in a row. *)
Fixpoint fires (h : nat) (n : nat) : M unit :=
  match n with
  | O => mret tt
  | S n => fireTimer h;; fires h n
  end.

(** The [bumper:state-update] with which a room is told its game data. *)
Definition stateUpdateOf (roomCode : string) (g : GameData) : Emit :=
  mkEmit (ToRoom roomCode) "bumper:state-update"
    (JObj [("gameData", sanitizeGameData g)]%string).

End LifecycleVocabulary.

(* ===================================================================== *)
(** * Part III: properties *)
(* ===================================================================== *)

(** ** Properties of the stamina system, in exact arithmetic *)

Section StaminaProperties.
Local Open Scope R_scope.

Lemma Rltb_true a b : Rltb a b = true <-> a < b.
Proof. unfold Rltb. destruct (Rlt_dec a b); split; intros; (done || lra). Qed.
Lemma Rltb_false a b : Rltb a b = false <-> b <= a.
Proof. unfold Rltb. destruct (Rlt_dec a b); split; intros; (done || lra). Qed.
Lemma Rleb_true a b : Rleb a b = true <-> a <= b.
Proof. unfold Rleb. destruct (Rle_dec a b); split; intros; (done || lra). Qed.
Lemma Rleb_false a b : Rleb a b = false <-> b < a.
Proof. unfold Rleb. destruct (Rle_dec a b); split; intros; (done || lra). Qed.

(** C2. Stamina bounds: if the stamina is in [0,100] before
    [updateStamina] and the delta time is not negative, it is in [0,100]
    after: the drain floors at 0, the regeneration caps at MAX_STAMINA. *)
Theorem updateStamina_bounds (player : PlayerBall (N := RNum)) (deltaTime : R) :
  0 <= deltaTime ->
  0 <= stamina player <= 100 ->
  0 <= stamina (updateStamina player deltaTime) <= 100.
Proof.
  intros Hdt [Hlo Hhi].
  unfold updateStamina.
  assert (Hkeep : forall (b : bool) (q : PlayerBall (N := RNum)),
             stamina (if b then set_isSprinting true q else set_isSprinting false q)
             = stamina q) by (intros [] q; reflexivity).
  rewrite Hkeep. clear Hkeep.
  destruct (isSprinting player && isMoving player); cbn.
  - destruct (Rltb _ _) eqn:E; cbn; [lra|].
    apply Rltb_false in E. unfold STAMINA_DRAIN in *; cbn in *. split; [lra|nra].
  - destruct (Rltb _ _) eqn:E; cbn.
    + unfold MAX_STAMINA; cbn. lra.
    + apply Rltb_false in E. unfold MAX_STAMINA, STAMINA_REGEN in *; cbn in *.
      split; [nra|lra].
Qed.

Lemma updateStamina_bounds_witness :
  0 <= stamina (updateStamina sprinter (1 / 60)) <= 100.
Proof. apply updateStamina_bounds; cbn; lra. Defined.

Lemma isSprinting_final (b : bool) (q : PlayerBall (N := RNum)) :
  isSprinting (if b then set_isSprinting true q else set_isSprinting false q) = b.
Proof. destruct b; reflexivity. Qed.

Lemma stamina_final (b : bool) (q : PlayerBall (N := RNum)) :
  stamina (if b then set_isSprinting true q else set_isSprinting false q)
  = stamina q.
Proof. destruct b; reflexivity. Qed.

Lemma wantsSprint_drain (b : bool) (p q r : PlayerBall (N := RNum)) :
  wantsSprint q = wantsSprint p -> wantsSprint r = wantsSprint p ->
  wantsSprint (if b then q else r) = wantsSprint p.
Proof. destruct b; auto. Qed.

(** C4. Sprint and stamina coupling.  After [updateStamina], [isSprinting]
    is true exactly when the last input requests sprint and the stamina just
    computed is at least MIN_SPRINT_STAMINA (10); and when the drain of a
    sprinting, moving player takes the stamina to 0 (or the stamina ends at 0
    for any other reason), [isSprinting] is false in the result whatever the
    input's sprint flag says. *)
Theorem updateStamina_sprint (player : PlayerBall (N := RNum)) (deltaTime : R) :
  let player' := updateStamina player deltaTime in
  (isSprinting player' = true <->
     wantsSprint player = true /\ 10 <= stamina player') /\
  (isSprinting player = true -> isMoving player = true ->
     stamina player - 45 * deltaTime <= 0 ->
     stamina player' = 0 /\ isSprinting player' = false) /\
  (stamina player' = 0 -> isSprinting player' = false).
Proof.
  cbv zeta. unfold updateStamina.
  set (q := if isSprinting player && isMoving player then _ else _).
  assert (Hw : wantsSprint q = wantsSprint player).
  { subst q. destruct (isSprinting player && isMoving player); cbn;
      destruct (Rltb _ _); reflexivity. }
  rewrite isSprinting_final, stamina_final, Hw.
  assert (Hmin : forall s : R, Rleb (MIN_SPRINT_STAMINA (N := RNum)) s = true <-> 10 <= s).
  { intros s. rewrite Rleb_true. unfold MIN_SPRINT_STAMINA; cbn. reflexivity. }
  split; [|split].
  - rewrite andb_true_iff. cbn. rewrite Hmin. reflexivity.
  - intros Hs Hm Hle. subst q. rewrite Hs, Hm. cbn.
    unfold STAMINA_DRAIN; cbn.
    destruct (Rltb _ _) eqn:E; cbn.
    + split; [reflexivity|]. apply andb_false_iff. right.
      apply Rleb_false. unfold MIN_SPRINT_STAMINA; cbn. lra.
    + apply Rltb_false in E. split; [lra|].
      apply andb_false_iff. right.
      apply Rleb_false. unfold MIN_SPRINT_STAMINA; cbn. lra.
  - intros H0. apply andb_false_iff. right. cbn. rewrite H0.
    apply Rleb_false. unfold MIN_SPRINT_STAMINA; cbn. lra.
Qed.

End StaminaProperties.

(** ** The collision resolver in exact arithmetic *)

Section CollisionProperties.
Context {H : Host (N := RNum)}.
Local Open Scope R_scope.
Implicit Types p q : PlayerBall (N := RNum).
Implicit Types w : World (N := RNum).

Lemma Reqb_refl a : Reqb a a = true.
Proof. unfold Reqb. destruct (Req_dec_T a a); congruence. Qed.

Lemma Reqb_true a b : Reqb a b = true <-> a = b.
Proof. unfold Reqb. destruct (Req_dec_T a b); split; intros; (done || lra). Qed.

Lemma Reqb_false a b : Reqb a b = false <-> a <> b.
Proof. unfold Reqb. destruct (Req_dec_T a b); split; intros; (done || lra). Qed.

Ltac break_players :=
  repeat match goal with
  | p : PlayerBall |- _ => destruct p
  | v : Vector3D |- _ => destruct v
  end.

(** Runs the embedded code, leaving the arithmetic of [R] alone. *)
Ltac run :=
  lazy -[Rplus Rminus Rmult Rdiv Ropp Rinv R_sqrt.sqrt Rltb Rleb Reqb IZR clock].

(** What [resolveCollision] leaves in the positions and velocities of the
    two players: the separation along the normal, and, unless the pair is
    already separating, each impulse applied once and then once more scaled
    by [minImpulseScale]. *)
Lemma resolveCollision_planar p1 p2 (dx dz d : R) w :
  let nx := dx / d in
  let nz := dz / d in
  let j := impulseScalar p1 p2 nx nz in
  let i1 := impulseFrom p2 j in
  let i2 := impulseFrom p1 j in
  let k1 := minImpulseScale (magnitude (i1 * nx) (i1 * nz)) in
  let k2 := minImpulseScale (magnitude (i2 * nx) (i2 * nz)) in
  exists q1 q2,
    result (resolveCollision p1 p2 dx dz d) w = Ok (q1, q2) /\
    posX q1 = posX p1 - nx * (1 - d) / 2 /\ posY q1 = posY p1 /\
    posZ q1 = posZ p1 - nz * (1 - d) / 2 /\
    posX q2 = posX p2 + nx * (1 - d) / 2 /\ posY q2 = posY p2 /\
    posZ q2 = posZ p2 + nz * (1 - d) / 2 /\
    velY q1 = velY p1 /\ velY q2 = velY p2 /\
    if Rltb 0 (velAlongNormal p1 p2 nx nz) then
      velX q1 = velX p1 /\ velZ q1 = velZ p1 /\
      velX q2 = velX p2 /\ velZ q2 = velZ p2
    else
      velX q1 = velX p1 - (1 + k1) * (i1 * nx) /\
      velZ q1 = velZ p1 - (1 + k1) * (i1 * nz) /\
      velX q2 = velX p2 + (1 + k2) * (i2 * nx) /\
      velZ q2 = velZ p2 + (1 + k2) * (i2 * nz).
Proof.
  break_players. run.
  destruct (Rltb 0 _) eqn:Hsep.
  - eexists _, _. split; [reflexivity|]. cbn. repeat split; lra.
  - destruct (Rltb (R_sqrt.sqrt (_ * _ + _ * _)) _);
    (eexists _, _; split; [reflexivity|]);
    rewrite !Reqb_refl; cbn -[Rltb Reqb];
    repeat match goal with |- context [Rltb ?a 24] => destruct (Rltb a 24) end;
    repeat match goal with |- context [Reqb ?a 0] => destruct (Reqb a 0) end;
    cbn; repeat split; try lra; try ring.
Qed.

Lemma vector_ext (u v : Vector3D (N := RNum)) :
  Vector3D.x u = Vector3D.x v -> Vector3D.y u = Vector3D.y v ->
  Vector3D.z u = Vector3D.z v -> u = v.
Proof. destruct u, v; cbn; congruence. Qed.

Lemma magnitude_opp a b : magnitude (- a) (- b) = magnitude a b.
Proof. unfold magnitude. f_equal. ring. Qed.

Lemma resolveCollision_flip p1 p2 (dx dz d : R) w w' :
  exists a1 b1 a2 b2,
    result (resolveCollision p1 p2 dx dz d) w = Ok (a1, b1) /\
    result (resolveCollision p2 p1 (- dx) (- dz) d) w' = Ok (b2, a2) /\
    samePlanar a1 a2 /\ samePlanar b1 b2.
Proof.
  destruct (resolveCollision_planar p1 p2 dx dz d w)
    as (a1 & b1 & E1 & X1 & Y1 & Z1 & X2 & Y2 & Z2 & V1 & V2 & HV).
  destruct (resolveCollision_planar p2 p1 (- dx) (- dz) d w')
    as (b2 & a2 & E2 & X1' & Y1' & Z1' & X2' & Y2' & Z2' & V1' & V2' & HV').
  exists a1, b1, a2, b2. split; [exact E1|]. split; [exact E2|].
  replace (- dx / d) with (- (dx / d)) in * by (unfold Rdiv; ring).
  replace (- dz / d) with (- (dz / d)) in * by (unfold Rdiv; ring).
  set (nx := dx / d) in *. set (nz := dz / d) in *.
  assert (Hvan : velAlongNormal p2 p1 (- nx) (- nz) = velAlongNormal p1 p2 nx nz)
    by (unfold velAlongNormal; ring).
  assert (Hj : impulseScalar p2 p1 (- nx) (- nz) = impulseScalar p1 p2 nx nz)
    by (unfold impulseScalar; rewrite Hvan, (Rplus_comm (massOf p2)); reflexivity).
  rewrite Hvan, Hj in HV'.
  set (j := impulseScalar p1 p2 nx nz) in *.
  replace (impulseFrom p1 j * - nx) with (- (impulseFrom p1 j * nx)) in HV' by ring.
  replace (impulseFrom p1 j * - nz) with (- (impulseFrom p1 j * nz)) in HV' by ring.
  replace (impulseFrom p2 j * - nx) with (- (impulseFrom p2 j * nx)) in HV' by ring.
  replace (impulseFrom p2 j * - nz) with (- (impulseFrom p2 j * nz)) in HV' by ring.
  rewrite !magnitude_opp in HV'.
  unfold samePlanar, posX, posY, posZ, velX, velY, velZ in *.
  destruct (Rltb 0 _).
  - destruct HV as (? & ? & ? & ?), HV' as (? & ? & ? & ?).
    repeat split; apply vector_ext; lra.
  - destruct HV as (? & ? & ? & ?), HV' as (? & ? & ? & ?).
    repeat split; apply vector_ext; lra.
Qed.

(** C5. Collision symmetry: resolving the pair as (A, B) and as (B, A),
    with the collision normal flipped, leaves both players with the same
    positions and velocities; so does the body of [checkCollisions], which
    computes the normal from the order it is given the pair in. *)
Theorem collision_symmetric (A B : PlayerBall (N := RNum)) w w' :
  (forall dx dz d : R,
     exists A1 B1 A2 B2,
       result (resolveCollision A B dx dz d) w = Ok (A1, B1) /\
       result (resolveCollision B A (- dx) (- dz) d) w' = Ok (B2, A2) /\
       samePlanar A1 A2 /\ samePlanar B1 B2) /\
  (exists A1 B1 A2 B2,
     result (collide A B) w = Ok (A1, B1) /\
     result (collide B A) w' = Ok (B2, A2) /\
     samePlanar A1 A2 /\ samePlanar B1 B2).
Proof.
  split; [intros; apply resolveCollision_flip|].
  unfold collide. cbn -[resolveCollision Rltb R_sqrt.sqrt].
  replace (posX A - posX B) with (- (posX B - posX A)) by ring.
  replace (posZ A - posZ B) with (- (posZ B - posZ A)) by ring.
  set (dx := posX B - posX A). set (dz := posZ B - posZ A).
  replace (- dx * - dx + - dz * - dz) with (dx * dx + dz * dz) by ring.
  destruct (Rltb _ _).
  - apply resolveCollision_flip.
  - exists A, B, A, B. repeat split; reflexivity.
Qed.

End CollisionProperties.

(** ** The minimum knockback impulse *)

Section MinimumImpulse.
Local Open Scope R_scope.
Implicit Types p q : PlayerBall (N := RNum).
Implicit Types w : World (N := RNum).

Lemma magnitude_nonneg a b : 0 <= magnitude a b.
Proof. apply sqrt_pos. Qed.

Lemma magnitude_scale c a b : 0 <= c -> magnitude (c * a) (c * b) = c * magnitude a b.
Proof.
  intros Hc. unfold magnitude.
  replace (c * a * (c * a) + c * b * (c * b)) with ((c * c) * (a * a + b * b)) by ring.
  rewrite sqrt_mult_alt by nra. rewrite sqrt_square by exact Hc. reflexivity.
Qed.

Lemma magnitude_axis a : 0 <= a -> magnitude a 0 = a.
Proof.
  intros Ha. unfold magnitude.
  replace (a * a + 0 * 0) with (a * a) by ring. apply sqrt_square, Ha.
Qed.

Lemma magnitude_zero a b : magnitude a b = 0 -> a = 0 /\ b = 0.
Proof.
  unfold magnitude. intros E. apply sqrt_eq_0 in E; [|nra]. split; nra.
Qed.

Lemma impulse_applied_scaled (k m ix iz dvx dvz : R) :
  k = minImpulseScale m -> m = magnitude ix iz ->
  dvx = (1 + k) * ix -> dvz = (1 + k) * iz ->
  impulseApplied dvx dvz ix iz m.
Proof.
  intros -> Hm -> ->. unfold impulseApplied, minImpulseScale.
  pose proof (magnitude_nonneg ix iz) as Hpos. rewrite <- Hm in Hpos.
  split.
  - intros Hge. replace (Rltb m 24) with false by (symmetry; apply Rltb_false; lra).
    split; ring.
  - intros [Hlo Hhi].
    replace (Rltb m 24) with true by (symmetry; apply Rltb_true; lra).
    replace (Reqb m 0) with false by (symmetry; apply Reqb_false; lra).
    split; [reflexivity|]. split; [reflexivity|].
    rewrite magnitude_scale.
    + rewrite <- Hm. field. lra.
    + assert (0 < 24 / m) by (apply Rdiv_lt_0_compat; lra). lra.
Qed.

(** An impulse of magnitude 0 leaves the velocity as it is. *)
Lemma zero_impulse_scaled (ix iz : R) :
  magnitude ix iz = 0 ->
  (1 + minImpulseScale (magnitude ix iz)) * ix = 0 /\
  (1 + minImpulseScale (magnitude ix iz)) * iz = 0.
Proof. intros E. apply magnitude_zero in E as [-> ->]. split; ring. Qed.

(** What the minimum-impulse step does, in general.  When the pair is not
    already separating, [resolveCollision] changes each player's velocity by
    the impulse it computed for that player and, when that impulse is under
    [minImpulse] (24), by a second impulse along the same vector, rescaled to
    magnitude 24: an under-threshold impulse of magnitude [m > 0] is applied
    with magnitude [m + 24] and its direction kept; an impulse of magnitude
    24 or more is applied as computed. *)
Lemma minimum_impulse_added {H : Host (N := RNum)} p1 p2 (dx dz d : R) w :
  let nx := dx / d in
  let nz := dz / d in
  let j := impulseScalar p1 p2 nx nz in
  let impulse1 := impulseFrom p2 j in
  let impulse2 := impulseFrom p1 j in
  let m1 := magnitude (impulse1 * nx) (impulse1 * nz) in
  let m2 := magnitude (impulse2 * nx) (impulse2 * nz) in
  velAlongNormal p1 p2 nx nz <= 0 ->
  exists q1 q2,
    result (resolveCollision p1 p2 dx dz d) w = Ok (q1, q2) /\
    impulseApplied (velX q1 - velX p1) (velZ q1 - velZ p1)
      (- (impulse1 * nx)) (- (impulse1 * nz)) m1 /\
    impulseApplied (velX q2 - velX p2) (velZ q2 - velZ p2)
      (impulse2 * nx) (impulse2 * nz) m2.
Proof.
  intros nx nz j impulse1 impulse2 m1 m2 Hvan.
  destruct (resolveCollision_planar p1 p2 dx dz d w)
    as (q1 & q2 & E & _ & _ & _ & _ & _ & _ & _ & _ & HV).
  exists q1, q2. split; [exact E|].
  fold nx nz j impulse1 impulse2 m1 m2 in HV.
  replace (Rltb 0 (velAlongNormal p1 p2 nx nz)) with false in HV
    by (symmetry; apply Rltb_false; exact Hvan).
  destruct HV as (X1 & Z1 & X2 & Z2).
  split.
  - apply (impulse_applied_scaled (minImpulseScale m1)); [reflexivity| | |].
    + unfold m1. symmetry. apply magnitude_opp.
    + rewrite X1. ring.
    + rewrite Z1. ring.
  - apply (impulse_applied_scaled (minImpulseScale m2)); [reflexivity|reflexivity| |].
    + rewrite X2. ring.
    + rewrite Z2. ring.
Qed.

(** A player running at [v] along the x axis into the resting player
    [bumped], half a unit ahead: the impulse computed for the runner is
    [23/4 * v], and both impulses are applied once and then once more,
    rescaled, when they are under [minImpulse]. *)
Lemma head_on_knockback (v : R) :
  0 <= v ->
  let i1 := 23 / 4 * v in
  let i2 := 23 / 4 * v * (1 + v / 30 * 9) in
  exists q1 q2,
    result (collide (H := realHost) (rplayer "s1" 0 0 v 0) bumped) emptyWorld
    = Ok (q1, q2) /\
    velX q1 = v - (1 + minImpulseScale i1) * i1 /\ velZ q1 = 0 /\
    velX q2 = (1 + minImpulseScale i2) * i2 /\ velZ q2 = 0.
Proof.
  intros Hv i1 i2.
  assert (Hs2 : speedOf bumped = 0).
  { unfold speedOf. cbn. replace (0 * 0 + 0 * 0) with 0 by ring. apply sqrt_0. }
  assert (Hs1 : speedOf (rplayer "s1" 0 0 v 0) = v).
  { unfold speedOf. cbn. replace (v * v + 0 * 0) with (v * v) by ring.
    apply sqrt_square, Hv. }
  assert (Hj : impulseScalar (rplayer "s1" 0 0 v 0) bumped 1 0 = 23 / 4 * v).
  { unfold impulseScalar, velAlongNormal. cbn. lra. }
  assert (Hi1 : impulseFrom bumped (23 / 4 * v) = i1).
  { unfold impulseFrom. rewrite Hs2. cbn. unfold i1. lra. }
  assert (Hi2 : impulseFrom (rplayer "s1" 0 0 v 0) (23 / 4 * v) = i2).
  { unfold impulseFrom. rewrite Hs1. cbn. unfold i2. lra. }
  assert (Hpos1 : 0 <= i1) by (unfold i1; lra).
  assert (Hpos2 : 0 <= i2) by (unfold i2; nra).
  assert (Hm : forall i, 0 <= i -> magnitude (i * 1) (i * 0) = i).
  { intros i Hi. replace (i * 1) with i by lra. replace (i * 0) with 0 by lra.
    apply magnitude_axis, Hi. }
  unfold collide. cbn -[resolveCollision Rltb R_sqrt.sqrt].
  replace ((1 / 2 - 0) * (1 / 2 - 0) + (0 - 0) * (0 - 0)) with (1 / 2 * (1 / 2)) by lra.
  rewrite sqrt_square by lra.
  replace (Rltb (1 / 2) (5 / 10 * 2)) with true by (symmetry; apply Rltb_true; lra).
  destruct (resolveCollision_planar (H := realHost) (rplayer "s1" 0 0 v 0) bumped
              (1 / 2 - 0) (0 - 0) (1 / 2) emptyWorld)
    as (q1 & q2 & E & _ & _ & _ & _ & _ & _ & _ & _ & HV).
  exists q1, q2. split; [exact E|].
  replace ((1 / 2 - 0) / (1 / 2)) with 1 in HV by lra.
  replace ((0 - 0) / (1 / 2)) with 0 in HV by lra.
  rewrite Hj, Hi1, Hi2, !Hm in HV by assumption.
  replace (Rltb 0 (velAlongNormal (rplayer "s1" 0 0 v 0) bumped 1 0)) with false in HV
    by (symmetry; apply Rltb_false; unfold velAlongNormal; cbn; lra).
  destruct HV as (X1 & Z1 & X2 & Z2).
  change (velX (rplayer "s1" 0 0 v 0)) with v in X1.
  change (velZ (rplayer "s1" 0 0 v 0)) with 0 in Z1.
  change (velX bumped) with 0 in X2. change (velZ bumped) with 0 in Z2.
  repeat split; [rewrite X1|rewrite Z1|rewrite X2|rewrite Z2]; ring.
Qed.

(** C6. The minimum-impulse step does not bring an impulse under the
    threshold up to 24: it adds a second impulse, of magnitude 24, to the
    impulse already applied.  A runner who hits a resting player at speed 4
    is computed an impulse of 23, under the threshold, and is knocked back by
    47; at the slightly higher speed 96/23 the impulse is exactly 24 and the
    knock back 24: the harder hit pushes half as far.  With no closing speed
    at all (speed 0, impulse 0) nobody is knocked back: the step's
    [minImpulse / (magnitude || 1)] scales the zero impulse. *)
Theorem minimum_impulse_stacks :
  let hit v := result (collide (H := realHost) (rplayer "s1" 0 0 v 0) bumped) emptyWorld in
  (exists q1 q2, hit 4 = Ok (q1, q2) /\
     magnitude (velX q1 - 4) (velZ q1 - 0) = 47) /\
  (exists q1 q2, hit (96 / 23) = Ok (q1, q2) /\
     magnitude (velX q1 - 96 / 23) (velZ q1 - 0) = 24) /\
  (exists q1 q2, hit 0 = Ok (q1, q2) /\
     velX q1 = 0 /\ velZ q1 = 0 /\ velX q2 = 0 /\ velZ q2 = 0).
Proof.
  cbv zeta.
  assert (Hback : forall a, 0 <= a -> magnitude (- a) 0 = a).
  { intros a Ha. transitivity (magnitude (- a) (- 0)); [f_equal; lra|].
    rewrite magnitude_opp. apply magnitude_axis, Ha. }
  split; [|split].
  - destruct (head_on_knockback 4 ltac:(lra)) as (q1 & q2 & E & X1 & Z1 & _).
    exists q1, q2. split; [exact E|]. cbv zeta in X1.
    replace (23 / 4 * 4) with 23 in X1 by lra. unfold minImpulseScale in X1.
    replace (Rltb 23 24) with true in X1 by (symmetry; apply Rltb_true; lra).
    replace (Reqb 23 0) with false in X1 by (symmetry; apply Reqb_false; lra).
    rewrite X1, Z1. replace (4 - (1 + 24 / 23) * 23 - 4) with (- 47) by lra.
    replace (0 - 0) with 0 by lra. apply Hback. lra.
  - destruct (head_on_knockback (96 / 23) ltac:(lra)) as (q1 & q2 & E & X1 & Z1 & _).
    exists q1, q2. split; [exact E|]. cbv zeta in X1.
    replace (23 / 4 * (96 / 23)) with 24 in X1 by lra. unfold minImpulseScale in X1.
    replace (Rltb 24 24) with false in X1 by (symmetry; apply Rltb_false; lra).
    rewrite X1, Z1. replace (96 / 23 - (1 + 0) * 24 - 96 / 23) with (- 24) by lra.
    replace (0 - 0) with 0 by lra. apply Hback. lra.
  - destruct (head_on_knockback 0 ltac:(lra)) as (q1 & q2 & E & X1 & Z1 & X2 & Z2).
    exists q1, q2. split; [exact E|]. cbv zeta in X1, X2.
    rewrite X1, X2. repeat split; try assumption; lra.
Qed.

End MinimumImpulse.

(** ** The program on binary64: what it does on three inputs *)

Section OnFloats.
Local Open Scope float_scope.

(** C1. Two players with the same position: [checkCollisions] finds the
    distance 0 under the threshold and [resolveCollision] divides by it.
    The planar position and velocity of both players come out NaN. *)
Theorem coincident_centers_give_NaN :
  exists q1 q2,
    result (collide (H := floatHost) twin1 twin2) emptyWorld = Ok (q1, q2) /\
    isNaN (posX q1) = true /\ isNaN (posZ q1) = true /\
    isNaN (velX q1) = true /\ isNaN (velZ q1) = true /\
    isNaN (posX q2) = true /\ isNaN (posZ q2) = true /\
    isNaN (velX q2) = true /\ isNaN (velZ q2) = true.
Proof. eexists _, _. split; [vm_compute; reflexivity|]. vm_compute. tauto. Qed.

(** C7. One tick of the physics interval on [timeUpWorld]: Bob is
    eliminated, Ann is the one survivor and the three minutes are over.
    [checkVictoryCondition] calls [endGame] twice: [bumper:game-end] goes out
    twice, first naming Ann, then Bob, and [winnerId] ends as Bob's id. *)
Theorem victory_check_ends_game_twice :
  let run := fireTimer (H := floatHost) 1%nat in
  result run timeUpWorld = Ok tt /\
  gameEndsAnnounced (outbox (exec run timeUpWorld))
  = [Some (JStr "s1"); Some (JStr "s2")] /\
  (winnerId ∘ Game.gameData) <$> activeGames (exec run timeUpWorld) !! "ROOM"%string
  = Some (Some "s2"%string) /\
  (alivePlayers ∘ Game.gameData) <$> activeGames (exec run timeUpWorld) !! "ROOM"%string
  = Some ["s1"%string].
Proof. vm_compute. repeat split; reflexivity. Qed.

(** C8. Bob, who is not the host, sends [game:end] in the middle of a
    game.  The game module's handler ends the session and names the leader
    (Bob himself) the winner; the lobby server's handler, which runs next,
    answers Bob with an error. *)
Theorem game_end_from_non_host_ends_session :
  let run := onEvent (H := floatHost) "s2" (GameEnd "ROOM") in
  Lobby.hostId <$> lobbyObjs midGameWorld !! 0%nat = Some "s1"%string /\
  result run midGameWorld = Ok tt /\
  (status ∘ Game.gameData) <$> activeGames midGameWorld !! "ROOM"%string
  = Some playing /\
  (status ∘ Game.gameData) <$> activeGames (exec run midGameWorld) !! "ROOM"%string
  = Some ended /\
  (winnerId ∘ Game.gameData) <$> activeGames (exec run midGameWorld) !! "ROOM"%string
  = Some (Some "s2"%string) /\
  sent (outbox (exec run midGameWorld))
  = [(ToRoom "ROOM", "lobby:player-list-update"%string);
     (ToRoom "ROOM", "bumper:game-end"%string);
     (ToSocket "s2", "error"%string)].
Proof. vm_compute. repeat split; reflexivity. Qed.

End OnFloats.

(** ** The input handler *)

Section InputHandler.
Context {N : Number} {H : Host}.

Lemma findPlayer_addressed (socket : string) (ps : list PlayerBall) k p :
  findPlayer (Some socket) ps = Some (k, p) <-> addressed socket ps k p.
Proof.
  unfold findPlayer, addressed. rewrite list_find_Some. split.
  - intros (Hk & Hp & Hfirst). split; [exact Hk|]. split; [congruence|].
    intros j q Hj Hlt Hq. apply (Hfirst j q Hj Hlt). congruence.
  - intros (Hk & Hp & Hfirst). split; [exact Hk|]. split; [congruence|].
    intros j q Hj Hlt Hq. apply (Hfirst j q Hj Hlt). congruence.
Qed.

Lemma findPlayer_absent (socket : string) (ps : list PlayerBall) :
  findPlayer (Some socket) ps = None <-> forall p, p ∈ ps -> socketId p ≠ socket.
Proof.
  unfold findPlayer. rewrite list_find_None, Forall_forall. split.
  - intros Hall p Hp Hid. apply (Hall p Hp). congruence.
  - intros Hall p Hp Hid. apply (Hall p Hp). congruence.
Qed.

Lemma set_lastInput_same (v : option MovementInput) (p : PlayerBall) :
  sameButLastInput p (set_lastInput v p) /\ lastInput (set_lastInput v p) = v.
Proof. unfold sameButLastInput. cbn. repeat split. Qed.

(** C10. [bumper:move].  A message for a room with no active game, from
    a socket that is no player of the game, or from an eliminated player,
    leaves the whole state as it is.  An accepted message changes one thing:
    the [lastInput] of the addressed player; every other field of that
    player, every other player, every other field of the game data and of
    the registry entry, every other room and the rest of the server are the
    same, and nothing is emitted. *)
Theorem bumper_move_frame (socket roomCode : string) (movement : MovementInput)
    (w : World) :
  let w' := exec (onBumperMove socket roomCode movement) w in
  result (onBumperMove socket roomCode movement) w = Ok tt /\
  (activeGames w !! roomCode = None -> w' = w) /\
  (forall game, activeGames w !! roomCode = Some game ->
     (forall p, p ∈ players (Game.gameData game) -> socketId p ≠ socket) ->
     w' = w) /\
  (forall game k p, activeGames w !! roomCode = Some game ->
     addressed socket (players (Game.gameData game)) k p ->
     isEliminated p = true -> w' = w) /\
  (forall game k p, activeGames w !! roomCode = Some game ->
     addressed socket (players (Game.gameData game)) k p ->
     isEliminated p = false ->
     exists game' p',
       activeGames w' !! roomCode = Some game' /\
       sameButGame roomCode w w' /\
       sameButGameData game game' /\
       sameButPlayers (Game.gameData game) (Game.gameData game') /\
       length (players (Game.gameData game')) = length (players (Game.gameData game)) /\
       (forall j, j ≠ k ->
          players (Game.gameData game') !! j = players (Game.gameData game) !! j) /\
       players (Game.gameData game') !! k = Some p' /\
       lastInput p' = Some movement /\
       sameButLastInput p p').
Proof.
  cbv zeta. unfold onBumperMove, exec, result, getGame, mbind, M_bind.
  destruct (activeGames w !! roomCode) as [game|] eqn:Hgame; cbn.
  2: { split; [reflexivity|]. split; [reflexivity|].
       repeat split; intros; discriminate. }
  destruct (findPlayer (Some socket) (players (Game.gameData game)))
    as [[k p]|] eqn:Hfind; cbn.
  2: { pose proof (proj1 (findPlayer_absent _ _) Hfind) as Habs.
       split; [reflexivity|]. split; [discriminate|].
       split; [reflexivity|]. split; [reflexivity|].
       intros game' k p Hg (Hk & Hid & _) _. injection Hg as <-.
       exfalso. apply (Habs p); [|exact Hid].
       apply list_elem_of_lookup. eauto. }
  pose proof (proj1 (findPlayer_addressed _ _ _ _) Hfind) as Haddr.
  assert (Hsame : forall game' k' p', Some game = Some game' ->
            addressed socket (players (Game.gameData game')) k' p' ->
            k' = k /\ p' = p).
  { intros game' k' p' Hg Haddr'. injection Hg as <-.
    apply (proj2 (findPlayer_addressed _ _ _ _)) in Haddr'.
    rewrite Hfind in Haddr'. injection Haddr' as <- <-. split; reflexivity. }
  assert (Hin : forall game', Some game = Some game' ->
            ~ forall q, q ∈ players (Game.gameData game') -> socketId q ≠ socket).
  { intros game' Hg Hnone. injection Hg as <-.
    destruct Haddr as (Hk & Hid & _). apply (Hnone p); [|exact Hid].
    apply list_elem_of_lookup. eauto. }
  destruct (isEliminated p) eqn:Hout; cbn.
  { split; [reflexivity|]. split; [discriminate|].
    split; [reflexivity|]. split; [reflexivity|].
    intros game' k' p' Hg Haddr' Hel.
    destruct (Hsame _ _ _ Hg Haddr') as [-> ->]. congruence. }
  split; [reflexivity|]. split; [discriminate|].
  split; [intros game' Hg Hnone; destruct (Hin _ Hg Hnone)|].
  split.
  { intros game' k' p' Hg Haddr' Hel.
    destruct (Hsame _ _ _ Hg Haddr') as [-> ->]. congruence. }
  intros game' k' p' Hg Haddr' _.
  destruct (Hsame _ _ _ Hg Haddr') as [-> ->]. injection Hg as <-.
  destruct Haddr as (Hk & Hid & _).
  eexists _, (set_lastInput (Some movement) p).
  split; [rewrite lookup_alter_eq, Hgame; reflexivity|].
  split.
  { unfold sameButGame. cbn. repeat split.
    intros r Hr. rewrite lookup_alter_ne by congruence. reflexivity. }
  split; [unfold sameButGameData; cbn; repeat split|].
  split; [unfold sameButPlayers; cbn; repeat split|].
  cbn. split; [apply length_insert|].
  split; [intros j Hj; apply list_lookup_insert_ne; congruence|].
  split; [apply list_lookup_insert_eq; eapply lookup_lt_Some; eauto|].
  split; [reflexivity|apply set_lastInput_same].
Qed.

End InputHandler.

(** ** The state sanitizer *)

Section Sanitizer.
Context {N : Number}.

Lemma getField_setField_eq k (v : JSValue) fields :
  getField k (setField k v fields) = Some v.
Proof.
  induction fields as [|[k' v'] rest IH]; cbn.
  - rewrite String.eqb_refl. reflexivity.
  - destruct (String.eqb k k') eqn:E; cbn; rewrite ?String.eqb_refl, ?E; auto.
Qed.

Lemma getField_setField_ne k k' (v : JSValue) fields :
  k ≠ k' -> getField k' (setField k v fields) = getField k' fields.
Proof.
  intros Hne. induction fields as [|[k0 v0] rest IH]; cbn.
  - destruct (String.eqb k' k) eqn:E; [|reflexivity].
    apply String.eqb_eq in E. congruence.
  - destruct (String.eqb k k0) eqn:E; cbn.
    + apply String.eqb_eq in E. subst k0.
      destruct (String.eqb k' k) eqn:E'; [|reflexivity].
      apply String.eqb_eq in E'. congruence.
    + rewrite IH. reflexivity.
Qed.

(** C9. What [sanitizeGameData] returns.  Each player of the snapshot is
    the player's literal with none of [acceleration], [lastInput],
    [lastHitBy], [lastHitTime] (nor [eliminatedAt]), and the fields the
    literal lists carry the player's values.  The game data itself is spread
    into the snapshot whole: [lastTickTime], marked server-only, is in it. *)
Theorem sanitizeGameData_fields (gameData : GameData) :
  field "players" (sanitizeGameData gameData)
  = Some (JArr (map sanitizePlayerBall (players gameData))) /\
  (forall p k, k ∈ serverOnlyPlayerFields ->
     hasField k (sanitizePlayerBall p) = false) /\
  (forall p, hasField "eliminatedAt" (sanitizePlayerBall p) = false) /\
  (forall p,
     field "socketId" (sanitizePlayerBall p) = Some (JStr (socketId p)) /\
     field "name" (sanitizePlayerBall p) = Some (JStr (name p)) /\
     field "color" (sanitizePlayerBall p) = Some (JStr (color p)) /\
     field "position" (sanitizePlayerBall p) = Some (vectorToJS (position p)) /\
     field "velocity" (sanitizePlayerBall p) = Some (vectorToJS (velocity p)) /\
     field "rotation" (sanitizePlayerBall p) = Some (vectorToJS (rotation p)) /\
     field "isEliminated" (sanitizePlayerBall p) = Some (JBool (isEliminated p)) /\
     field "stamina" (sanitizePlayerBall p) = Some (JNum (stamina p)) /\
     field "isSprinting" (sanitizePlayerBall p) = Some (JBool (isSprinting p)) /\
     field "eliminations" (sanitizePlayerBall p) = Some (JNat (eliminations p)) /\
     field "survivalTime" (sanitizePlayerBall p) = Some (JNum (survivalTime p))) /\
  field "status" (sanitizeGameData gameData) = Some (statusToJS (status gameData)) /\
  field "alivePlayers" (sanitizeGameData gameData)
  = Some (JArr (map JStr (alivePlayers gameData))) /\
  field "eliminationOrder" (sanitizeGameData gameData)
  = Some (JArr (map JStr (eliminationOrder gameData))) /\
  field "winnerId" (sanitizeGameData gameData) = JStr <$> winnerId gameData /\
  field "lastTickTime" (sanitizeGameData gameData)
  = Some (JNum (lastTickTime gameData)).
Proof.
  unfold sanitizeGameData, field.
  split; [apply getField_setField_eq|].
  split.
  { intros p k Hk. unfold serverOnlyPlayerFields in Hk.
    repeat (apply elem_of_cons in Hk as [->|Hk]; [reflexivity|]).
    apply elem_of_nil in Hk. contradiction. }
  split; [reflexivity|].
  split; [intros p; repeat split|].
  rewrite !getField_setField_ne by discriminate.
  unfold gameDataFields.
  destruct (countdownValue gameData), (winnerId gameData); cbn; repeat split.
Qed.

End Sanitizer.

(** ** Elimination bookkeeping along the steps of the server *)

Section MonadRules.
Context {N : Number} {H : Host}.

Lemma sat_ret {A} (a : A) (Q : World -> A -> World -> Prop) :
  (forall w, Q w a w) -> sat (mret a) Q.
Proof. intros HQ w a' w' E. injection E as <- <-. apply HQ. Qed.

Lemma sat_bind {A B} (m : M A) (f : A -> M B) Q1 Q2 (Q : World -> B -> World -> Prop) :
  sat m Q1 -> (forall a, sat (f a) (Q2 a)) ->
  (forall w a w1 b w2, Q1 w a w1 -> Q2 a w1 b w2 -> Q w b w2) ->
  sat (m ≫= f) Q.
Proof.
  intros Hm Hf HQ w b w2 E. unfold mbind, M_bind in E.
  destruct (m w) as [[a|e] w1] eqn:Em; [|discriminate].
  eapply HQ; [eapply Hm, Em|eapply Hf, E].
Qed.

Lemma sat_conseq {A} (m : M A) (Q Q' : World -> A -> World -> Prop) :
  sat m Q -> (forall w a w', Q w a w' -> Q' w a w') -> sat m Q'.
Proof. intros Hm HQ w a w' E. apply HQ, Hm, E. Qed.

Lemma sat_throw {A} (e : string) (Q : World -> A -> World -> Prop) : sat (throw e) Q.
Proof. intros w a w' E. discriminate. Qed.

End MonadRules.

Section Still.
Context {N : Number} {H : Host}.

Lemma quiet_refl w : quiet w w.
Proof. repeat split. Qed.

Lemma quiet_trans w1 w2 w3 : quiet w1 w2 -> quiet w2 w3 -> quiet w1 w3.
Proof.
  intros (A1 & B1 & C1) (A2 & B2 & C2). repeat split.
  - intros r. rewrite A2. apply A1.
  - intros a. rewrite B2. apply B1.
  - congruence.
Qed.

Lemma still_refl w : still w w.
Proof. split; [apply quiet_refl|reflexivity]. Qed.

Lemma still_trans w1 w2 w3 : still w1 w2 -> still w2 w3 -> still w1 w3.
Proof.
  intros [Q1 E1] [Q2 E2]. split; [eapply quiet_trans; eauto|].
  intros r. rewrite E2. apply E1.
Qed.

Lemma stillM_ret {A} (a : A) : stillM (mret a).
Proof. apply sat_ret. intros; apply still_refl. Qed.

Lemma stillM_bind {A B} (m : M A) (f : A -> M B) :
  stillM m -> (forall a, stillM (f a)) -> stillM (m ≫= f).
Proof.
  intros Hm Hf. eapply sat_bind; [exact Hm|exact Hf|].
  cbn. intros; eapply still_trans; eauto.
Qed.

Lemma stillM_throw {A} e : stillM (throw (A := A) e).
Proof. apply sat_throw. Qed.

Lemma stillM_modify (f : World -> World) :
  (forall w, still w (f w)) -> stillM (modify f).
Proof. intros Hf w a w' E. injection E as <- <-. apply Hf. Qed.

Lemma stillM_get : stillM get.
Proof. intros w a w' E. injection E as <- <-. apply still_refl. Qed.

Lemma stillM_getGame r : stillM (getGame r).
Proof. intros w a w' E. injection E as <- <-. apply still_refl. Qed.

Lemma stillM_getLobby a : stillM (getLobby a).
Proof. intros w x w' E. injection E as <- <-. apply still_refl. Qed.

Lemma stillM_Date_now : stillM Date_now.
Proof. intros w a w' E. injection E as <- <-. repeat split. Qed.

Lemma stillM_newUUID : stillM newUUID.
Proof. intros w a w' E. injection E as <- <-. repeat split. Qed.

Lemma stillM_setTimer task : stillM (setTimer task).
Proof. intros w a w' E. injection E as <- <-. repeat split. Qed.

Lemma stillM_clearTimer h : stillM (clearTimer h).
Proof. apply stillM_modify. intros w. repeat split. Qed.

Lemma stillM_clearIfSet h : stillM (clearIfSet h).
Proof. destruct h; [apply stillM_clearTimer|apply stillM_ret]. Qed.

Lemma eliminationEvents_snoc r (out : list Emit) e :
  eliminationEvents r (out ++ [e]) =
  (eliminationEvents r out +
   if decide (target e = ToRoom r /\ event e = "bumper:player-eliminated"%string)
   then 1 else 0)%nat.
Proof.
  unfold eliminationEvents. rewrite filter_app, length_app. f_equal.
  rewrite filter_cons, filter_nil. destruct (decide _); reflexivity.
Qed.

Lemma stillM_emit t ev v :
  ev ≠ "bumper:player-eliminated"%string -> stillM (emit t ev v).
Proof.
  intros Hev. apply stillM_modify. intros w. split; [repeat split|].
  intros r. cbn -[eliminationEvents]. rewrite eliminationEvents_snoc.
  destruct (decide _) as [[_ E]|]; [contradiction|lia].
Qed.

Lemma stillM_updGame r (f : Game.t -> Game.t) :
  (forall e, sessionOf (f e) = sessionOf e) -> stillM (updGame r f).
Proof.
  intros Hf. apply stillM_modify. intros w. split; [|reflexivity].
  split; [|split; reflexivity]. intros r'. cbn.
  destruct (decide (r = r')) as [<-|Hne].
  - rewrite lookup_alter_eq. destruct (activeGames w !! r); cbn; [|reflexivity].
    rewrite Hf. reflexivity.
  - rewrite lookup_alter_ne by exact Hne. reflexivity.
Qed.

Lemma stillM_updLobby a (f : Lobby -> Lobby) :
  (forall l, rosterOf (f l) = rosterOf l) -> stillM (updLobby a f).
Proof.
  intros Hf. apply stillM_modify. intros w. split; [|reflexivity].
  split; [reflexivity|]. split; [|reflexivity]. intros a'. cbn.
  destruct (decide (a = a')) as [<-|Hne].
  - rewrite lookup_alter_eq. destruct (lobbyObjs w !! a); cbn; [|reflexivity].
    rewrite Hf. reflexivity.
  - rewrite lookup_alter_ne by exact Hne. reflexivity.
Qed.

Lemma stillM_foldM {A B} (f : B -> A -> M B) (l : list A) (b : B) :
  (forall b a, stillM (f b a)) -> stillM (foldM f l b).
Proof.
  intros Hf. revert b. induction l as [|a l IH]; intros b; cbn.
  - apply stillM_ret.
  - apply stillM_bind; [apply Hf|exact IH].
Qed.

End Still.

Section Pure.
Context {N : Number} {H : Host}.

Lemma pureM_ret {A} (a : A) (P : A -> Prop) : P a -> pureM (mret a) P.
Proof. intros HP. apply sat_ret. intros w. split; [apply still_refl|exact HP]. Qed.

Lemma pureM_bind {A B} (m : M A) (f : A -> M B) (P1 : A -> Prop) (P : B -> Prop) :
  pureM m P1 -> (forall a, P1 a -> pureM (f a) P) -> pureM (m ≫= f) P.
Proof.
  intros Hm Hf w b w2 E. unfold mbind, M_bind in E.
  destruct (m w) as [[a|e] w1] eqn:Em; [|discriminate].
  destruct (Hm _ _ _ Em) as [S1 HP1].
  destruct (Hf a HP1 _ _ _ E) as [S2 HP].
  split; [eapply still_trans; eauto|exact HP].
Qed.

Lemma pureM_still {A} (m : M A) : stillM m -> pureM m (fun _ => True).
Proof. intros Hm w a w' E. split; [eapply Hm, E|exact I]. Qed.

Lemma pureM_seq {A B} (m : M A) (f : A -> M B) (P : B -> Prop) :
  stillM m -> (forall a, pureM (f a) P) -> pureM (m ≫= f) P.
Proof.
  intros Hm Hf. eapply pureM_bind; [apply pureM_still, Hm|]. intros a _. apply Hf.
Qed.

Lemma pureM_weaken {A} (m : M A) (P P' : A -> Prop) :
  pureM m P -> (forall a, P a -> P' a) -> pureM m P'.
Proof. intros Hm HP w a w' E. destruct (Hm _ _ _ E). split; auto. Qed.

Lemma pureM_stillM {A} (m : M A) (P : A -> Prop) : pureM m P -> stillM m.
Proof. intros Hm w a w' E. apply (Hm _ _ _ E). Qed.

Lemma pureM_throw {A} e (P : A -> Prop) : pureM (throw e) P.
Proof. apply sat_throw. Qed.

Lemma pureM_foldM {A B} (f : B -> A -> M B) (P : B -> Prop) (l : list A) (b : B) :
  (forall b a, P b -> pureM (f b a) P) -> P b -> pureM (foldM f l b) P.
Proof.
  intros Hf. revert b. induction l as [|a l IH]; intros b Hb; cbn.
  - apply pureM_ret, Hb.
  - eapply pureM_bind; [apply Hf, Hb|]. intros b' Hb'. apply IH, Hb'.
Qed.

End Pure.

(** Proves that a computation built from the primitives is still. *)
Ltac still_step :=
  first
    [ apply stillM_ret | apply stillM_throw | apply stillM_Date_now
    | apply stillM_newUUID | apply stillM_setTimer | apply stillM_clearTimer
    | apply stillM_clearIfSet | apply stillM_get | apply stillM_getGame
    | apply stillM_getLobby
    | apply stillM_emit; discriminate
    | apply stillM_updGame; intros; reflexivity
    | apply stillM_updLobby; intros; reflexivity
    | apply stillM_bind; [|intros ?]
    | match goal with
      | |- stillM (match ?x with _ => _ end) => destruct x
      | |- stillM (if ?c then _ else _) => destruct c
      | |- stillM (let _ := _ in _) => cbv zeta
      end ].
Ltac still_tac := repeat still_step.

Section Views.
Context {N : Number} {H : Host}.

Lemma sameView_refl g : sameView g g.
Proof. repeat split. Qed.

Lemma sameView_trans g1 g2 g3 : sameView g1 g2 -> sameView g2 g3 -> sameView g1 g3.
Proof. intros (A & B & C) (A' & B' & C'). repeat split; congruence. Qed.

Lemma sameView_inv g g' : sameView g g' -> session_inv g -> session_inv g'.
Proof.
  intros (A & B & C) (I1 & I2 & I3 & I4). unfold session_inv.
  rewrite A, B, C. auto.
Qed.

Lemma flags_insert_same g i p p' :
  players g !! i = Some p -> flagOf p' = flagOf p ->
  flags (set_players (<[i := p']> (players g)) g) = flags g.
Proof.
  intros Hi Hf. unfold flags. cbn. rewrite list_fmap_insert.
  apply list_insert_id. rewrite list_lookup_fmap, Hi. cbn. congruence.
Qed.

Lemma sameView_insert g i p p' :
  players g !! i = Some p -> flagOf p' = flagOf p ->
  sameView g (set_players (<[i := p']> (players g)) g).
Proof. intros. split; [eapply flags_insert_same; eauto|split; reflexivity]. Qed.

Lemma flags_stay_refl fl : flags_stay fl fl.
Proof. split; [reflexivity|]. intros i id b Hi. eauto. Qed.

Lemma flags_stay_trans fl1 fl2 fl3 :
  flags_stay fl1 fl2 -> flags_stay fl2 fl3 -> flags_stay fl1 fl3.
Proof.
  intros [L1 S1] [L2 S2]. split; [congruence|].
  intros i id b Hi. destruct (S1 _ _ _ Hi) as (b1 & H1 & T1).
  destruct (S2 _ _ _ H1) as (b2 & H2 & T2). eauto.
Qed.

Lemma flags_stay_players g g' :
  flags_stay (flags g) (flags g') -> eliminated_stay g g'.
Proof.
  intros [L S]. unfold flags in *. rewrite !length_fmap in L. split; [exact L|].
  intros i p Hi.
  destruct (S i (socketId p) (isEliminated p)) as (b' & Hb & Ht).
  { rewrite list_lookup_fmap, Hi. reflexivity. }
  rewrite list_lookup_fmap in Hb.
  destruct (players g' !! i) as [p'|]; [|discriminate].
  injection Hb as E1 E2. exists p'. split; [reflexivity|]. split; [exact E1|].
  intros Ht'. rewrite E2. auto.
Qed.

End Views.

Section PhysicsFrame.
Context {N : Number} {H : Host}.

(** Closes a goal [flagOf q' = flagOf p] where [q'] is built from a [q]
    known to have the flag of [p] by field updates that touch neither id nor
    [isEliminated]. *)
Ltac flag_solve :=
  repeat first
    [ progress cbv zeta
    | match goal with
      | |- context [if ?c then _ else _] => destruct c
      | |- context [match ?c with Some _ => _ | None => _ end] => destruct c
      end ];
  unfold flagOf in *;
  cbn [ applyPlayerInput updateStamina
        set_survivalTime set_accX set_accY set_accZ set_velX set_velY set_velZ
        set_posX set_posY set_posZ set_position set_velocity set_acceleration
        set_stamina set_isSprinting set_lastHitBy set_lastHitTime
        set_lastInput set_eliminations
        socketId isEliminated fst snd ];
  first [ assumption | reflexivity | congruence ].

(** Names the value bound by the [let] at the head of the goal, records
    whose flag it has when it is a player, and forgets how it was built. *)
Ltac name_let F1 F2 y :=
  first [ assert (flagOf y = F1) by (subst y; flag_solve)
        | assert (flagOf y = F2) by (subst y; flag_solve)
        | idtac ];
  clearbody y.

Ltac let_step F1 F2 :=
  lazymatch goal with
  | |- flagOf (let x := ?v in @?b x) = ?F =>
      let y := fresh "y" in
      set (y := v); change (flagOf (b y) = F); cbv beta; name_let F1 F2 y
  | |- pureM (let x := ?v in @?b x) ?P =>
      let y := fresh "y" in
      set (y := v); change (pureM (b y) P); cbv beta; name_let F1 F2 y
  end.

Lemma applyPlayerInput_flag (p : PlayerBall) (dt : num) :
  flagOf (applyPlayerInput p dt) = flagOf p.
Proof. unfold applyPlayerInput. destruct (lastInput p); reflexivity. Qed.

Lemma updateStamina_flag (p : PlayerBall) (dt : num) :
  flagOf (updateStamina p dt) = flagOf p.
Proof.
  cbv beta delta [updateStamina].
  repeat let_step (flagOf p) (flagOf p).
  flag_solve.
Qed.

Lemma stepPlayer_flag (deltaTime : num) (p : PlayerBall) :
  flagOf (stepPlayer deltaTime p) = flagOf p.
Proof.
  cbv beta delta [stepPlayer]. destruct (isEliminated p); [reflexivity|].
  let_step (flagOf p) (flagOf p).
  lazymatch goal with
  | |- flagOf (let x := ?v in @?b x) = ?F =>
      let y := fresh "y" in
      set (y := v); change (flagOf (b y) = F); cbv beta;
      assert (flagOf y = flagOf p)
        by (subst y; rewrite applyPlayerInput_flag; assumption);
      clearbody y
  end.
  lazymatch goal with
  | |- flagOf (let x := ?v in @?b x) = ?F =>
      let y := fresh "y" in
      set (y := v); change (flagOf (b y) = F); cbv beta;
      assert (flagOf y = flagOf p)
        by (subst y; rewrite updateStamina_flag; assumption);
      clearbody y
  end.
  repeat let_step (flagOf p) (flagOf p).
  flag_solve.
Qed.

Lemma resolveCollision_flags (p1 p2 : PlayerBall) (dx dz distance : num) :
  pureM (resolveCollision p1 p2 dx dz distance)
    (fun r => flagOf r.1 = flagOf p1 /\ flagOf r.2 = flagOf p2).
Proof.
  cbv beta delta [resolveCollision].
  repeat first
    [ let_step (flagOf p1) (flagOf p2)
    | match goal with
      | |- pureM (if ?c then _ else _) _ => destruct c
      | |- pureM (_ ≫= _) _ => apply pureM_seq; [apply stillM_Date_now|intros ?]
      | |- pureM (mret _) _ => apply pureM_ret; split; flag_solve
      end ].
Qed.

Lemma collide_flags (p1 p2 : PlayerBall) :
  pureM (collide p1 p2)
    (fun r => flagOf r.1 = flagOf p1 /\ flagOf r.2 = flagOf p2).
Proof.
  unfold collide. cbv zeta. destruct (nltb _ _).
  - apply resolveCollision_flags.
  - apply pureM_ret. split; reflexivity.
Qed.

End PhysicsFrame.

Section PhysicsView.
Context {N : Number} {H : Host}.

Lemma collidePair_flags (ps : list PlayerBall) (ij : nat * nat) :
  pureM (collidePair ps ij) (fun ps' => map flagOf ps' = map flagOf ps).
Proof.
  unfold collidePair.
  destruct (ps !! ij.1) as [p1|] eqn:E1; [|apply pureM_ret; reflexivity].
  destruct (ps !! ij.2) as [p2|] eqn:E2; [|apply pureM_ret; reflexivity].
  eapply pureM_bind; [apply collide_flags|].
  intros r [F1 F2]. apply pureM_ret.
  rewrite !list_fmap_insert.
  rewrite (list_insert_id (flagOf <$> ps) ij.1).
  - apply list_insert_id. rewrite list_lookup_fmap, E2. cbn. congruence.
  - rewrite list_lookup_fmap, E1. cbn. congruence.
Qed.

Lemma checkCollisions_view (g : GameData) : pureM (checkCollisions g) (sameView g).
Proof.
  unfold checkCollisions.
  eapply pureM_bind.
  - apply (pureM_foldM collidePair (fun ps' => map flagOf ps' = map flagOf (players g))).
    + intros ps ij Hps. eapply pureM_weaken; [apply collidePair_flags|].
      cbn. intros ps' E. congruence.
    + reflexivity.
  - intros ps Hps. apply pureM_ret. split; [exact Hps|split; reflexivity].
Qed.

Lemma updatePhysics_view (g : GameData) (deltaTime : num) :
  pureM (updatePhysics g deltaTime) (sameView g).
Proof.
  unfold updatePhysics. cbv zeta.
  eapply pureM_weaken; [apply checkCollisions_view|].
  intros g' (A & B & C). split; [|split; assumption].
  rewrite A. unfold flags. cbn. rewrite <- list_fmap_compose.
  apply list_fmap_ext. intros i p _. apply stepPlayer_flag.
Qed.

End PhysicsView.

Section EliminationLists.

Lemma filter_keep_all {A} (P : A -> Prop) `{forall x, Decision (P x)} (l : list A) :
  Forall P l -> filter P l = l.
Proof.
  induction 1 as [|x l Hx Hl IH]; [reflexivity|].
  rewrite filter_cons_True by exact Hx. congruence.
Qed.

Lemma filter_remove_length (x : string) (l : list string) :
  NoDup l -> x ∈ l -> S (length (filter (fun y => y ≠ x) l)) = length l.
Proof.
  induction 1 as [|y l Hy Hl IH]; intros Hin.
  - apply elem_of_nil in Hin. contradiction.
  - apply elem_of_cons in Hin as [->|Hin].
    + rewrite filter_cons_False by (intros E; apply E; reflexivity).
      rewrite filter_keep_all; [reflexivity|].
      apply Forall_forall. intros z Hz ->. contradiction.
    + rewrite filter_cons_True by (intros ->; contradiction).
      cbn. rewrite IH by exact Hin. reflexivity.
Qed.

(** Marking the player at [i] eliminated removes its id, and only its id,
    from the ids of the players still in. *)
Lemma alive_after_elimination (fl : list (string * bool)) (i : nat) (id : string) :
  NoDup fl.*1 -> fl !! i = Some (id, false) ->
  (filter (fun x => x.2 = false) (<[i := (id, true)]> fl)).*1
  = filter (fun y => y ≠ id) (filter (fun x => x.2 = false) fl).*1.
Proof.
  revert i. induction fl as [|[id0 b0] fl IH]; intros i Hnd Hi; [discriminate|].
  cbn in Hnd. apply NoDup_cons in Hnd as [Hnotin Hnd].
  destruct i as [|i]; cbn in Hi.
  - injection Hi as -> ->.
    change (<[0%nat := (id, true)]> ((id, false) :: fl)) with ((id, true) :: fl).
    rewrite filter_cons_False by (cbn; discriminate).
    rewrite (filter_cons_True _ (id, false)) by reflexivity.
    rewrite fmap_cons.
    rewrite filter_cons_False by (intros E; apply E; reflexivity).
    symmetry. apply filter_keep_all, Forall_forall.
    intros z Hz ->. apply Hnotin.
    apply list_elem_of_fmap in Hz as ([z b] & -> & Hz).
    apply list_elem_of_filter in Hz as [_ Hz].
    apply list_elem_of_fmap. exists (z, b). split; [reflexivity|exact Hz].
  - assert (Hne : id0 ≠ id).
    { intros ->. apply Hnotin. apply list_elem_of_fmap. exists (id, false).
      split; [reflexivity|]. apply list_elem_of_lookup. eauto. }
    change (<[S i := (id, true)]> ((id0, b0) :: fl))
      with ((id0, b0) :: <[i := (id, true)]> fl).
    destruct b0.
    + rewrite !filter_cons_False by (cbn; discriminate). apply IH; assumption.
    + rewrite !(filter_cons_True _ (id0, false)) by reflexivity.
      rewrite !fmap_cons.
      rewrite filter_cons_True by exact Hne. f_equal. apply IH; assumption.
Qed.

Lemma NoDup_fst_lookup (fl : list (string * bool)) i j id b b' :
  NoDup fl.*1 -> fl !! i = Some (id, b) -> fl !! j = Some (id, b') -> i = j.
Proof.
  intros Hnd Hi Hj. eapply NoDup_lookup; [exact Hnd| |].
  - rewrite list_lookup_fmap, Hi. reflexivity.
  - rewrite list_lookup_fmap, Hj. reflexivity.
Qed.

End EliminationLists.

Section EliminationSpec.
Context {N : Number} {H : Host}.

Lemma eliminated_at_inv i id g g' :
  flags g !! i = Some (id, false) -> eliminated_at i id g g' ->
  session_inv g ->
  session_inv g' /\ S (length (alivePlayers g')) = length (alivePlayers g).
Proof.
  intros Hi (Hf & Ha & Ho) (I1 & I2 & I3 & I4).
  assert (Hfst : (flags g').*1 = (flags g).*1).
  { rewrite Hf, list_fmap_insert. apply list_insert_id.
    rewrite list_lookup_fmap, Hi. reflexivity. }
  assert (Hnot : (id, true) ∉ flags g).
  { intros Hin. apply list_elem_of_lookup in Hin as [j Hj].
    assert (i = j) by (eapply NoDup_fst_lookup; eauto). subst j. congruence. }
  split.
  - split; [rewrite Hfst; exact I1|].
    split; [rewrite Ha, Hf, I2; symmetry; apply alive_after_elimination; assumption|].
    split.
    + rewrite Ho. apply NoDup_app. split; [exact I3|].
      split; [|apply NoDup_singleton].
      intros x Hx Hx'. apply list_elem_of_singleton in Hx'. subst x.
      apply Hnot, I4, Hx.
    + intros id'. rewrite Ho, Hf, elem_of_app, list_elem_of_singleton. split.
      * intros [Hin| ->].
        -- apply I4 in Hin. apply list_elem_of_lookup in Hin as [j Hj].
           apply list_elem_of_lookup. exists j.
           rewrite list_lookup_insert_ne; [exact Hj|]. intros <-. congruence.
        -- apply list_elem_of_lookup. exists i.
           apply list_lookup_insert_eq. eapply lookup_lt_Some, Hi.
      * intros Hin. apply list_elem_of_lookup in Hin as [j Hj].
        destruct (decide (i = j)) as [<-|Hne].
        -- rewrite list_lookup_insert_eq in Hj by (eapply lookup_lt_Some, Hi).
           right. congruence.
        -- rewrite list_lookup_insert_ne in Hj by exact Hne.
           left. apply I4. apply list_elem_of_lookup. eauto.
  - rewrite Ha. apply filter_remove_length.
    + rewrite I2. apply NoDup_fmap_fst.
      * intros x b1 b2 H1 H2.
        apply list_elem_of_filter in H1 as [E1 _], H2 as [E2 _]. cbn in *. congruence.
      * apply NoDup_filter. eapply NoDup_fmap_1, I1.
    + rewrite I2. apply list_elem_of_fmap. exists (id, false).
      split; [reflexivity|]. apply list_elem_of_filter. split; [reflexivity|].
      apply list_elem_of_lookup. eauto.
Qed.

Lemma eliminated_at_stay i id g g' :
  flags g !! i = Some (id, false) -> eliminated_at i id g g' ->
  flags_stay (flags g) (flags g').
Proof.
  intros Hi (Hf & _ & _). rewrite Hf. split; [apply length_insert|].
  intros j id' b Hj. destruct (decide (i = j)) as [<-|Hne].
  - rewrite list_lookup_insert_eq by (eapply lookup_lt_Some, Hi).
    assert (id' = id) by congruence. subst id'. eauto.
  - rewrite list_lookup_insert_ne by exact Hne. eauto.
Qed.

Lemma creditAttacker_view (hitBy : string) (g : GameData) :
  sameView g (creditAttacker hitBy g).
Proof.
  unfold creditAttacker.
  destruct (findPlayer _ _) as [[k attacker]|] eqn:Hfind; [|apply sameView_refl].
  destruct (negb _); [|apply sameView_refl].
  unfold findPlayer in Hfind. apply list_find_Some in Hfind as (Hk & _ & _).
  eapply sameView_insert; [exact Hk|reflexivity].
Qed.

Lemma emit_elimination (roomCode : string) (v : JSValue) :
  sat (emit (ToRoom roomCode) "bumper:player-eliminated" v)
    (fun w _ w' =>
       quiet w w' /\
       forall r, eliminationEvents r (outbox w') =
                 (eliminationEvents r (outbox w)
                  + if decide (r = roomCode) then 1 else 0)%nat).
Proof.
  intros w a w' E. injection E as <- <-. split; [repeat split|].
  intros r. cbn -[eliminationEvents]. rewrite eliminationEvents_snoc. cbn.
  destruct (decide (r = roomCode)) as [->|Hne].
  - rewrite decide_True by (split; reflexivity). reflexivity.
  - rewrite decide_False; [reflexivity|]. intros [E _]. congruence.
Qed.

(** What one call of [eliminatePlayer] on a player still in does. *)
Lemma eliminatePlayer_spec (i : nat) (g : GameData) (roomCode : string) (p : PlayerBall) :
  players g !! i = Some p -> isEliminated p = false ->
  sat (eliminatePlayer i g roomCode)
    (fun w g' w' =>
       quiet w w' /\
       (forall r, eliminationEvents r (outbox w') =
                  (eliminationEvents r (outbox w)
                   + if decide (r = roomCode) then 1 else 0)%nat) /\
       eliminated_at i (socketId p) g g').
Proof.
  intros Hi Hp. unfold eliminatePlayer. rewrite Hi. cbv zeta.
  set (g1 := fun now : num =>
         set_players (<[i := set_eliminatedAt (Some now) (set_isEliminated true p)]>
                        (players g)) g).
  assert (Hg1 : forall now, flags (g1 now) = <[i := (socketId p, true)]> (flags g)
                            /\ alivePlayers (g1 now) = alivePlayers g
                            /\ eliminationOrder (g1 now) = eliminationOrder g).
  { intros now. unfold g1, flags. cbn. rewrite list_fmap_insert. repeat split. }
  eapply sat_bind with
    (Q1 := fun w _ w' => still w w')
    (Q2 := fun now w g' w' =>
             quiet w w' /\
             (forall r, eliminationEvents r (outbox w') =
                        (eliminationEvents r (outbox w)
                         + if decide (r = roomCode) then 1 else 0)%nat) /\
             eliminated_at i (socketId p) g g').
  - apply stillM_Date_now.
  - intros now.
    eapply sat_bind with
      (Q1 := fun w gd w' => still w w' /\ sameView (g1 now) gd)
      (Q2 := fun gd w g' w' =>
               (quiet w w' /\
                forall r, eliminationEvents r (outbox w') =
                          (eliminationEvents r (outbox w)
                           + if decide (r = roomCode) then 1 else 0)%nat) /\
               g' = set_alivePlayers
                      (filter (fun id => id ≠ socketId p) (alivePlayers gd))
                      (set_eliminationOrder (eliminationOrder gd ++ [socketId p]) gd)).
    + change (pureM
        (match lastHitBy (set_eliminatedAt (Some now) (set_isEliminated true p)),
               lastHitTime (set_eliminatedAt (Some now) (set_isEliminated true p)) with
         | Some hitBy, Some hitTime =>
             if strTruthy hitBy && truthy hitTime
             then Date_now ≫= (fun now0 =>
                    if nltb (nsub now0 hitTime) (ofZ 3000)
                    then mret (creditAttacker hitBy (g1 now)) else mret (g1 now))
             else mret (g1 now)
         | _, _ => mret (g1 now)
         end) (sameView (g1 now))).
      destruct (lastHitBy _); [|apply pureM_ret, sameView_refl].
      destruct (lastHitTime _); [|apply pureM_ret, sameView_refl].
      destruct (_ && _); [|apply pureM_ret, sameView_refl].
      apply pureM_seq; [apply stillM_Date_now|]. intros now0.
      destruct (nltb _ _); apply pureM_ret;
        [apply creditAttacker_view|apply sameView_refl].
    + intros gd. eapply sat_bind with
        (Q1 := fun w _ w' =>
                 quiet w w' /\
                 forall r, eliminationEvents r (outbox w') =
                           (eliminationEvents r (outbox w)
                            + if decide (r = roomCode) then 1 else 0)%nat)
        (Q2 := fun _ w g' w' => w' = w /\ g' = _).
      * apply emit_elimination.
      * intros _. apply sat_ret. intros w. split; reflexivity.
      * intros w a w1 b w2 HQ [-> ->]. split; [exact HQ|reflexivity].
    + intros w gd w1 g' w2 [S1 (V1 & V2 & V3)] [[Q2 E2] ->].
      destruct (Hg1 now) as (F1 & F2 & F3).
      split; [eapply quiet_trans; [apply S1|exact Q2]|].
      split; [intros r; rewrite E2; destruct S1 as [_ ->]; reflexivity|].
      split; [transitivity (flags gd); [reflexivity|congruence]|].
      split.
      * transitivity (filter (fun id => id ≠ socketId p) (alivePlayers gd));
          [reflexivity|congruence].
      * transitivity (eliminationOrder gd ++ [socketId p]);
          [reflexivity|congruence].
  - intros w now w1 g' w2 S1 (Q2 & E2 & Hel).
    split; [eapply quiet_trans; [apply S1|exact Q2]|].
    split; [intros r; rewrite E2; destruct S1 as [_ ->]; reflexivity|exact Hel].
Qed.

End EliminationSpec.

Section Progress.
Context {N : Number} {H : Host}.

Lemma progress_still roomCode g w g' w' :
  still w w' -> sameView g g' -> progress roomCode g w g' w'.
Proof.
  intros [Q E] V. split; [destruct V as (-> & _); apply flags_stay_refl|].
  split; [exact Q|]. split; [intros; apply E|].
  intros Hinv. split; [eapply sameView_inv; eauto|].
  rewrite E. destruct V as (_ & -> & _). reflexivity.
Qed.

Lemma progress_trans roomCode g1 w1 g2 w2 g3 w3 :
  progress roomCode g1 w1 g2 w2 -> progress roomCode g2 w2 g3 w3 ->
  progress roomCode g1 w1 g3 w3.
Proof.
  intros (S1 & Q1 & E1 & I1) (S2 & Q2 & E2 & I2).
  split; [eapply flags_stay_trans; eauto|].
  split; [eapply quiet_trans; eauto|].
  split; [intros r Hr; rewrite E2, E1 by exact Hr; reflexivity|].
  intros Hinv. destruct (I1 Hinv) as [Hinv2 C1].
  destruct (I2 Hinv2) as [Hinv3 C2]. split; [exact Hinv3|lia].
Qed.

Lemma progM_pure roomCode g (m : M GameData) :
  pureM m (sameView g) -> progM roomCode g m.
Proof. intros Hm w g' w' E. destruct (Hm _ _ _ E). apply progress_still; assumption. Qed.

Lemma progM_ret roomCode g : progM roomCode g (mret g).
Proof. apply progM_pure, pureM_ret, sameView_refl. Qed.

Lemma progM_bind roomCode g (m : M GameData) (f : GameData -> M GameData) :
  progM roomCode g m -> (forall g1, progM roomCode g1 (f g1)) ->
  progM roomCode g (m ≫= f).
Proof.
  intros Hm Hf. eapply sat_bind; [exact Hm|exact Hf|].
  cbn. intros. eapply progress_trans; eauto.
Qed.

Lemma progM_seq {A} roomCode g (m : M A) (f : A -> M GameData) :
  stillM m -> (forall a, progM roomCode g (f a)) -> progM roomCode g (m ≫= f).
Proof.
  intros Hm Hf. eapply sat_bind; [exact Hm|exact Hf|].
  cbn. intros w a w1 g' w2 S1 P2.
  eapply progress_trans; [apply progress_still; [exact S1|apply sameView_refl]|exact P2].
Qed.

Lemma progM_foldM {A} roomCode (f : GameData -> A -> M GameData) (l : list A) g :
  (forall g a, progM roomCode g (f g a)) -> progM roomCode g (foldM f l g).
Proof.
  intros Hf. revert g. induction l as [|a l IH]; intros g; cbn.
  - apply progM_ret.
  - apply progM_bind; [apply Hf|exact IH].
Qed.

Lemma flags_lookup (g : GameData) i p :
  players g !! i = Some p -> flags g !! i = Some (socketId p, isEliminated p).
Proof. intros Hi. unfold flags. rewrite list_lookup_fmap, Hi. reflexivity. Qed.

Lemma progM_eliminatePlayer roomCode g i p :
  players g !! i = Some p -> isEliminated p = false ->
  progM roomCode g (eliminatePlayer i g roomCode).
Proof.
  intros Hi Hp w g' w' E.
  destruct (eliminatePlayer_spec i g roomCode p Hi Hp _ _ _ E) as (Q & Ev & Hel).
  pose proof (flags_lookup g i p Hi) as Hfl. rewrite Hp in Hfl.
  split; [eapply eliminated_at_stay; eauto|]. split; [exact Q|].
  split; [intros r Hr; rewrite Ev, decide_False by exact Hr; lia|].
  intros Hinv. destruct (eliminated_at_inv _ _ _ _ Hfl Hel Hinv) as [Hinv' Hlen].
  split; [exact Hinv'|]. rewrite Ev, decide_True by reflexivity. lia.
Qed.

Lemma progM_checkElimination roomCode g i :
  progM roomCode g (checkElimination roomCode g i).
Proof.
  unfold checkElimination.
  destruct (players g !! i) as [p|] eqn:Hi; [|apply progM_ret].
  destruct (isEliminated p) eqn:Hp; [apply progM_ret|]. cbv zeta.
  destruct (nltb _ _); [eapply progM_eliminatePlayer; eauto|].
  destruct (nltb _ _); [eapply progM_eliminatePlayer; eauto|apply progM_ret].
Qed.

Lemma progM_checkEliminations roomCode g :
  progM roomCode g (checkEliminations g roomCode).
Proof. apply progM_foldM. intros. apply progM_checkElimination. Qed.

(** ** [endGame] and the victory check leave the bookkeeping alone *)

Lemma stillM_creditLobbyWinner lobbyRef winnerId roomCode :
  stillM (creditLobbyWinner lobbyRef winnerId roomCode).
Proof.
  intros w a w' E. unfold creditLobbyWinner, getLobby, mbind, M_bind in E.
  destruct (lobbyObjs w !! lobbyRef) as [lobby|] eqn:Hl;
    [|injection E as <- <-; apply still_refl].
  destruct (list_find _ _) as [[k lobbyWinner]|] eqn:Hfind;
    [|injection E as <- <-; apply still_refl].
  apply list_find_Some in Hfind as (Hk & _ & _).
  cbn in E. injection E as <- <-.
  split; [|intros r; cbn -[eliminationEvents]; rewrite eliminationEvents_snoc;
           rewrite decide_False by (intros [_ ?]; discriminate); lia].
  split; [reflexivity|]. split; [|reflexivity].
  intros a. cbn. destruct (decide (lobbyRef = a)) as [<-|Hne].
  - rewrite lookup_alter_eq, Hl. cbn. f_equal. unfold rosterOf. cbn.
    rewrite list_fmap_insert. apply list_insert_id.
    rewrite list_lookup_fmap, Hk. reflexivity.
  - rewrite lookup_alter_ne by exact Hne. reflexivity.
Qed.

Lemma endGame_view (g : GameData) (winnerId : option string) (roomCode : string) :
  pureM (endGame g winnerId roomCode) (sameView g).
Proof.
  unfold endGame. cbv zeta.
  apply pureM_seq; [apply stillM_getGame|]. intros game.
  apply pureM_seq.
  { destruct game; [|apply stillM_ret].
    repeat (apply stillM_bind; [apply stillM_clearIfSet|intros ?]).
    apply stillM_creditLobbyWinner. }
  intros _. apply pureM_seq; [apply stillM_emit; discriminate|]. intros _.
  apply pureM_seq; [apply stillM_setTimer|]. intros t.
  apply pureM_seq; [destruct game; still_tac|]. intros _.
  apply pureM_ret. repeat split.
Qed.

Lemma stillM_leaderId (ps : list PlayerBall) : stillM (leaderId ps).
Proof. unfold leaderId. destruct (sortByEliminations ps); still_tac. Qed.

Lemma checkVictoryCondition_view (g : GameData) (roomCode : string) :
  pureM (checkVictoryCondition g roomCode) (sameView g).
Proof.
  unfold checkVictoryCondition.
  destruct (status g); try (apply pureM_ret, sameView_refl).
  eapply pureM_bind.
  { instantiate (1 := sameView g).
    destruct (_ =? _)%nat; [apply endGame_view|apply pureM_ret, sameView_refl]. }
  intros g1 V1. eapply pureM_bind.
  { instantiate (1 := sameView g).
    destruct (_ =? _)%nat; [|apply pureM_ret; exact V1]. cbv zeta.
    eapply pureM_weaken; [apply endGame_view|].
    intros g2 V2. eapply sameView_trans; eauto. }
  intros g2 V2.
  destruct (gameMode g2); try (apply pureM_ret; exact V2).
  apply pureM_seq; [apply stillM_Date_now|]. intros now. cbv zeta.
  destruct (nleb _ _); [|apply pureM_ret; exact V2].
  apply pureM_seq; [apply stillM_leaderId|]. intros winnerId.
  eapply pureM_weaken; [apply endGame_view|].
  intros g3 V3. eapply sameView_trans; eauto.
Qed.

Lemma stillM_stateUpdate roomCode (g : GameData) : stillM (stateUpdate roomCode g).
Proof. unfold stateUpdate. still_tac. Qed.

Lemma startGameLoop_view roomCode gameDataId (g : GameData) :
  pureM (startGameLoop roomCode gameDataId g) (sameView g).
Proof.
  unfold startGameLoop. cbv zeta.
  apply pureM_seq; [apply stillM_Date_now|]. intros now1.
  apply pureM_seq; [apply stillM_Date_now|]. intros now2.
  apply pureM_seq; [apply stillM_getGame|]. intros game.
  destruct game as [game|]; [|apply pureM_ret; repeat split].
  apply pureM_seq; [apply stillM_stateUpdate|]. intros _.
  apply pureM_seq; [apply stillM_setTimer|]. intros t1.
  apply pureM_seq; [still_tac|]. intros _.
  apply pureM_seq; [apply stillM_setTimer|]. intros t2.
  apply pureM_seq; [still_tac|]. intros _.
  apply pureM_ret. repeat split.
Qed.

End Progress.

Section WorldSteps.
Context {N : Number} {H : Host}.

Lemma same_session_continued (w w' : World) r e' :
  sessionOf <$> activeGames w' !! r = sessionOf <$> activeGames w !! r ->
  eliminationEvents r (outbox w') = eliminationEvents r (outbox w) ->
  activeGames w' !! r = Some e' -> continued w w' r e'.
Proof.
  intros Hs He Hl. rewrite Hl in Hs. cbn in Hs.
  destruct (activeGames w !! r) as [e|] eqn:Hle; [|discriminate].
  injection Hs as Hg Hid. exists e. split; [exact Hle|]. split; [exact Hid|].
  rewrite Hg, He. split; [apply flags_stay_refl|]. intros Hinv. split; [exact Hinv|lia].
Qed.

Lemma rosters_NoDup (w w' : World) :
  (forall a, rosterOf <$> lobbyObjs w' !! a = rosterOf <$> lobbyObjs w !! a) ->
  world_inv w -> forall a l', lobbyObjs w' !! a = Some l' -> NoDup (rosterOf l').
Proof.
  intros Hr [_ Hl] a l' Ha. specialize (Hr a). rewrite Ha in Hr. cbn in Hr.
  destruct (lobbyObjs w !! a) as [l|] eqn:Hla; [|discriminate].
  injection Hr as ->. eapply Hl, Hla.
Qed.

Lemma acts_wstep X w w' : acts X w w' -> wstep w w'.
Proof.
  intros (Hr & Hn & Ho & Hx). split; [lia|]. split; [apply rosters_NoDup, Hr|].
  intros r e' Hl. left. destruct (decide (r = X)) as [->|Hne]; [apply Hx, Hl|].
  destruct (Ho r Hne). apply same_session_continued; assumption.
Qed.

Lemma starts_wstep X w w' : starts X w w' -> wstep w w'.
Proof.
  intros (Hr & Hn & Ho & Hx). split; [lia|]. split; [apply rosters_NoDup, Hr|].
  intros r e' Hl. destruct (decide (r = X)) as [->|Hne]; [right; apply Hx, Hl|].
  left. destruct (Ho r Hne). apply same_session_continued; assumption.
Qed.

Lemma still_acts X w w' : still w w' -> acts X w w'.
Proof.
  intros [(Hs & Hr & Hn) He]. split; [exact Hr|]. split; [exact Hn|].
  split; [intros r _; split; [apply Hs|apply He]|].
  intros e' Hl. apply same_session_continued; [apply Hs|apply He|exact Hl].
Qed.

Lemma continued_trans (w1 w2 w3 : World) r e2 e3 :
  activeGames w2 !! r = Some e2 -> continued w1 w2 r e2 -> continued w2 w3 r e3 ->
  continued w1 w3 r e3.
Proof.
  intros Hl2 (e1 & Hl1 & Hid1 & S1 & I1) (e2' & Hl2' & Hid2 & S2 & I2).
  assert (e2' = e2) by congruence. subst e2'.
  exists e1. split; [exact Hl1|]. split; [congruence|].
  split; [eapply flags_stay_trans; eauto|].
  intros Hinv. destruct (I1 Hinv) as [Hinv2 C1]. destruct (I2 Hinv2) as [Hinv3 C2].
  split; [exact Hinv3|lia].
Qed.

Lemma acts_trans X w1 w2 w3 : acts X w1 w2 -> acts X w2 w3 -> acts X w1 w3.
Proof.
  intros (Hr1 & Hn1 & Ho1 & Hx1) (Hr2 & Hn2 & Ho2 & Hx2).
  split; [intros a; rewrite Hr2; apply Hr1|]. split; [congruence|].
  split.
  - intros r Hne. destruct (Ho1 r Hne) as [A1 B1], (Ho2 r Hne) as [A2 B2].
    split; congruence.
  - intros e3 Hl3. destruct (Hx2 e3 Hl3) as (e2 & Hl2 & Hrest).
    eapply continued_trans; [exact Hl2|apply Hx1, Hl2|].
    exists e2. split; [exact Hl2|exact Hrest].
Qed.

Lemma bind_ok {A B} (m : M A) (f : A -> M B) (w : World) b w' :
  (m ≫= f) w = (Ok b, w') ->
  exists a w1, m w = (Ok a, w1) /\ f a w1 = (Ok b, w').
Proof.
  unfold mbind, M_bind. destruct (m w) as [[a|e] w1]; [eauto|discriminate].
Qed.

(** Writing the game data [g'] the session of [X] has progressed to back
    into the registry. *)
Lemma commit X (w w1 w' : World) e g' :
  activeGames w !! X = Some e ->
  progress X (Game.gameData e) w g' w1 ->
  updGame X (Game.set_gameData g') w1 = (Ok tt, w') ->
  acts X w w'.
Proof.
  intros Hl (S & (Qs & Qr & Qn) & Eo & I) E. injection E as <-.
  split; [exact Qr|]. split; [exact Qn|]. split.
  - intros r Hne. split; [|apply Eo, Hne]. cbn.
    rewrite lookup_alter_ne by congruence. apply Qs.
  - intros e'. cbn. rewrite lookup_alter_eq.
    specialize (Qs X). rewrite Hl in Qs. cbn in Qs.
    destruct (activeGames w1 !! X) as [e1|]; [|discriminate].
    injection Qs as Hg Hid. cbn. intros [= <-].
    exists e. split; [exact Hl|]. split; [exact Hid|]. split; [exact S|exact I].
Qed.

Lemma currentGameOf_ok X gameDataId (w : World) o w' :
  currentGameOf X gameDataId w = (Ok o, w') ->
  w' = w /\ forall cur, o = Some cur -> activeGames w !! X = Some cur.
Proof.
  unfold currentGameOf, getGame, mbind, M_bind.
  destruct (activeGames w !! X) as [g|].
  - destruct (_ =? _)%nat; intros [= <- <-]; split; congruence.
  - intros [= <- <-]. split; congruence.
Qed.

Lemma gameLoopTick_acts h X gameDataId (w w' : World) :
  gameLoopTick h X gameDataId w = (Ok tt, w') -> acts X w w'.
Proof.
  unfold gameLoopTick. intros E.
  apply bind_ok in E as (o & w0 & E0 & E).
  apply currentGameOf_ok in E0 as [-> Hcur].
  destruct o as [cur|]; [|apply still_acts; eapply stillM_clearTimer, E].
  specialize (Hcur cur eq_refl). cbv zeta in E.
  apply bind_ok in E as (now & w1 & E1 & E).
  apply bind_ok in E as (g1 & w2 & E2 & E).
  apply bind_ok in E as (g2 & w3 & E3 & E).
  apply bind_ok in E as (g3 & w4 & E4 & E).
  eapply commit; [exact Hcur| |exact E].
  apply stillM_Date_now in E1.
  apply updatePhysics_view in E2 as [S2 V2].
  apply progM_checkEliminations in E3.
  apply checkVictoryCondition_view in E4 as [S4 V4].
  eapply progress_trans; [|eapply progress_trans; [exact E3|]].
  - apply progress_still; [eapply still_trans; eauto|].
    eapply sameView_trans; [|exact V2]. repeat split.
  - apply progress_still; assumption.
Qed.

End WorldSteps.

Ltac bind_inv E :=
  let a := fresh "a" in let w := fresh "w" in let E1 := fresh "E" in
  apply bind_ok in E as (a & w & E1 & E).

Section Callbacks.
Context {N : Number} {H : Host}.

Lemma stillM_currentGameOf X gameDataId : stillM (currentGameOf X gameDataId).
Proof. unfold currentGameOf. still_tac. Qed.

Lemma stillM_set_timers (f : World -> gmap nat TimerTask) :
  stillM (modify (fun w => set_timers (f w) w)).
Proof. apply stillM_modify. intros w. repeat split. Qed.

Lemma countdownTick_acts h X gameDataId count (w w' : World) :
  countdownTick h X gameDataId count w = (Ok tt, w') -> acts X w w'.
Proof.
  unfold countdownTick. intros E. bind_inv E.
  apply currentGameOf_ok in E0 as [-> Hcur].
  destruct a as [cur|]; [|apply still_acts; eapply stillM_clearTimer, E].
  specialize (Hcur cur eq_refl). cbv zeta in E.
  set (gcd := set_countdownValue (Some count) (Game.gameData cur)) in *.
  bind_inv E. bind_inv E. bind_inv E.
  assert (A1 : acts X w w0).
  { destruct a. eapply commit; [exact Hcur| |exact E0].
    apply progress_still; [apply still_refl|repeat split]. }
  apply stillM_stateUpdate in E1. apply stillM_set_timers in E2.
  destruct (_ <? _)%Z.
  2: { injection E as <-. eapply acts_trans; [exact A1|].
       apply still_acts. eapply still_trans; eauto. }
  bind_inv E. bind_inv E. bind_inv E.
  apply stillM_clearTimer in E3.
  assert (S4 : still w3 w4).
  { revert E4. apply stillM_updGame. intros; reflexivity. }
  apply startGameLoop_view in E5 as [S5 V5].
  eapply acts_trans; [exact A1|].
  assert (Hl0 : activeGames w0 !! X = Some (Game.set_gameData gcd cur)).
  { injection E0 as _ <-. cbn. rewrite lookup_alter_eq, Hcur. reflexivity. }
  eapply commit; [exact Hl0| |exact E].
  apply progress_still; [|exact V5].
  repeat (eapply still_trans; [eassumption|]). apply still_refl.
Qed.

Lemma stillM_syncLoopTick h X gameDataId : stillM (syncLoopTick h X gameDataId).
Proof.
  unfold syncLoopTick. apply stillM_bind; [apply stillM_currentGameOf|].
  intros [game|]; [|apply stillM_clearTimer].
  apply stillM_bind; [apply stillM_updLobby; intros; reflexivity|].
  intros _. apply stillM_stateUpdate.
Qed.

Lemma cleanup_acts h X (w w' : World) :
  (clearTimer h ≫= fun _ => cleanupTick X) w = (Ok tt, w') -> acts X w w'.
Proof.
  intros E. injection E as <-. split; [reflexivity|]. split; [reflexivity|].
  split.
  - intros r Hne. split; [|reflexivity]. cbn.
    rewrite lookup_delete_ne by congruence. reflexivity.
  - intros e'. cbn. rewrite lookup_delete_eq. discriminate.
Qed.

Lemma fireTimer_acts h (w w' : World) :
  fireTimer h w = (Ok tt, w') -> exists X, acts X w w'.
Proof.
  unfold fireTimer. intros E. bind_inv E. injection E0 as <- <-.
  destruct (timers w !! h) as [[X id count|X id|X id|X]|].
  - exists X. eapply countdownTick_acts, E.
  - exists X. eapply gameLoopTick_acts, E.
  - exists X. apply still_acts. eapply stillM_syncLoopTick, E.
  - exists X. eapply cleanup_acts, E.
  - exists ""%string. injection E as <-. apply still_acts, still_refl.
Qed.

Lemma onBumperMove_acts socket X movement (w w' : World) :
  onBumperMove socket X movement w = (Ok tt, w') -> acts X w w'.
Proof.
  unfold onBumperMove. intros E. bind_inv E. injection E0 as <- <-.
  destruct (activeGames w !! X) as [game|] eqn:Hl;
    [|injection E as <-; apply still_acts, still_refl].
  cbv zeta in E.
  destruct (findPlayer _ _) as [[k p]|] eqn:Hfind;
    [|injection E as <-; apply still_acts, still_refl].
  destruct (isEliminated p); [injection E as <-; apply still_acts, still_refl|].
  apply list_find_Some in Hfind as (Hk & _ & _).
  eapply commit; [exact Hl| |exact E].
  apply progress_still; [apply still_refl|].
  eapply sameView_insert; [exact Hk|reflexivity].
Qed.

Lemma onBumperGameEnd_acts socket X (w w' : World) :
  onBumperGameEnd socket X w = (Ok tt, w') -> acts X w w'.
Proof.
  unfold onBumperGameEnd. intros E. bind_inv E. injection E0 as <- <-.
  destruct (activeGames w !! X) as [game|] eqn:Hl;
    [|injection E as <-; apply still_acts, still_refl].
  bind_inv E. bind_inv E.
  apply stillM_leaderId in E0. apply endGame_view in E1 as [S1 V1].
  eapply commit; [exact Hl| |exact E].
  apply progress_still; [eapply still_trans; eauto|exact V1].
Qed.

Lemma stillM_errorTo socket message : stillM (errorTo socket message).
Proof. unfold errorTo. still_tac. Qed.

Lemma stillM_sendSystemMessage lobbyRef (lobby : Lobby) message :
  stillM (sendSystemMessage lobbyRef lobby message).
Proof. unfold sendSystemMessage. still_tac. Qed.

Lemma stillM_onServerGameEnd socket X : stillM (onServerGameEnd socket X).
Proof.
  intros w a w' E. unfold onServerGameEnd in E. bind_inv E.
  injection E0 as <- <-.
  destruct (lobbies w !! X) as [lobbyRef|]; [|injection E as <- <-; apply still_refl].
  bind_inv E. injection E0 as <- <-.
  destruct (lobbyObjs w !! lobbyRef) as [lobby|] eqn:Hl;
    [|injection E as <- <-; apply still_refl].
  destruct (negb _); [eapply stillM_errorTo, E|].
  cbv zeta in E. bind_inv E. bind_inv E.
  assert (S1 : still w0 w1) by (revert E1; apply stillM_emit; discriminate).
  apply stillM_sendSystemMessage in E.
  eapply still_trans; [|eapply still_trans; [exact S1|exact E]].
  injection E0 as _ <-. split; [|reflexivity].
  split; [reflexivity|]. split; [|reflexivity].
  intros a'. cbn. destruct (decide (lobbyRef = a')) as [<-|Hne].
  - rewrite lookup_alter_eq, Hl. reflexivity.
  - rewrite lookup_alter_ne by exact Hne. reflexivity.
Qed.

End Callbacks.

Section NewSessions.
Context {N : Number} {H : Host}.

Lemma still_frame X w w' : still w w' -> frame X w w'.
Proof.
  intros [(Hs & Hr & _) He]. split; [exact Hr|]. intros r _. split; [apply Hs|apply He].
Qed.

Lemma frame_trans X w1 w2 w3 : frame X w1 w2 -> frame X w2 w3 -> frame X w1 w3.
Proof.
  intros [R1 O1] [R2 O2]. split; [intros a; rewrite R2; apply R1|].
  intros r Hne. destruct (O1 r Hne), (O2 r Hne). split; congruence.
Qed.

Lemma still_next w w' : still w w' -> nextGameData w' = nextGameData w.
Proof. intros [(_ & _ & Hn) _]. exact Hn. Qed.

Lemma starts_intro X w w' :
  frame X w w' -> nextGameData w' = S (nextGameData w) ->
  (forall e', activeGames w' !! X = Some e' -> fresh w w' e') ->
  starts X w w'.
Proof. intros [R O] Hn Hx. split; [exact R|]. split; [exact Hn|]. split; [exact O|exact Hx]. Qed.

Lemma spawn_flags (ps : list Player.t) (n : nat) :
  flagOf <$> imap (spawnPlayer n) ps = (fun p => (Player.socketId p, false)) <$> ps.
Proof.
  rewrite fmap_imap, <- imap_const. apply imap_ext. intros; reflexivity.
Qed.

Lemma fresh_session_inv (g : GameData) (ps : list Player.t) :
  flags g = (fun p => (Player.socketId p, false)) <$> ps ->
  alivePlayers g = (flags g).*1 -> eliminationOrder g = [] ->
  NoDup (Player.socketId <$> ps) -> session_inv g.
Proof.
  intros Hf Ha Ho Hnd.
  assert (Hall : Forall (fun x : string * bool => x.2 = false) (flags g)).
  { rewrite Hf. apply Forall_fmap, Forall_forall. intros; reflexivity. }
  split; [rewrite Hf, <- list_fmap_compose; exact Hnd|].
  split; [rewrite filter_keep_all by exact Hall; exact Ha|].
  rewrite Ho. split; [apply NoDup_nil_2|].
  intros id. split; [intros Hin; apply elem_of_nil in Hin; contradiction|].
  intros Hin. rewrite Forall_forall in Hall. specialize (Hall _ Hin). discriminate.
Qed.

Lemma newGameData_spec (lobby : Lobby) :
  pureM (newGameData lobby) (fun g => NoDup (rosterOf lobby) -> session_inv g).
Proof.
  unfold newGameData. cbv zeta.
  apply pureM_seq; [apply stillM_Date_now|]. intros t1.
  apply pureM_seq; [apply stillM_Date_now|]. intros t2.
  apply pureM_ret. intros Hnd.
  apply (fresh_session_inv _ (Lobby.players lobby)); [apply spawn_flags| |reflexivity|exact Hnd].
  cbn. unfold flags. cbn. rewrite <- list_fmap_compose. reflexivity.
Qed.

Lemma stillM_startCountdown X gameDataId : stillM (startCountdown X gameDataId).
Proof. unfold startCountdown. still_tac. Qed.

Lemma lobby_NoDup (w : World) a (l : Lobby) :
  world_inv w -> lobbyObjs w !! a = Some l -> NoDup (rosterOf l).
Proof. intros [_ Hl]. apply Hl. Qed.

Lemma initialize_starts lobbyRef (w w' : World) :
  initializeBumperBallsGame lobbyRef w = (Ok tt, w') -> exists X, starts X w w'.
Proof.
  unfold initializeBumperBallsGame. intros E. bind_inv E. injection E0 as <- <-.
  destruct (lobbyObjs w !! lobbyRef) as [lobby|] eqn:Hl; [|discriminate].
  exists (Lobby.code lobby).
  bind_inv E. bind_inv E. bind_inv E. bind_inv E. bind_inv E.
  apply newGameData_spec in E0 as [S0 Hinv].
  injection E1 as <- <-.
  assert (S2 : still (set_nextGameData (S (nextGameData w0)) w0) w2).
  { revert E2. apply stillM_updLobby. intros; reflexivity. }
  injection E3 as _ <-.
  assert (S4 : still (set_activeGames
                        (<[Lobby.code lobby :=
                             Game.mk lobbyRef a (nextGameData w0) None None None None]>
                           (activeGames w2)) w2) w4).
  { revert E4. apply stillM_emit. discriminate. }
  apply stillM_startCountdown in E.
  pose proof (still_trans _ _ _ S4 E) as S5.
  apply starts_intro.
  - apply (frame_trans _ _ w0); [apply still_frame, S0|].
    apply (frame_trans _ _ (set_nextGameData (S (nextGameData w0)) w0)).
    { split; [reflexivity|]. intros r _. split; reflexivity. }
    apply (frame_trans _ _ w2); [apply still_frame, S2|].
    eapply frame_trans; [|apply still_frame, S5].
    split; [reflexivity|]. intros r Hne. cbn.
    rewrite lookup_insert_ne by congruence. split; reflexivity.
  - rewrite (still_next _ _ S5). cbn. rewrite (still_next _ _ S2). cbn.
    rewrite (still_next _ _ S0). reflexivity.
  - intros e' He'. destruct S5 as [(Hs & _ & Hn) _].
    specialize (Hs (Lobby.code lobby)). rewrite He' in Hs. cbn in Hs.
    rewrite lookup_insert_eq in Hs. cbn in Hs. injection Hs as Hg Hid.
    split; [rewrite Hid; apply (still_next _ _ S0)|].
    split.
    + rewrite Hn. cbn. rewrite (still_next _ _ S2). cbn.
      rewrite (still_next _ _ S0). reflexivity.
    + intros Hw. rewrite Hg. apply Hinv. eapply lobby_NoDup; eauto.
Qed.

Lemma onBumperRestart_steps socket X (w w' : World) :
  onBumperRestart socket X w = (Ok tt, w') -> still w w' \/ starts X w w'.
Proof.
  unfold onBumperRestart. intros E. bind_inv E. injection E0 as <- <-.
  destruct (activeGames w !! X) as [game|] eqn:Hg;
    [|left; eapply stillM_errorTo, E].
  bind_inv E. injection E0 as <- <-.
  destruct (lobbyObjs w !! Game.lobby game) as [lobby|] eqn:Hl;
    [|left; eapply stillM_errorTo, E].
  destruct (negb _); [left; eapply stillM_errorTo, E|]. right.
  do 10 bind_inv E.
  apply stillM_clearIfSet in E0, E1, E2, E3.
  assert (S4 : still w3 w4) by (revert E4; apply stillM_updGame; intros; reflexivity).
  apply newGameData_spec in E5 as [S5 Hinv].
  injection E6 as <- <-.
  injection E7 as _ <-.
  assert (S8 : still (set_activeGames
                        (alter (fun e => Game.set_gameDataId (nextGameData w5)
                                           (Game.set_gameData a4 e)) X
                           (activeGames (set_nextGameData (S (nextGameData w5)) w5)))
                        (set_nextGameData (S (nextGameData w5)) w5)) w8).
  { revert E8. apply stillM_updLobby. intros; reflexivity. }
  assert (S9 : still w8 w9) by (revert E9; apply stillM_emit; discriminate).
  apply stillM_startCountdown in E.
  pose proof (still_trans _ _ _ S8 (still_trans _ _ _ S9 E)) as Sb.
  assert (Sa : still w w5).
  { repeat (eapply still_trans; [eassumption|]). apply still_refl. }
  apply starts_intro.
  - eapply frame_trans; [apply (still_frame _ _ _ Sa)|].
    eapply frame_trans; [|apply (still_frame _ _ _ Sb)].
    split; [reflexivity|]. intros r Hne. cbn.
    rewrite lookup_alter_ne by congruence. split; reflexivity.
  - rewrite (still_next _ _ Sb). cbn. rewrite (still_next _ _ Sa). reflexivity.
  - intros e' He'. destruct Sb as [(Hs & _ & Hn) _].
    specialize (Hs X). rewrite He' in Hs. cbn in Hs.
    rewrite lookup_alter_eq in Hs.
    destruct (activeGames w5 !! X) as [e5|]; [|discriminate].
    cbn in Hs. injection Hs as Hgd Hid.
    split; [rewrite Hid; apply (still_next _ _ Sa)|].
    split; [rewrite Hn; cbn; rewrite (still_next _ _ Sa); reflexivity|].
    intros Hw. rewrite Hgd. apply Hinv. eapply lobby_NoDup; eauto.
Qed.

End NewSessions.

Section Reachable.
Context {N : Number} {H : Host}.

Lemma step_wstep (w w' : World) : step w w' -> wstep w w'.
Proof.
  intros [h w1 w2 E|socket ev w1 w2 E|lobbyRef w1 w2 E|w1 w2 Ha Hn He Hl].
  - apply fireTimer_acts in E as [X HX]. eapply acts_wstep, HX.
  - destruct ev as [X movement|X|X]; cbn in E.
    + eapply acts_wstep, onBumperMove_acts, E.
    + bind_inv E. destruct a. apply onBumperGameEnd_acts in E0.
      apply stillM_onServerGameEnd in E.
      eapply acts_wstep, acts_trans; [exact E0|apply still_acts, E].
    + apply onBumperRestart_steps in E as [E|E].
      * eapply (acts_wstep X), still_acts, E.
      * eapply starts_wstep, E.
  - apply initialize_starts in E as [X HX]. eapply starts_wstep, HX.
  - split; [lia|]. split; [intros _; exact Hl|].
    intros r e' Hr. left. apply same_session_continued; [rewrite Ha; reflexivity|apply He|exact Hr].
Qed.

Lemma wstep_inv (w w' : World) : world_inv w -> wstep w w' -> world_inv w'.
Proof.
  intros Hw (Hn & Hl & Hs). split; [|apply Hl, Hw].
  intros r e' Hr. destruct (Hs r e' Hr) as [(e & He & Hid & _ & Hi)|(Hid & Hn' & Hi)].
  - destruct Hw as [Hw _]. destruct (Hw r e He) as [Hinv Hlt].
    split; [apply Hi, Hinv|lia].
  - split; [apply Hi, Hw|lia].
Qed.

Lemma emptyWorld_inv : world_inv (emptyWorld (N := N)).
Proof.
  split.
  - intros r e Hr. cbn in Hr. rewrite lookup_empty in Hr. discriminate.
  - intros a l Ha. cbn in Ha. rewrite lookup_empty in Ha. discriminate.
Qed.

Lemma reachable_inv (w : World) : reachable w -> world_inv w.
Proof.
  induction 1 as [|w w' _ IH Hs]; [apply emptyWorld_inv|].
  eapply wstep_inv; [exact IH|apply step_wstep, Hs].
Qed.

Lemma flags_eliminated_stay (g g' : GameData) :
  flags_stay (flags g) (flags g') -> eliminated_stay g g'.
Proof.
  intros [Hlen Hst]. unfold flags in *. split.
  - rewrite !length_map in Hlen. exact Hlen.
  - intros i p Hp.
    destruct (Hst i (socketId p) (isEliminated p)) as (b' & Hb' & Himp).
    { change (map flagOf (players g)) with (flagOf <$> players g).
      rewrite list_lookup_fmap, Hp. reflexivity. }
    change (map flagOf (players g')) with (flagOf <$> players g') in Hb'.
    rewrite list_lookup_fmap in Hb'.
    destruct (players g' !! i) as [p'|]; [|discriminate].
    cbn in Hb'. injection Hb' as Hid Hb. exists p'.
    split; [reflexivity|]. split; [exact Hid|]. rewrite Hb. exact Himp.
Qed.

Lemma alive_of_flags (l : list PlayerBall) :
  (filter (fun x : string * bool => x.2 = false) (flagOf <$> l)).*1
  = socketId <$> filter (fun p => isEliminated p = false) l.
Proof.
  induction l as [|p l IH]; [reflexivity|].
  rewrite fmap_cons.
  destruct (isEliminated p) eqn:Hp.
  - rewrite filter_cons_False by (cbn; rewrite Hp; discriminate).
    rewrite (filter_cons_False _ p) by (rewrite Hp; discriminate). exact IH.
  - rewrite filter_cons_True by (cbn; exact Hp).
    rewrite (filter_cons_True _ p) by exact Hp.
    rewrite !fmap_cons, IH. reflexivity.
Qed.

Lemma alive_stay (fl fl' : list (string * bool)) :
  flags_stay fl fl' ->
  length (filter (fun x : string * bool => x.2 = false) fl')
  <= length (filter (fun x : string * bool => x.2 = false) fl).
Proof.
  revert fl'. induction fl as [|[id b] fl IH]; intros fl' [Hlen Hst].
  - destruct fl'; [reflexivity|discriminate].
  - destruct fl' as [|[id' b'] fl']; [discriminate|].
    assert (Htl : flags_stay fl fl').
    { split; [cbn in Hlen; lia|]. intros i j c Hi. apply (Hst (S i) j c Hi). }
    specialize (IH _ Htl).
    destruct (Hst 0%nat id b eq_refl) as (b'' & Hb & Himp).
    cbn in Hb. injection Hb as -> ->.
    destruct b''.
    + rewrite filter_cons_False by (cbn; discriminate).
      destruct b.
      * rewrite filter_cons_False by (cbn; discriminate). exact IH.
      * rewrite filter_cons_True by reflexivity. cbn. lia.
    + destruct b; [specialize (Himp eq_refl); discriminate|].
      rewrite !filter_cons_True by reflexivity. cbn. lia.
Qed.

(** C3. In every reachable state of the server a session's [eliminationOrder]
    has no duplicates and its [alivePlayers] are exactly the players with
    [isEliminated = false]; and over every step that keeps the session (the
    same game data object under the room's registry entry) every player keeps
    a set [isEliminated], [alivePlayers] does not grow, and it shrinks by
    exactly the number of [bumper:player-eliminated] notices the step sent to
    the room. *)
Theorem elimination_invariants (w : World) (r : string) (e : Game.t) :
  reachable w -> activeGames w !! r = Some e ->
  (NoDup (eliminationOrder (Game.gameData e)) /\
   alivePlayers (Game.gameData e)
   = socketId <$> filter (fun p => isEliminated p = false) (players (Game.gameData e))) /\
  forall w' e', step w w' -> activeGames w' !! r = Some e' ->
    Game.gameDataId e' = Game.gameDataId e ->
    eliminated_stay (Game.gameData e) (Game.gameData e') /\
    length (alivePlayers (Game.gameData e')) <= length (alivePlayers (Game.gameData e)) /\
    (eliminationEvents r (outbox w') + length (alivePlayers (Game.gameData e'))
     = eliminationEvents r (outbox w) + length (alivePlayers (Game.gameData e)))%nat.
Proof.
  intros Hreach He. pose proof (reachable_inv _ Hreach) as Hw.
  destruct (proj1 Hw r e He) as [Hinv Hlt]. split.
  - destruct Hinv as (_ & Ha & Ho & _). split; [exact Ho|].
    rewrite Ha. apply alive_of_flags.
  - intros w' e' Hs He' Hid.
    destruct (step_wstep _ _ Hs) as (_ & _ & Hc).
    destruct (Hc r e' He') as [(e0 & He0 & _ & Hst & Hi)|(Hfresh & _)]; [|lia].
    assert (e0 = e) by congruence. subst e0.
    destruct (Hi Hinv) as [Hinv' Hcount].
    split; [apply flags_eliminated_stay, Hst|]. split; [|exact Hcount].
    destruct Hinv as (_ & Ha & _), Hinv' as (_ & Ha' & _).
    rewrite Ha, Ha', !length_fmap. apply alive_stay, Hst.
Qed.

End Reachable.

Section SessionRunProperties.
#[local] Existing Instance floatHost.

Lemma reachable_timer h (w : World (N := FNum)) :
  reachable w -> result (fireTimer h) w = Ok tt -> reachable (exec (fireTimer h) w).
Proof.
  intros Hw Hr. apply (reachable_step w); [exact Hw|]. apply (step_timer h).
  unfold result, exec in *. destruct (fireTimer h w) as [a w']. cbn in *. congruence.
Qed.

Lemma reachable_stall k (w : World (N := FNum)) :
  reachable w -> reachable (set_clockReads k w).
Proof.
  intros Hw. apply (reachable_step w); [exact Hw|].
  apply step_directory; try reflexivity. apply (proj2 (reachable_inv _ Hw)).
Qed.

Lemma afterStall_reachable : reachable afterStall.
Proof.
  assert (H0 : reachable lobbyWorld).
  { apply (reachable_step emptyWorld); [apply reachable_start|].
    apply step_directory; try reflexivity.
    intros a l Hl. change (lobbyObjs lobbyWorld) with ({[ 0%nat := waitingLobby ]} : gmap nat Lobby) in Hl.
    apply lookup_singleton_Some in Hl as [_ <-].
    refine (bool_decide_unpack _ _). vm_compute. exact I. }
  assert (H1 : reachable afterStart).
  { apply (reachable_step lobbyWorld); [exact H0|].
    apply (step_start 0%nat). vm_compute. reflexivity. }
  assert (H2 : reachable afterCountdown).
  { unfold afterCountdown.
    repeat (apply reachable_timer; [|vm_compute; reflexivity]). exact H1. }
  assert (H3 : reachable afterMove).
  { apply (reachable_step afterCountdown); [exact H2|].
    apply (step_event "s1" steerOut). vm_compute. reflexivity. }
  unfold afterStall. apply reachable_stall, H3.
Qed.

Lemma elimination_invariants_witness :
  exists e e',
    activeGames afterStall !! "ROOM"%string = Some e /\
    activeGames afterTick !! "ROOM"%string = Some e' /\
    alivePlayers (Game.gameData e) = ["s1"; "s2"; "s3"]%string /\
    alivePlayers (Game.gameData e') = ["s2"; "s3"]%string /\
    eliminationEvents "ROOM" (outbox afterStall) = 0%nat /\
    eliminationEvents "ROOM" (outbox afterTick) = 1%nat /\
    NoDup (eliminationOrder (Game.gameData e)) /\
    eliminated_stay (Game.gameData e) (Game.gameData e') /\
    (eliminationEvents "ROOM" (outbox afterTick) + length (alivePlayers (Game.gameData e'))
     = eliminationEvents "ROOM" (outbox afterStall) + length (alivePlayers (Game.gameData e)))%nat.
Proof.
  destruct (activeGames afterStall !! "ROOM"%string) as [e|] eqn:He;
    [|vm_compute in He; discriminate].
  destruct (activeGames afterTick !! "ROOM"%string) as [e'|] eqn:He';
    [|vm_compute in He'; discriminate].
  exists e, e'. split; [reflexivity|]. split; [reflexivity|].
  assert (Ha : alivePlayers (Game.gameData e) = ["s1"; "s2"; "s3"]%string).
  { vm_compute in He. injection He as <-. reflexivity. }
  assert (Ha' : alivePlayers (Game.gameData e') = ["s2"; "s3"]%string).
  { vm_compute in He'. injection He' as <-. reflexivity. }
  assert (Hid : Game.gameDataId e' = Game.gameDataId e).
  { vm_compute in He, He'. injection He as <-. injection He' as <-. reflexivity. }
  split; [exact Ha|]. split; [exact Ha'|].
  split; [vm_compute; reflexivity|]. split; [vm_compute; reflexivity|].
  destruct (elimination_invariants afterStall "ROOM" e afterStall_reachable He)
    as [[Hnd _] Hstep].
  split; [exact Hnd|].
  destruct (Hstep afterTick e') as (Hstay & _ & Hcount);
    [apply (step_timer 1%nat); vm_compute; reflexivity|exact He'|exact Hid|].
  split; [exact Hstay|exact Hcount].
Defined.

End SessionRunProperties.

(** ** Further properties of the code *)

Section Totality.
Context {N : Number} {H : Host}.

Lemma total_ret {A} (a : A) : total (mret a).
Proof. intros w. eexists _, _. reflexivity. Qed.

Lemma total_bind {A B} (m : M A) (f : A -> M B) :
  total m -> (forall a, total (f a)) -> total (m ≫= f).
Proof.
  intros Hm Hf w. destruct (Hm w) as (a & w1 & E1). destruct (Hf a w1) as (b & w2 & E2).
  exists b, w2. unfold mbind, M_bind. rewrite E1. exact E2.
Qed.

Lemma total_modify (f : World -> World) : total (modify f).
Proof. intros w. eexists _, _. reflexivity. Qed.

Lemma total_get : total get.
Proof. intros w. eexists _, _. reflexivity. Qed.

Lemma total_Date_now : total Date_now.
Proof. intros w. eexists _, _. reflexivity. Qed.

Lemma total_newUUID : total newUUID.
Proof. intros w. eexists _, _. reflexivity. Qed.

Lemma total_emit t ev v : total (emit t ev v).
Proof. apply total_modify. Qed.

Lemma total_setTimer task : total (setTimer task).
Proof. intros w. eexists _, _. reflexivity. Qed.

Lemma total_clearTimer h : total (clearTimer h).
Proof. apply total_modify. Qed.

Lemma total_clearIfSet h : total (clearIfSet h).
Proof. destruct h; [apply total_clearTimer|apply total_ret]. Qed.

Lemma total_getGame roomCode : total (getGame roomCode).
Proof. intros w. eexists _, _. reflexivity. Qed.

Lemma total_updGame roomCode f : total (updGame roomCode f).
Proof. apply total_modify. Qed.

Lemma total_getLobby a : total (getLobby a).
Proof. intros w. eexists _, _. reflexivity. Qed.

Lemma total_updLobby a f : total (updLobby a f).
Proof. apply total_modify. Qed.

Lemma total_newGameDataId : total newGameDataId.
Proof. intros w. eexists _, _. reflexivity. Qed.

Lemma total_foldM {A B} (f : B -> A -> M B) (l : list A) (b : B) :
  (forall b a, total (f b a)) -> total (foldM f l b).
Proof.
  intros Hf. revert b. induction l as [|a l IH]; intros b; cbn.
  - apply total_ret.
  - apply total_bind; [apply Hf|exact IH].
Qed.

(** A computation that returns and satisfies [Q] whenever it does. *)
Lemma total_sat {A} (m : M A) (Q : World -> A -> World -> Prop) (w : World) :
  total m -> sat m Q -> exists a w', m w = (Ok a, w') /\ Q w a w'.
Proof. intros Ht Hs. destruct (Ht w) as (a & w' & E). exists a, w'. split; [exact E|eapply Hs, E]. Qed.

End Totality.

(** Proves that a computation built from the primitives returns. *)
Ltac total_step :=
  first
    [ apply total_ret | apply total_Date_now | apply total_newUUID
    | apply total_setTimer | apply total_clearTimer | apply total_clearIfSet
    | apply total_get | apply total_getGame | apply total_getLobby
    | apply total_emit | apply total_updGame | apply total_updLobby
    | apply total_modify | apply total_newGameDataId
    | apply total_bind; [|intros ?]
    | match goal with
      | |- total (match ?x with _ => _ end) => destruct x
      | |- total (if ?c then _ else _) => destruct c
      | |- total (let _ := _ in _) => cbv zeta
      end ].
Ltac total_tac := repeat total_step.

Section PhysicsTotal.
Context {N : Number} {H : Host}.

Lemma total_resolveCollision p1 p2 dx dz d : total (resolveCollision p1 p2 dx dz d).
Proof.
  cbv beta delta [resolveCollision].
  repeat lazymatch goal with
  | |- total (let x := ?v in @?b x) =>
      let y := fresh "y" in set (y := v); change (total (b y)); cbv beta; clearbody y
  end.
  total_tac.
Qed.

Lemma total_collide p1 p2 : total (collide p1 p2).
Proof. unfold collide. cbv zeta. destruct (nltb _ _); [apply total_resolveCollision|apply total_ret]. Qed.

Lemma total_collidePair ps ij : total (collidePair ps ij).
Proof.
  unfold collidePair. destruct (ps !! ij.1); [|apply total_ret].
  destruct (ps !! ij.2); [|apply total_ret].
  apply total_bind; [apply total_collide|intros r; apply total_ret].
Qed.

Lemma total_checkCollisions g : total (checkCollisions g).
Proof.
  unfold checkCollisions. apply total_bind; [|intros ps; apply total_ret].
  apply total_foldM. intros. apply total_collidePair.
Qed.

Lemma total_updatePhysics g dt : total (updatePhysics g dt).
Proof. unfold updatePhysics. cbv zeta. apply total_checkCollisions. Qed.

End PhysicsTotal.

(** Evaluates the embedded code, leaving the arithmetic alone. *)
Ltac eval_code :=
  lazy -[nadd nsub nmul ndiv nneg nsqrt nltb nleb neqb ofZ].

Section StepperForm.
Context {N : Number}.
Implicit Types p q : PlayerBall.
Local Open Scope js_scope.

(** One step of [updatePhysics] for a player still in the game, in closed
    form: input and stamina first, then the integration. *)
Lemma stepPlayer_closed_form (deltaTime : num) p :
  isEliminated p = false ->
  let p3 := updateStamina
              (applyPlayerInput
                 (set_survivalTime (survivalTime p + deltaTime * #1000) p) deltaTime)
              deltaTime in
  let maxVel := if isSprinting p3 then SPRINT_MAX_VELOCITY else MAX_VELOCITY in
  let vx := (velX p3 + accX p3 * deltaTime) * FRICTION in
  let vy := velY p3 + (- GRAVITY) * deltaTime in
  let vz := (velZ p3 + accZ p3 * deltaTime) * FRICTION in
  let speed := nsqrt (sq vx + sq vz) in
  let vx' := if speed >? maxVel then vx / speed * maxVel else vx in
  let vz' := if speed >? maxVel then vz / speed * maxVel else vz in
  let x' := posX p3 + vx' * deltaTime in
  let y' := posY p3 + vy * deltaTime in
  let z' := posZ p3 + vz' * deltaTime in
  let landed := (nsqrt (sq x' + sq z') <=? PLATFORM_RADIUS) && (y' <? SPAWN_HEIGHT) in
  stepPlayer deltaTime p =
    set_acceleration (Vector3D.mk #0 (- GRAVITY) #0)
      (set_velocity (Vector3D.mk vx' (if landed then #0 else vy) vz')
         (set_position (Vector3D.mk x' (if landed then SPAWN_HEIGHT else y') z') p3)).
Proof.
  intros Helim. cbv zeta.
  remember (stepPlayer deltaTime p) as q eqn:E.
  cbv beta delta [stepPlayer] in E.
  destruct (isEliminated p); [discriminate|].
  do 3 lazymatch type of E with
  | q = (let x := ?v in @?b x) => change (q = b v) in E; cbv beta in E
  end.
  remember (updateStamina _ _) as p3 eqn:E3. clear E3.
  destruct p3 as [? ? ? [px py pz] [vx vy vz] ? [ax ay az] ? ? ? sprinting ? ? ? ? ?].
  subst q. eval_code.
  destruct sprinting; eval_code.
  all: repeat (match goal with
       | |- context [if ?c then _ else _] =>
           lazymatch c with
           | context [if _ then _ else _] => fail
           | nltb _ _ => destruct c
           | nleb _ _ => destruct c
           end
       end; eval_code).
  all: reflexivity.
Qed.

End StepperForm.

Section PhysicsKeeps.
Context {N : Number} {H : Host}.
Implicit Types p q : PlayerBall.

Lemma applyPlayerInput_kept p (dt : num) : kept (applyPlayerInput p dt) = kept p.
Proof.
  unfold applyPlayerInput. destruct (lastInput p) eqn:E; [|reflexivity].
  unfold kept. cbn. rewrite E. reflexivity.
Qed.

Lemma updateStamina_kept p (dt : num) : kept (updateStamina p dt) = kept p.
Proof.
  unfold updateStamina. cbv zeta.
  repeat match goal with |- context [if ?c then _ else _] => destruct c end;
    reflexivity.
Qed.

Lemma stepPlayer_eliminated (deltaTime : num) p :
  isEliminated p = true -> stepPlayer deltaTime p = p.
Proof.
  intros E. cbv beta delta [stepPlayer]. destruct (isEliminated p); [reflexivity|discriminate].
Qed.

Lemma stepPlayer_kept (deltaTime : num) p : kept (stepPlayer deltaTime p) = kept p.
Proof.
  destruct (isEliminated p) eqn:E; [rewrite stepPlayer_eliminated by exact E; reflexivity|].
  rewrite (stepPlayer_closed_form deltaTime p E).
  cbv zeta. unfold kept at 1.
  cbn [set_acceleration set_velocity set_position socketId name color rotation
       isEliminated eliminatedAt eliminations lastInput].
  fold (kept (updateStamina (applyPlayerInput
          (set_survivalTime (nadd (survivalTime p) (nmul deltaTime (ofZ 1000))) p)
          deltaTime) deltaTime)).
  rewrite updateStamina_kept, applyPlayerInput_kept. reflexivity.
Qed.

End PhysicsKeeps.

Section StepperProperties.
#[local] Existing Instance RNum.
Local Open Scope R_scope.
Implicit Types p q : PlayerBall (N := RNum).

(** A vector rescaled to length [m]. *)
Lemma rescaled_magnitude (a b m : R) :
  0 <= m -> 0 < magnitude a b ->
  magnitude (a / magnitude a b * m) (b / magnitude a b * m) = m.
Proof.
  intros Hm Hs. unfold magnitude in *.
  set (s := R_sqrt.sqrt (a * a + b * b)) in *.
  assert (Hss : s * s = a * a + b * b).
  { apply sqrt_sqrt. nra. }
  assert (Hq : a / s * m * (a / s * m) + b / s * m * (b / s * m)
               = m * m * ((a * a + b * b) / (s * s))) by (field; lra).
  rewrite Hq, <- Hss. replace (m * m * (s * s / (s * s))) with (m * m) by (field; lra).
  apply sqrt_square, Hm.
Qed.

(** The velocity clamp of the integration step: it leaves a player still in
    the game moving in the plane at no more than [SPRINT_MAX_VELOCITY] (50)
    when sprinting and [MAX_VELOCITY] (30) when not. *)
Lemma stepPlayer_clamps_speed (deltaTime : R) p :
  isEliminated p = false ->
  speedOf (stepPlayer deltaTime p)
  <= (if isSprinting (stepPlayer deltaTime p) then 50 else 30).
Proof.
  intros Helim. rewrite (stepPlayer_closed_form (N := RNum) deltaTime p Helim).
  cbv zeta. set (p3 := updateStamina _ _).
  unfold speedOf.
  cbn [set_acceleration set_velocity set_position velX velZ velocity isSprinting
       Vector3D.x Vector3D.z].
  change (@nltb RNum) with Rltb. change (@nsqrt RNum) with R_sqrt.sqrt.
  change (@nmul RNum) with Rmult. change (@nadd RNum) with Rplus.
  change (@ndiv RNum) with Rdiv.
  change (@SPRINT_MAX_VELOCITY RNum) with 50. change (@MAX_VELOCITY RNum) with 30.
  unfold sq. change (@nmul RNum) with Rmult.
  match goal with |- context [Rltb ?x _] => set (m := x) end.
  assert (Hm : 0 <= m) by (unfold m; destruct (isSprinting p3); lra).
  match goal with |- context [Rltb m (R_sqrt.sqrt (?x * ?x + ?y * ?y))] =>
    set (a := x); set (b := y)
  end.
  destruct (Rltb m (R_sqrt.sqrt (a * a + b * b))) eqn:Hc.
  - apply Rltb_true in Hc.
    pose proof (rescaled_magnitude a b m Hm ltac:(exact (Rle_lt_trans _ _ _ Hm Hc))) as Hr.
    unfold magnitude in Hr. rewrite Hr. apply Rle_refl.
  - apply Rltb_false in Hc. exact Hc.
Qed.

(** The floor of the platform: the integration step leaves a player still
    in the game beyond the platform's edge or at spawn height or above. *)
Lemma stepPlayer_floor (deltaTime : R) p :
  isEliminated p = false ->
  10 < magnitude (posX (stepPlayer deltaTime p)) (posZ (stepPlayer deltaTime p)) \/
  1 <= posY (stepPlayer deltaTime p).
Proof.
  intros Helim. rewrite (stepPlayer_closed_form (N := RNum) deltaTime p Helim).
  cbv zeta. set (p3 := updateStamina _ _).
  cbn [set_acceleration set_velocity set_position posX posY posZ position
       Vector3D.x Vector3D.y Vector3D.z].
  unfold sq, magnitude.
  change (@nleb RNum) with Rleb. change (@nltb RNum) with Rltb.
  change (@nsqrt RNum) with R_sqrt.sqrt.
  change (@nmul RNum) with Rmult. change (@nadd RNum) with Rplus.
  change (@PLATFORM_RADIUS RNum) with 10. change (@SPAWN_HEIGHT RNum) with 1.
  set (x' := posX p3 + _). set (z' := posZ p3 + _). set (y' := posY p3 + _).
  destruct (Rleb _ 10) eqn:Hon; [|left; apply Rleb_false in Hon; exact Hon].
  right. cbn [andb]. destruct (Rltb y' 1) eqn:Hy; [lra|].
  apply Rltb_false in Hy. exact Hy.
Qed.

End StepperProperties.

Section CollisionFurther.
#[local] Existing Instance RNum.
Context {H : Host (N := RNum)}.
Local Open Scope R_scope.
Implicit Types p q : PlayerBall (N := RNum).
Implicit Types w : World (N := RNum).



End CollisionFurther.

Section CollisionFurtherWitnesses.
#[local] Existing Instance RNum.
Local Open Scope R_scope.



End CollisionFurtherWitnesses.

Section HitCredit.
Context {N : Number} {H : Host}.
Implicit Types p q : PlayerBall.
Local Open Scope js_scope.

Ltac view_solve :=
  repeat first
    [ progress cbv zeta
    | match goal with
      | |- context [if ?c then _ else _] => destruct c
      end ];
  unfold hitView, velX, velZ in *;
  cbn [ set_velX set_velY set_velZ set_posX set_posY set_posZ set_position
        set_velocity socketId lastHitBy lastHitTime velocity velX velZ fst snd ];
  first [ assumption | reflexivity | congruence ].

(** Names the value bound by the [let] at the head of the computation: a
    player is forgotten but for its hit view and, while it is untouched, its
    velocity; a number is put in its place. *)
Ltac view_let p1 p2 :=
  lazymatch goal with
  | |- sat (let x := ?v in @?b x) ?Q =>
      let y := fresh "y" in
      set (y := v); change (sat (b y) Q); cbv beta;
      lazymatch type of v with
      | PlayerBall =>
          first [ assert (hitView y = hitView p1) by (subst y; view_solve)
                | assert (hitView y = hitView p2) by (subst y; view_solve) ];
          try first [ assert (velX y = velX p1) by (subst y; view_solve)
                    | assert (velX y = velX p2) by (subst y; view_solve) ];
          try first [ assert (velZ y = velZ p1) by (subst y; view_solve)
                    | assert (velZ y = velZ p2) by (subst y; view_solve) ];
          clearbody y
      | _ => subst y
      end
  end.

Lemma sat_Date_now :
  sat Date_now (fun w a w' =>
    a = clock (clockReads w) /\ w' = set_clockReads (S (clockReads w)) w).
Proof. intros w a w' E. injection E as <- <-. split; reflexivity. Qed.

Lemma resolveCollision_hits p1 p2 (dx dz d : num) :
  sat (resolveCollision p1 p2 dx dz d) (fun w r w' =>
    if (velX p2 - velX p1) * (dx / d) + (velZ p2 - velZ p1) * (dz / d) >? #0 then
      w' = w /\ hitRecord r.1 = hitRecord p1 /\ hitRecord r.2 = hitRecord p2
    else
      w' = set_clockReads (S (clockReads w)) w /\
      if nsqrt (sq (velX p1) + sq (velZ p1)) >? nsqrt (sq (velX p2) + sq (velZ p2)) then
        hitRecord r.2 = (Some (socketId p1), Some (clock (clockReads w))) /\
        hitRecord r.1 = hitRecord p1
      else
        hitRecord r.1 = (Some (socketId p2), Some (clock (clockReads w))) /\
        hitRecord r.2 = hitRecord p2).
Proof.
  cbv beta delta [resolveCollision].
  repeat view_let p1 p2.
  repeat match goal with
  | Hv : velX ?y = _ |- _ => rewrite ?Hv; clear Hv
  | Hv : velZ ?y = _ |- _ => rewrite ?Hv; clear Hv
  end.
  match goal with |- sat (if ?c then _ else _) _ => destruct c end.
  { apply sat_ret. intros w. unfold hitRecord, hitView in *. cbn.
    repeat split; congruence. }
  repeat view_let p1 p2.
  intros w r w' E. apply bind_ok in E as (now & w1 & E1 & E2).
  injection E1 as <- <-.
  split; [|rewrite ?Hc].
  { revert E2. match goal with |- (if ?c then _ else _) _ = _ -> _ => destruct c end;
      intros [= <- <-]; reflexivity. }
  unfold hitRecord, hitView in *.
  revert E2. match goal with |- (if ?c then _ else _) _ = _ -> _ => destruct c end;
    intros [= <- <-]; cbn; split; congruence.
Qed.

(** X4. Who gets the credit for a hit.  [resolveCollision] always returns.
    When the pair is already separating it records nothing and does not read
    the clock.  Otherwise it reads the clock once and marks exactly one of
    the two as hit, at that time: the second player by the first when the
    first is strictly faster, the first by the second otherwise (also on
    equal speeds). *)
Theorem resolveCollision_hit_credit p1 p2 (dx dz d : num) (w : World) :
  exists q1 q2 w',
    resolveCollision p1 p2 dx dz d w = (Ok (q1, q2), w') /\
    if (velX p2 - velX p1) * (dx / d) + (velZ p2 - velZ p1) * (dz / d) >? #0 then
      w' = w /\ hitRecord q1 = hitRecord p1 /\ hitRecord q2 = hitRecord p2
    else
      w' = set_clockReads (S (clockReads w)) w /\
      if nsqrt (sq (velX p1) + sq (velZ p1)) >? nsqrt (sq (velX p2) + sq (velZ p2)) then
        hitRecord q2 = (Some (socketId p1), Some (clock (clockReads w))) /\
        hitRecord q1 = hitRecord p1
      else
        hitRecord q1 = (Some (socketId p2), Some (clock (clockReads w))) /\
        hitRecord q2 = hitRecord p2.
Proof.
  destruct (total_sat _ _ w (total_resolveCollision p1 p2 dx dz d)
              (resolveCollision_hits p1 p2 dx dz d)) as ([q1 q2] & w' & E & Hq).
  exists q1, q2, w'. split; [exact E|exact Hq].
Qed.

End HitCredit.

Section CollisionKeeps.
Context {N : Number} {H : Host}.
Implicit Types p q : PlayerBall.
Implicit Types ps : list PlayerBall.

Ltac kept_solve :=
  repeat first
    [ progress cbv zeta
    | match goal with
      | |- context [if ?c then _ else _] => destruct c
      end ];
  unfold kept in *;
  cbn [ set_velX set_velY set_velZ set_posX set_posY set_posZ set_position
        set_velocity set_lastHitBy set_lastHitTime
        socketId name color rotation isEliminated eliminatedAt eliminations
        lastInput fst snd ];
  first [ assumption | reflexivity | congruence ].

Ltac kept_let p1 p2 :=
  lazymatch goal with
  | |- pureM (let x := ?v in @?b x) ?P =>
      let y := fresh "y" in
      set (y := v); change (pureM (b y) P); cbv beta;
      first [ assert (kept y = kept p1) by (subst y; kept_solve)
            | assert (kept y = kept p2) by (subst y; kept_solve)
            | idtac ];
      clearbody y
  end.

Lemma resolveCollision_kept p1 p2 (dx dz distance : num) :
  pureM (resolveCollision p1 p2 dx dz distance)
    (fun r => kept r.1 = kept p1 /\ kept r.2 = kept p2).
Proof.
  cbv beta delta [resolveCollision].
  repeat first
    [ kept_let p1 p2
    | match goal with
      | |- pureM (if ?c then _ else _) _ => destruct c
      | |- pureM (_ ≫= _) _ => apply pureM_seq; [apply stillM_Date_now|intros ?]
      | |- pureM (mret _) _ => apply pureM_ret; split; kept_solve
      end ].
Qed.

Lemma collide_kept p1 p2 :
  pureM (collide p1 p2) (fun r => kept r.1 = kept p1 /\ kept r.2 = kept p2).
Proof.
  unfold collide. cbv zeta. destruct (nltb _ _).
  - apply resolveCollision_kept.
  - apply pureM_ret. split; reflexivity.
Qed.

Lemma aliveFrom_alive k b ps :
  k ∈ aliveFrom b ps ->
  exists p, ps !! (k - b)%nat = Some p /\ isEliminated p = false /\ (b <= k)%nat.
Proof.
  revert b. induction ps as [|a ps IH]; intros b Hk; cbn in Hk.
  - apply elem_of_nil in Hk. contradiction.
  - destruct (isEliminated a) eqn:Ea.
    + destruct (IH _ Hk) as (p & Hp & He & Hb). exists p.
      replace (k - b)%nat with (S (k - S b)) by lia. cbn. repeat split; [exact Hp|exact He|lia].
    + apply elem_of_cons in Hk as [->|Hk].
      * exists a. rewrite Nat.sub_diag. repeat split; [exact Ea|lia].
      * destruct (IH _ Hk) as (p & Hp & He & Hb). exists p.
        replace (k - b)%nat with (S (k - S b)) by lia. cbn. repeat split; [exact Hp|exact He|lia].
Qed.

Lemma pairs_members (l : list nat) i j : (i, j) ∈ pairs l -> i ∈ l /\ j ∈ l.
Proof.
  induction l as [|a l IH]; cbn; intros Hin.
  - apply elem_of_nil in Hin. contradiction.
  - apply elem_of_app in Hin as [Hin|Hin].
    + change (map (pair a) l) with (pair a <$> l) in Hin.
      apply list_elem_of_fmap in Hin as (x & [= -> ->] & Hx).
      split; [apply list_elem_of_here|apply list_elem_of_further, Hx].
    + destruct (IH Hin). split; apply list_elem_of_further; assumption.
Qed.

Lemma pureM_foldM_in {A B} (f : B -> A -> M B) (P : B -> Prop) (l : list A) (b : B) :
  (forall b a, a ∈ l -> P b -> pureM (f b a) P) -> P b -> pureM (foldM f l b) P.
Proof.
  revert b. induction l as [|a l IH]; intros b Hf Hb; cbn.
  - apply pureM_ret, Hb.
  - eapply pureM_bind; [apply Hf; [apply list_elem_of_here|exact Hb]|].
    intros b' Hb'. apply IH; [|exact Hb'].
    intros b0 a0 Ha0. apply Hf. apply list_elem_of_further, Ha0.
Qed.

Lemma physicsFrame_refl ps : physicsFrame ps ps.
Proof. split; [reflexivity|]. intros k p Hk. exists p. repeat split; exact Hk. Qed.

Lemma collidePair_frame ps0 ps i j :
  (exists p, ps0 !! i = Some p /\ isEliminated p = false) ->
  (exists p, ps0 !! j = Some p /\ isEliminated p = false) ->
  physicsFrame ps0 ps ->
  pureM (collidePair ps (i, j)) (physicsFrame ps0).
Proof.
  intros (a & Ha & Ea) (b & Hb & Eb) [Hlen Hfr]. unfold collidePair. cbn [fst snd].
  destruct (Hfr i a Ha) as (a' & Ha' & Ka & _).
  destruct (Hfr j b Hb) as (b' & Hb' & Kb & _).
  rewrite Ha', Hb'.
  eapply pureM_bind; [apply collide_kept|].
  intros [r1 r2] [K1 K2]. cbn in K1, K2. apply pureM_ret. cbn [fst snd]. split.
  - rewrite !length_insert. exact Hlen.
  - intros k p Hk. destruct (Hfr k p Hk) as (p' & Hp' & Kp & Hel).
    destruct (decide (k = j)) as [->|Hj].
    + exists r2. rewrite list_lookup_insert_eq
        by (rewrite length_insert; eapply lookup_lt_Some, Hb').
      assert (p = b) by congruence. subst p.
      split; [reflexivity|]. split; [congruence|]. intros E. congruence.
    + rewrite list_lookup_insert_ne by congruence.
      destruct (decide (k = i)) as [->|Hi].
      * exists r1. rewrite list_lookup_insert_eq by (eapply lookup_lt_Some, Ha').
        assert (p = a) by congruence. subst p.
        split; [reflexivity|]. split; [congruence|]. intros E. congruence.
      * rewrite list_lookup_insert_ne by congruence. exists p'. auto.
Qed.

Lemma checkCollisions_frame (g : GameData) :
  pureM (checkCollisions g)
    (fun g' => set_players [] g' = set_players [] g /\
               physicsFrame (players g) (players g')).
Proof.
  unfold checkCollisions.
  eapply pureM_bind.
  - apply (pureM_foldM_in collidePair (physicsFrame (players g))).
    + intros ps [i j] Hij Hps. apply pairs_members in Hij as [Hi Hj].
      apply aliveFrom_alive in Hi as (a & Ha & Ea & _).
      apply aliveFrom_alive in Hj as (b & Hb & Eb & _).
      rewrite Nat.sub_0_r in Ha, Hb.
      apply collidePair_frame; eauto.
    + apply physicsFrame_refl.
  - intros ps Hps. apply pureM_ret. split; [reflexivity|exact Hps].
Qed.

(** X5. What [updatePhysics] leaves alone.  It always returns; it changes
    nothing of the game data but the players; the roster keeps its length
    and its order; no player's id, name, colour, rotation, elimination flag
    and time, elimination count or last input changes; and a player who is
    eliminated is not touched at all. *)
Theorem updatePhysics_frame (g : GameData) (deltaTime : num) (w : World) :
  exists g' w',
    updatePhysics g deltaTime w = (Ok g', w') /\
    set_players [] g' = set_players [] g /\
    physicsFrame (players g) (players g').
Proof.
  destruct (total_updatePhysics g deltaTime w) as (g' & w' & E).
  exists g', w'. split; [exact E|].
  unfold updatePhysics in E. cbv zeta in E.
  destruct (checkCollisions_frame _ _ _ _ E) as (_ & Hg & Hlen & Hfr).
  split; [exact Hg|]. cbn [players set_players] in Hlen, Hfr. split.
  - rewrite Hlen. apply length_map.
  - intros k p Hk.
    destruct (Hfr k (stepPlayer deltaTime p)) as (p' & Hp' & Kp & Hel).
    { change (map (stepPlayer deltaTime) (players g))
        with (stepPlayer deltaTime <$> players g).
      rewrite list_lookup_fmap, Hk. reflexivity. }
    exists p'. split; [exact Hp'|]. split; [rewrite Kp; apply stepPlayer_kept|].
    intros E'. rewrite <- (stepPlayer_eliminated deltaTime p E'). apply Hel.
    rewrite stepPlayer_eliminated by exact E'. exact E'.
Qed.

End CollisionKeeps.

Section CalmTick.
#[local] Existing Instance RNum.
Context {H : Host (N := RNum)}.
Local Open Scope R_scope.
Implicit Types p q : PlayerBall (N := RNum).
Implicit Types w : World (N := RNum).

Lemma pairs_increasing k (ps : list (PlayerBall (N := RNum))) i j :
  (i, j) ∈ pairs (aliveFrom k ps) -> (i < j)%nat.
Proof.
  revert k. induction ps as [|a ps IH]; intros k; cbn.
  - intros Hin. apply elem_of_nil in Hin. contradiction.
  - destruct (isEliminated a); [apply IH|]. cbn [pairs]. intros Hin.
    apply elem_of_app in Hin as [Hin|Hin]; [|apply (IH _ Hin)].
    change (map (pair k) ?l) with (pair k <$> l) in Hin.
    apply list_elem_of_fmap in Hin as (x & [= -> ->] & Hx).
    apply aliveFrom_alive in Hx as (_ & _ & _ & Hle). lia.
Qed.

Lemma collide_apart p1 p2 w :
  1 <= magnitude (posX p2 - posX p1) (posZ p2 - posZ p1) ->
  collide p1 p2 w = (Ok (p1, p2), w).
Proof.
  intros Hd. unfold collide. cbv zeta.
  change (nsqrt _) with (magnitude (posX p2 - posX p1) (posZ p2 - posZ p1)).
  replace (_ <? _)%js with false; [reflexivity|].
  symmetry. apply Rltb_false. cbn. lra.
Qed.

Lemma foldM_fixed {A B} (f : B -> A -> M B) (l : list A) (b : B) w :
  (forall a, a ∈ l -> f b a w = (Ok b, w)) -> foldM f l b w = (Ok b, w).
Proof.
  induction l as [|a l IH]; intros Hf; [reflexivity|].
  cbn [foldM]. unfold mbind, M_bind. rewrite (Hf a) by apply list_elem_of_here.
  apply IH. intros a' Ha'. apply Hf, list_elem_of_further, Ha'.
Qed.

(** When no two players still in the game overlap, [checkCollisions]
    changes nothing. *)
Lemma checkCollisions_apart (g : GameData) w :
  apart (players g) -> checkCollisions g w = (Ok g, w).
Proof.
  intros Hap. unfold checkCollisions, mbind, M_bind.
  rewrite foldM_fixed; [destruct g; reflexivity|].
  intros [i j] Hij.
  pose proof (pairs_increasing _ _ i j Hij) as Hlt.
  apply pairs_members in Hij as [Hi Hj].
  apply aliveFrom_alive in Hi as (p & Hp & Ep & _).
  apply aliveFrom_alive in Hj as (q & Hq & Eq & _).
  rewrite Nat.sub_0_r in Hp, Hq.
  unfold collidePair. cbn [fst snd]. rewrite Hp, Hq.
  unfold mbind, M_bind. rewrite (collide_apart p q w (Hap i j p q Hlt Hp Hq Ep Eq)).
  cbn [fst snd mret M_ret]. rewrite !list_insert_id; [reflexivity|exact Hp|].
  rewrite list_insert_id by exact Hp. exact Hq.
Qed.

(** ... and [updatePhysics] is the integration step of every player. *)
Lemma updatePhysics_apart (g : GameData) (deltaTime : R) w :
  apart (map (stepPlayer deltaTime) (players g)) ->
  updatePhysics g deltaTime w
  = (Ok (set_players (map (stepPlayer deltaTime) (players g)) g), w).
Proof. intros Hap. unfold updatePhysics. cbv zeta. apply checkCollisions_apart, Hap. Qed.

Lemma stepped_alive (deltaTime : R) (ps : list (PlayerBall (N := RNum))) p :
  p ∈ map (stepPlayer (N := RNum) deltaTime) ps -> isEliminated p = false ->
  exists p0, p = stepPlayer (N := RNum) deltaTime p0 /\ isEliminated p0 = false.
Proof.
  change (map (stepPlayer (N := RNum) deltaTime) ps) with (stepPlayer (N := RNum) deltaTime <$> ps).
  intros (p0 & -> & _)%list_elem_of_fmap He. exists p0. split; [reflexivity|].
  destruct (isEliminated p0) eqn:E0; [|reflexivity].
  rewrite (stepPlayer_eliminated (N := RNum) deltaTime p0 E0) in He. congruence.
Qed.

(** X1. The velocity clamp.  In a tick in which, after the integration
    step, no two players still in the game overlap (so that
    [checkCollisions] resolves nothing), [updatePhysics] leaves every player
    still in the game at a planar speed of at most [SPRINT_MAX_VELOCITY]
    (50) when sprinting and [MAX_VELOCITY] (30) when not.  The clamp runs
    before [checkCollisions]: the hypothesis is what keeps an impulse from
    being added after it. *)
Theorem updatePhysics_clamps_speed (g : GameData) (deltaTime : R) w :
  apart (map (stepPlayer deltaTime) (players g)) ->
  exists g' w',
    updatePhysics g deltaTime w = (Ok g', w') /\
    forall p, p ∈ players g' -> isEliminated p = false ->
      speedOf p <= (if isSprinting p then 50 else 30).
Proof.
  intros Hap. eexists _, _. split; [apply updatePhysics_apart, Hap|].
  cbn [players set_players]. intros p Hp He.
  destruct (stepped_alive _ _ _ Hp He) as (p0 & -> & E0).
  apply stepPlayer_clamps_speed, E0.
Qed.

(** X2. The floor of the platform.  In a tick in which, after the
    integration step, no two players still in the game overlap,
    [updatePhysics] leaves every player still in the game beyond the
    platform's edge or at spawn height or above: nobody sinks through the
    platform.  (A separation in [checkCollisions] runs after the snap to
    spawn height and moves players in the plane.) *)
Theorem updatePhysics_floor (g : GameData) (deltaTime : R) w :
  apart (map (stepPlayer deltaTime) (players g)) ->
  exists g' w',
    updatePhysics g deltaTime w = (Ok g', w') /\
    forall p, p ∈ players g' -> isEliminated p = false ->
      10 < magnitude (posX p) (posZ p) \/ 1 <= posY p.
Proof.
  intros Hap. eexists _, _. split; [apply updatePhysics_apart, Hap|].
  cbn [players set_players]. intros p Hp He.
  destruct (stepped_alive _ _ _ Hp He) as (p0 & -> & E0).
  apply stepPlayer_floor, E0.
Qed.

Lemma magnitude_ge_abs (a b : R) : Rabs a <= magnitude a b.
Proof.
  unfold magnitude. rewrite <- sqrt_Rsqr_abs. apply sqrt_le_1_alt. unfold Rsqr. nra.
Qed.

Lemma input_stamina_position p (dt : R) :
  position (updateStamina (applyPlayerInput p dt) dt) = position p.
Proof.
  unfold updateStamina, applyPlayerInput. cbv zeta.
  repeat match goal with
         | |- context [match ?c with _ => _ end] => destruct c
         end; reflexivity.
Qed.

(** Where the integration step puts a player: displaced by the new
    velocity. *)
Lemma stepPlayer_displacement (deltaTime : R) p :
  isEliminated p = false ->
  posX (stepPlayer deltaTime p) = posX p + velX (stepPlayer deltaTime p) * deltaTime /\
  posZ (stepPlayer deltaTime p) = posZ p + velZ (stepPlayer deltaTime p) * deltaTime.
Proof.
  intros Helim. rewrite (stepPlayer_closed_form (N := RNum) deltaTime p Helim).
  cbv zeta.
  cbn [set_acceleration set_velocity set_position posX posZ velX velZ position velocity
       Vector3D.x Vector3D.z].
  unfold posX, posZ. rewrite input_stamina_position. split; reflexivity.
Qed.

Lemma reach_bound (x0 deltaTime : R) q :
  posX q = x0 + velX q * deltaTime ->
  speedOf q <= (if isSprinting q then 50 else 30) ->
  0 <= deltaTime ->
  Rabs (posX q - x0) <= 50 * deltaTime.
Proof.
  intros Hx Hs Hdt.
  pose proof (magnitude_ge_abs (velX q) (velZ q)) as Ha.
  change (magnitude _ _) with (speedOf q) in Ha.
  rewrite Hx. replace (x0 + velX q * deltaTime - x0) with (velX q * deltaTime) by ring.
  rewrite Rabs_mult, (Rabs_pos_eq deltaTime) by exact Hdt.
  apply Rmult_le_compat_r; [exact Hdt|].
  destruct (isSprinting q); lra.
Qed.

Lemma stepPlayer_reach (deltaTime : R) p :
  isEliminated p = false -> 0 <= deltaTime ->
  Rabs (posX (stepPlayer deltaTime p) - posX p) <= 50 * deltaTime.
Proof.
  intros Helim Hdt. apply reach_bound; [|apply stepPlayer_clamps_speed, Helim|exact Hdt].
  apply stepPlayer_displacement, Helim.
Qed.

(** Two players far enough apart along the x axis do not meet in one
    step. *)
Lemma two_apart (deltaTime : R) a b :
  isEliminated a = false -> isEliminated b = false -> 0 <= deltaTime ->
  1 + 100 * deltaTime <= posX b - posX a ->
  apart [stepPlayer deltaTime a; stepPlayer deltaTime b].
Proof.
  intros Ea Eb Hdt Hfar i j p q Hlt Hp Hq _ _.
  destruct i as [|i]; [|destruct j as [|[|j]]; [lia|lia|discriminate]].
  destruct j as [|[|j]]; [lia| |discriminate].
  cbn [lookup list_lookup] in Hp, Hq.
  injection Hp as <-. injection Hq as <-.
  pose proof (stepPlayer_reach deltaTime a Ea Hdt) as H1.
  pose proof (stepPlayer_reach deltaTime b Eb Hdt) as H2.
  eapply Rle_trans; [|apply magnitude_ge_abs].
  revert H1 H2. unfold Rabs. repeat destruct (Rcase_abs _); lra.
Qed.

Lemma calmGame_apart : apart (map (stepPlayer (16 / 1000)) (players calmGame)).
Proof.
  apply (two_apart (16 / 1000) (set_posY (N := RNum) (1 / 2) (rplayer "s1" 0 0 60 0))
           (rplayer "s2" 5 0 0 0)); [reflexivity|reflexivity|lra|].
  change (1 + 100 * (16 / 1000) <= 5 - 0). lra.
Qed.

End CalmTick.

Section CalmTickWitnesses.
#[local] Existing Instance RNum.
Local Open Scope R_scope.

Lemma updatePhysics_clamps_speed_witness :
  apart (map (stepPlayer (16 / 1000)) (players calmGame)) /\
  exists g' w',
    updatePhysics (H := realHost) calmGame (16 / 1000) emptyWorld = (Ok g', w') /\
    forall p, p ∈ players g' -> isEliminated p = false ->
      speedOf p <= (if isSprinting p then 50 else 30).
Proof.
  split; [exact calmGame_apart|].
  apply (updatePhysics_clamps_speed (H := realHost) calmGame (16 / 1000) emptyWorld).
  exact calmGame_apart.
Defined.

Lemma updatePhysics_floor_witness :
  apart (map (stepPlayer (16 / 1000)) (players calmGame)) /\
  exists g' w',
    updatePhysics (H := realHost) calmGame (16 / 1000) emptyWorld = (Ok g', w') /\
    forall p, p ∈ players g' -> isEliminated p = false ->
      10 < magnitude (posX p) (posZ p) \/ 1 <= posY p.
Proof.
  split; [exact calmGame_apart|].
  apply (updatePhysics_floor (H := realHost) calmGame (16 / 1000) emptyWorld).
  exact calmGame_apart.
Defined.

End CalmTickWitnesses.

Section LeaderProperties.
Context {N : Number} {H : Host}.
Implicit Types p q : PlayerBall.
Implicit Types ps : list PlayerBall.

Lemma insertByEliminations_head p l :
  head (insertByEliminations p l)
  = match head l with
    | Some q => if (eliminations p <? eliminations q)%nat then Some q else Some p
    | None => Some p
    end.
Proof.
  destruct l as [|q l]; cbn [insertByEliminations head]; [reflexivity|].
  destruct (eliminations p <? eliminations q)%nat; reflexivity.
Qed.

Lemma sortByEliminations_head ps :
  match head (sortByEliminations ps) with
  | Some p => exists k, firstLeader ps k p
  | None => ps = []
  end.
Proof.
  induction ps as [|a ps IH]; [reflexivity|].
  cbn [sortByEliminations foldr]. fold (sortByEliminations ps).
  rewrite insertByEliminations_head.
  destruct (head (sortByEliminations ps)) as [q|].
  - destruct IH as (k & Hk & Hmax & Hfirst).
    destruct (eliminations a <? eliminations q)%nat eqn:Hlt.
    + apply Nat.ltb_lt in Hlt. exists (S k). split; [exact Hk|]. split.
      * intros r [->|Hr]%elem_of_cons; [lia|apply Hmax, Hr].
      * intros [|j] r Hj Hr; cbn in Hr; [injection Hr as <-; exact Hlt|].
        apply (Hfirst j); [lia|exact Hr].
    + apply Nat.ltb_ge in Hlt. exists 0%nat. split; [reflexivity|]. split.
      * intros r [->|Hr]%elem_of_cons; [lia|]. specialize (Hmax r Hr). lia.
      * intros j r Hj. lia.
  - subst ps. exists 0%nat. split; [reflexivity|]. split.
    + intros r [->|Hr]%elem_of_cons; [lia|]. apply elem_of_nil in Hr. contradiction.
    + intros j r Hj. lia.
Qed.

(** X6. The leader [game:end] and the timed mode end the game with: on an
    empty roster reading [sortedPlayers[0].socketId] throws; otherwise it is
    the id of a player with the most eliminations and, among those, of the
    first in roster order (the sort is stable). *)
Theorem leaderId_first_leader ps (w : World) :
  match ps with
  | [] => exists e, leaderId ps w = (Throw e, w)
  | _ => exists k p, leaderId ps w = (Ok (Some (socketId p)), w) /\ firstLeader ps k p
  end.
Proof.
  pose proof (sortByEliminations_head ps) as Hs. unfold leaderId.
  destruct ps as [|a ps]; [eexists; reflexivity|].
  destruct (sortByEliminations (a :: ps)) as [|p l]; [discriminate|].
  destruct Hs as (k & Hk). exists k, p. split; [reflexivity|exact Hk].
Qed.

End LeaderProperties.

Section ScoreProperties.


(** X7. The score table of [endGame]: 100, 75, 50 and 25 points for the
    places 1 to 4 and 10 for every other place; among the places from 1 on a
    better place never scores less. *)
Theorem scoreOfPlace_antitone (a b : Z) :
  (1 <= a)%Z -> (a <= b)%Z ->
  (scoreOfPlace b <= scoreOfPlace a)%Z /\ (10 <= scoreOfPlace b <= 100)%Z /\
  (scoreOfPlace a = 100 <-> a = 1)%Z.
Proof.
  intros Ha Hab. unfold scoreOfPlace.
  repeat match goal with
  | |- context [(?x =? ?y)%Z] => destruct (Z.eqb_spec x y)
  end; lia.
Qed.

Lemma scoreOfPlace_antitone_witness :
  (scoreOfPlace 3 <= scoreOfPlace 2)%Z /\ (10 <= scoreOfPlace 3 <= 100)%Z /\
  (scoreOfPlace 2 = 100 <-> 2 = 1)%Z.
Proof. apply scoreOfPlace_antitone; lia. Defined.

End ScoreProperties.

Section PlaceProperties.
Context {N : Number}.
Implicit Types p q : PlayerBall.
Implicit Types g : GameData.

Lemma filter_split_length (fl : list (string * bool)) :
  (length (filter (fun x : string * bool => x.2 = true) fl)
   + length (filter (fun x : string * bool => x.2 = false) fl) = length fl)%nat.
Proof.
  induction fl as [|[id []] fl IH]; [reflexivity| |].
  - rewrite filter_cons_True by reflexivity.
    rewrite (filter_cons_False (fun x : string * bool => x.2 = false)) by (cbn; discriminate).
    cbn. lia.
  - rewrite filter_cons_False by (cbn; discriminate).
    rewrite (filter_cons_True (fun x : string * bool => x.2 = false)) by reflexivity.
    cbn. lia.
Qed.

(** Under the session invariant everybody is in [alivePlayers] or in
    [eliminationOrder]. *)
Lemma order_alive_length g :
  session_inv g ->
  (length (eliminationOrder g) + length (alivePlayers g) = length (players g))%nat.
Proof.
  intros (Hnd & Ha & Ho & Hmem).
  assert (Hperm : eliminationOrder g
                  ≡ₚ (filter (fun x : string * bool => x.2 = true) (flags g)).*1).
  { apply NoDup_Permutation; [exact Ho| |].
    - apply NoDup_fmap_fst.
      + intros id b1 b2 [H1 _]%list_elem_of_filter [H2 _]%list_elem_of_filter.
        cbn in *. congruence.
      + apply NoDup_filter. eapply NoDup_fmap_1, Hnd.
    - intros id. rewrite Hmem. rewrite list_elem_of_fmap. split.
      + intros Hin. exists (id, true). split; [reflexivity|].
        apply list_elem_of_filter. split; [reflexivity|exact Hin].
      + intros ([id' b] & -> & [Hb Hin]%list_elem_of_filter). cbn in *. subst b. exact Hin. }
  rewrite Hperm, Ha, !length_fmap, filter_split_length.
  unfold flags. apply length_map.
Qed.

(** X8. The places [endGame] hands out.  Under the session invariant an
    eliminated player's place is the size of the roster minus the player's
    index in [eliminationOrder]: the first one out is last.  These places
    lie behind the number of players still in, at most at the size of the
    roster, and no two eliminated players share one. *)
Theorem eliminated_places g i j p q :
  session_inv g ->
  players g !! i = Some p -> isEliminated p = true ->
  players g !! j = Some q -> isEliminated q = true ->
  (exists k, eliminationOrder g !! k = Some (socketId p) /\
             placeOf g p = (Z.of_nat (length (players g)) - Z.of_nat k)%Z) /\
  (Z.of_nat (length (alivePlayers g)) < placeOf g p <= Z.of_nat (length (players g)))%Z /\
  (i ≠ j -> placeOf g p ≠ placeOf g q).
Proof.
  intros Hinv Hi Hp Hj Hq. pose proof (order_alive_length g Hinv) as Hlen.
  destruct Hinv as (Hnd & _ & Ho & Hmem).
  assert (Hidx : forall k r, players g !! k = Some r -> isEliminated r = true ->
            exists n, eliminationOrder g !! n = Some (socketId r) /\
                      indexOf (socketId r) (eliminationOrder g) = Z.of_nat n).
  { intros k r Hk Hr.
    assert (Hin : socketId r ∈ eliminationOrder g).
    { apply Hmem. apply (list_elem_of_lookup_2 _ k). unfold flags.
      change (map flagOf (players g)) with (flagOf <$> players g).
      rewrite list_lookup_fmap, Hk. cbn. unfold flagOf. rewrite Hr. reflexivity. }
    unfold indexOf.
    destruct (list_find _ _) as [[n x]|] eqn:Hfind.
    - apply list_find_Some in Hfind as (Hn & -> & _). exists n. split; [exact Hn|reflexivity].
    - exfalso. apply list_find_None in Hfind. rewrite Forall_forall in Hfind.
      apply (Hfind _ Hin). reflexivity. }
  destruct (Hidx i p Hi Hp) as (n & Hn & En).
  destruct (Hidx j q Hj Hq) as (m & Hm & Em).
  unfold placeOf. rewrite Hp, Hq, En, Em.
  pose proof (lookup_lt_Some _ _ _ Hn) as Hn'.
  split; [exists n; split; [exact Hn|reflexivity]|]. split; [lia|].
  intros Hij Heq. assert (n = m) by lia. subst m.
  assert (Hid : socketId p = socketId q) by congruence.
  apply Hij. eapply (NoDup_lookup _ i j (socketId p)); [exact Hnd| |].
  - unfold flags. change (map flagOf (players g)) with (flagOf <$> players g).
    rewrite !list_lookup_fmap, Hi. reflexivity.
  - unfold flags. change (map flagOf (players g)) with (flagOf <$> players g).
    rewrite !list_lookup_fmap, Hj. cbn. rewrite Hid. reflexivity.
Qed.

End PlaceProperties.

Section SanitizerFurther.
Context {N : Number}.

(** X9. The players in a snapshot depend on nothing but the eleven fields
    the sanitizer copies: game data that differ only in the other fields of
    their players ([acceleration], [eliminatedAt], [lastInput], [lastHitBy],
    [lastHitTime]) give the same snapshot. *)
Theorem sanitizeGameData_hides (g g' : GameData) :
  map clientView (players g') = map clientView (players g) ->
  set_players [] g' = set_players [] g ->
  sanitizeGameData g' = sanitizeGameData g.
Proof.
  intros Hv Hg.
  assert (Hs : map sanitizePlayerBall (players g') = map sanitizePlayerBall (players g)).
  { revert Hv. generalize (players g). induction (players g') as [|p ps IH];
      intros [|q qs] Hv; try discriminate; [reflexivity|].
    injection Hv as E1 E2 E3 E4 E5 E6 E7 E8 E9 E10 E11 Hv.
    cbn [map]. f_equal; [|apply IH, Hv].
    unfold sanitizePlayerBall. congruence. }
  unfold sanitizeGameData. rewrite Hs. f_equal.
  destruct g as [st cv t0 gm ps al eo wi lt], g' as [st' cv' t0' gm' ps' al' eo' wi' lt'].
  injection Hg as -> -> -> -> -> -> -> ->.
  unfold gameDataFields. cbn [status countdownValue startTime gameMode players
    alivePlayers eliminationOrder winnerId lastTickTime].
  destruct cv; reflexivity.
Qed.

End SanitizerFurther.

Section SpawnRing.
#[local] Existing Instance RNum.
Local Open Scope R_scope.

Lemma on_the_ring (a : R) : magnitude (cos a * 8) (sin a * 8) = 8.
Proof.
  rewrite (Rmult_comm (cos a)), (Rmult_comm (sin a)).
  rewrite magnitude_scale by lra. unfold magnitude.
  replace (cos a * cos a + sin a * sin a) with 1.
  - rewrite sqrt_1. lra.
  - pose proof (sin2_cos2 a) as Hsc. unfold Rsqr in Hsc. lra.
Qed.

(** X10. Where a session starts.  With the [Math] functions read over the
    reals, every player of a new game data object stands on the spawn ring,
    8 units from the centre and so inside the platform of radius 10, at
    spawn height, at rest, with full stamina, not sprinting and not
    eliminated, whatever the size of the roster. *)
Theorem newGameData_on_ring (lobby : Lobby) (w : World) :
  exists g w',
    newGameData (H := realHost) lobby w = (Ok g, w') /\
    length (players g) = length (Lobby.players lobby) /\
    forall p, p ∈ players g ->
      magnitude (posX p) (posZ p) = 8 /\ posY p = 1 /\
      velocity p = Vector3D.mk 0 0 0 /\ stamina p = 100 /\
      isSprinting p = false /\ isEliminated p = false.
Proof.
  eexists _, _. split; [reflexivity|]. cbn [players].
  split; [apply length_imap|].
  intros p (i & x & -> & _)%elem_of_lookup_imap.
  split; [apply on_the_ring|]. repeat split.
Qed.

End SpawnRing.

Section EliminationFurther.
Context {N : Number} {H : Host}.
Implicit Types p q : PlayerBall.
Implicit Types g : GameData.
Local Open Scope js_scope.

Lemma eliminatePlayer_result (i : nat) g (roomCode : string) p (w : World) :
  players g !! i = Some p ->
  exists w',
    eliminatePlayer i g roomCode w
    = (Ok (set_alivePlayers (filter (fun id => id ≠ socketId p) (alivePlayers g))
             (set_eliminationOrder (eliminationOrder g ++ [socketId p])
                (set_players (playersAfterElimination i g w) g))), w') /\
    outbox w' = outbox w ++
      [mkEmit (ToRoom roomCode) "bumper:player-eliminated"
         (JObj [("socketId", JStr (socketId p)); ("playerName", JStr (name p));
                ("remainingPlayers",
                 JNat (length (filter (fun id => id ≠ socketId p) (alivePlayers g))))]%string)].
Proof.
  intros Hi. unfold eliminatePlayer, playersAfterElimination, creditOf. rewrite Hi.
  cbv zeta. unfold mbind, M_bind, Date_now at 1.
  cbn [lastHitBy lastHitTime set_eliminatedAt set_isEliminated socketId name].
  destruct (lastHitBy p) as [hitBy|]; [|eexists; split; reflexivity].
  destruct (lastHitTime p) as [hitTime|]; [|eexists; split; reflexivity].
  destruct (strTruthy hitBy && truthy hitTime); [|eexists; split; reflexivity].
  cbn [andb]. unfold Date_now. cbn [clockReads set_clockReads].
  destruct (nltb _ _); [|eexists; split; reflexivity].
  unfold creditAttacker, eliminatedAs. cbn [players set_players].
  destruct (findPlayer _ _) as [[k attacker]|] eqn:Hfind; [|eexists; split; reflexivity].
  apply list_find_Some in Hfind as (Hk & _ & _).
  destruct (isEliminated attacker); cbn [negb]; [eexists; split; reflexivity|].
  rewrite Hk. eexists; split; reflexivity.
Qed.

Lemma creditOf_spec (i : nat) g (w : World) victim k :
  players g !! i = Some victim -> creditOf i g w = Some k ->
  k ≠ i /\
  exists p hitTime,
    players g !! k = Some p /\ isEliminated p = false /\
    lastHitBy victim = Some (socketId p) /\ lastHitTime victim = Some hitTime /\
    (clock (S (clockReads w)) - hitTime <? #3000) = true.
Proof.
  intros Hi. unfold creditOf. rewrite Hi.
  destruct (lastHitBy victim) as [hitBy|]; [|discriminate].
  destruct (lastHitTime victim) as [hitTime|]; [|discriminate].
  destruct (strTruthy hitBy && truthy hitTime); [|discriminate]. cbn [andb].
  destruct (nltb _ _) eqn:Ht; [|discriminate].
  destruct (findPlayer _ _) as [[k' attacker]|] eqn:Hfind; [|discriminate].
  apply list_find_Some in Hfind as (Hk & Hid & _).
  destruct (isEliminated attacker) eqn:Ha; [discriminate|]. intros [= ->].
  assert (Hne : k ≠ i).
  { intros ->. rewrite list_lookup_insert_eq in Hk by (eapply lookup_lt_Some, Hi).
    injection Hk as <-. discriminate. }
  split; [exact Hne|]. rewrite list_lookup_insert_ne in Hk by congruence.
  exists attacker, hitTime. repeat split; [exact Hk|exact Ha|congruence|exact Ht].
Qed.

Lemma playersAfterElimination_spec (i : nat) g (w : World) victim :
  players g !! i = Some victim ->
  length (playersAfterElimination i g w) = length (players g) /\
  forall k p, players g !! k = Some p ->
    exists p', playersAfterElimination i g w !! k = Some p' /\
      socketId p' = socketId p /\ position p' = position p /\
      isEliminated p' = (if decide (k = i) then true else isEliminated p) /\
      eliminations p'
      = (if decide (creditOf i g w = Some k) then S (eliminations p) else eliminations p).
Proof.
  intros Hi.
  set (ps := <[i := eliminatedAs (clock (clockReads w)) victim]> (players g)).
  assert (Hps : forall k p, players g !! k = Some p ->
            exists p', ps !! k = Some p' /\
              socketId p' = socketId p /\ position p' = position p /\
              isEliminated p' = (if decide (k = i) then true else isEliminated p) /\
              eliminations p' = eliminations p).
  { intros k p Hk. unfold ps. destruct (decide (k = i)) as [->|Hne].
    - rewrite list_lookup_insert_eq by (eapply lookup_lt_Some, Hi).
      assert (p = victim) by congruence. subst p. eexists. split; [reflexivity|].
      repeat split.
    - rewrite list_lookup_insert_ne by congruence. exists p. repeat split. exact Hk. }
  unfold playersAfterElimination. rewrite Hi. cbv zeta. fold ps.
  destruct (creditOf i g w) as [c|] eqn:Hc.
  - destruct (creditOf_spec i g w victim c Hi Hc) as (Hne & a & t & Ha & _).
    destruct (Hps c a Ha) as (a' & Ha' & Ia & Pa & Ea & Na).
    rewrite Ha'. split; [unfold ps; rewrite !length_insert; reflexivity|].
    intros k p Hk. destruct (Hps k p Hk) as (p' & Hp' & Ip & Pp & Ep & Np).
    destruct (decide (k = c)) as [->|Hkc].
    + rewrite list_lookup_insert_eq by (eapply lookup_lt_Some, Ha').
      assert (p = a) by congruence. subst p. assert (p' = a') by congruence. subst p'.
      eexists. split; [reflexivity|].
      destruct (decide (Some c = Some c)); [|congruence].
      cbn. repeat split; congruence.
    + rewrite list_lookup_insert_ne by congruence. exists p'.
      destruct (decide (Some c = Some k)) as [[= ->]|]; [congruence|].
      repeat split; assumption.
  - split; [unfold ps; rewrite length_insert; reflexivity|].
    intros k p Hk. destruct (Hps k p Hk) as (p' & Hp' & Ip & Pp & Ep & Np).
    exists p'. destruct (decide (None = Some k)); [discriminate|].
    repeat split; assumption.
Qed.

(** X11. The credit for an elimination.  [eliminatePlayer] returns; the
    roster keeps its length and its ids; the player eliminated is flagged,
    nobody else's flag changes; and at most one player's [eliminations] goes
    up, by one: a player other than the one eliminated, still in the game,
    whose id is the [lastHitBy] of the player eliminated, and only when the
    hit is less than 3000 ms old at the second reading of the clock. *)
Theorem eliminatePlayer_credit (i : nat) g (roomCode : string) victim (w : World) :
  players g !! i = Some victim ->
  exists g' w' (credited : option nat),
    eliminatePlayer i g roomCode w = (Ok g', w') /\
    length (players g') = length (players g) /\
    (forall k p, players g !! k = Some p ->
       exists p', players g' !! k = Some p' /\
         socketId p' = socketId p /\
         isEliminated p' = (if decide (k = i) then true else isEliminated p) /\
         eliminations p'
         = (if decide (credited = Some k) then S (eliminations p) else eliminations p)) /\
    (forall k, credited = Some k ->
       k ≠ i /\
       exists p hitTime,
         players g !! k = Some p /\ isEliminated p = false /\
         lastHitBy victim = Some (socketId p) /\ lastHitTime victim = Some hitTime /\
         (clock (S (clockReads w)) - hitTime <? #3000) = true).
Proof.
  intros Hi. destruct (eliminatePlayer_result i g roomCode victim w Hi) as (w' & E & _).
  destruct (playersAfterElimination_spec i g w victim Hi) as [Hlen Hps].
  eexists _, w', (creditOf i g w). split; [exact E|]. cbn [players set_alivePlayers
    set_eliminationOrder set_players]. split; [exact Hlen|]. split.
  - intros k p Hk. destruct (Hps k p Hk) as (p' & Hp' & Ip & _ & Ep & Np).
    exists p'. repeat split; assumption.
  - intros k Hc. apply (creditOf_spec i g w victim k Hi Hc).
Qed.

Lemma total_eliminatePlayer (i : nat) g roomCode : total (eliminatePlayer i g roomCode).
Proof. unfold eliminatePlayer. total_tac. Qed.

Lemma total_checkElimination roomCode g (i : nat) : total (checkElimination roomCode g i).
Proof.
  unfold checkElimination. destruct (players g !! i); [|apply total_ret].
  destruct (isEliminated _); [apply total_ret|]. cbv zeta.
  destruct (nltb _ _); [apply total_eliminatePlayer|].
  destruct (nltb _ _); [apply total_eliminatePlayer|apply total_ret].
Qed.

Lemma total_checkEliminations g roomCode : total (checkEliminations g roomCode).
Proof. apply total_foldM. intros. apply total_checkElimination. Qed.

Lemma foldM_seq_inv {B} (f : B -> nat -> M B) (Inv : nat -> B -> Prop) (n a : nat)
    (b : B) (w : World) b' w' :
  (forall m b w b' w', (a <= m < a + n)%nat -> Inv m b ->
     f b m w = (Ok b', w') -> Inv (S m) b') ->
  Inv a b -> foldM f (seq a n) b w = (Ok b', w') -> Inv (a + n)%nat b'.
Proof.
  revert a b w. induction n as [|n IH]; intros a b w Hf Hb E; cbn in E.
  - injection E as <- <-. rewrite Nat.add_0_r. exact Hb.
  - apply bind_ok in E as (b1 & w1 & E1 & E2).
    replace (a + S n)%nat with (S a + n)%nat by lia.
    eapply IH; [|eapply (Hf a); [lia|exact Hb|exact E1]|exact E2].
    intros m b0 w0 b0' w0' Hm. apply Hf. lia.
Qed.

Lemma outOfBounds_position p q : position p = position q -> outOfBounds p = outOfBounds q.
Proof. intros E. unfold outOfBounds, posX, posY, posZ. rewrite E. reflexivity. Qed.

Lemma checkedUpTo_eliminate g m g1 (w : World) p1 :
  checkedUpTo g m g1 -> players g1 !! m = Some p1 ->
  isEliminated p1 = false -> outOfBounds p1 = true ->
  checkedUpTo g (S m)
    (set_alivePlayers (filter (fun id => id ≠ socketId p1) (alivePlayers g1))
       (set_eliminationOrder (eliminationOrder g1 ++ [socketId p1])
          (set_players (playersAfterElimination m g1 w) g1))).
Proof.
  intros [Hlen Hinv] H1 He Ho.
  destruct (playersAfterElimination_spec m g1 w p1 H1) as [Hlen' Hps].
  split; [cbn; congruence|]. cbn [players set_alivePlayers set_eliminationOrder set_players].
  intros k p Hk. destruct (Hinv k p Hk) as (q & Hq & Iq & Pq & Eq).
  destruct (Hps k q Hq) as (q' & Hq' & Iq' & Pq' & Eq' & _).
  exists q'. split; [exact Hq'|]. split; [congruence|]. split; [congruence|].
  rewrite Eq'. destruct (decide (k = m)) as [->|Hne].
  - assert (q = p1) by congruence. subst q.
    destruct (decide (m < S m)%nat); [|lia].
    rewrite (outOfBounds_position p p1) by congruence. rewrite Ho.
    destruct (isEliminated p); reflexivity.
  - rewrite Eq.
    destruct (decide (k < m)%nat), (decide (k < S m)%nat); try lia; reflexivity.
Qed.

Lemma checkedUpTo_skip g m g1 :
  checkedUpTo g m g1 ->
  (forall p1, players g1 !! m = Some p1 -> isEliminated p1 = true \/ outOfBounds p1 = false) ->
  checkedUpTo g (S m) g1.
Proof.
  intros [Hlen Hinv] Hskip. split; [exact Hlen|].
  intros k p Hk. destruct (Hinv k p Hk) as (q & Hq & Iq & Pq & Eq).
  exists q. split; [exact Hq|]. split; [exact Iq|]. split; [exact Pq|].
  rewrite Eq. destruct (decide (k = m)) as [->|Hne].
  - destruct (decide (m < m)%nat); [lia|]. destruct (decide (m < S m)%nat); [|lia].
    destruct (Hskip q Hq) as [He|Ho].
    + rewrite <- Eq, He. reflexivity.
    + rewrite (outOfBounds_position p q) by congruence. rewrite Ho.
      destruct (isEliminated p); reflexivity.
  - destruct (decide (k < m)%nat), (decide (k < S m)%nat); try lia; reflexivity.
Qed.

Lemma checkElimination_step roomCode g m g1 (w : World) g2 w' :
  checkedUpTo g m g1 -> checkElimination roomCode g1 m w = (Ok g2, w') ->
  checkedUpTo g (S m) g2.
Proof.
  intros Hinv E. unfold checkElimination in E.
  destruct (players g1 !! m) as [p1|] eqn:H1.
  2: { injection E as <- <-. apply checkedUpTo_skip; [exact Hinv|].
       intros q Hq. congruence. }
  destruct (isEliminated p1) eqn:He.
  { injection E as <- <-. apply checkedUpTo_skip; [exact Hinv|].
    intros q Hq. left. congruence. }
  cbv zeta in E.
  destruct (eliminatePlayer_result m g1 roomCode p1 w H1) as (w1 & E1 & _).
  destruct (nltb PLATFORM_RADIUS _) eqn:Hout.
  { rewrite E1 in E. injection E as <- <-.
    apply checkedUpTo_eliminate; [exact Hinv|exact H1|exact He|].
    unfold outOfBounds. rewrite Hout. reflexivity. }
  destruct (nltb _ FALL_THRESHOLD) eqn:Hfall.
  { rewrite E1 in E. injection E as <- <-.
    apply checkedUpTo_eliminate; [exact Hinv|exact H1|exact He|].
    unfold outOfBounds. rewrite Hout, Hfall. reflexivity. }
  injection E as <- <-. apply checkedUpTo_skip; [exact Hinv|].
  intros q Hq. right. assert (q = p1) by congruence. subst q.
  unfold outOfBounds. rewrite Hout, Hfall. reflexivity.
Qed.

(** X12. [checkEliminations] always returns, and afterwards the eliminated
    players are exactly those who were eliminated before or stood beyond the
    platform's edge or below the fall threshold; the roster keeps its length
    and order, and nobody's id or position changes. *)
Theorem checkEliminations_complete g (roomCode : string) (w : World) :
  exists g' w',
    checkEliminations g roomCode w = (Ok g', w') /\
    length (players g') = length (players g) /\
    forall k p, players g !! k = Some p ->
      exists p', players g' !! k = Some p' /\
        socketId p' = socketId p /\ position p' = position p /\
        isEliminated p' = isEliminated p || outOfBounds p.
Proof.
  destruct (total_checkEliminations g roomCode w) as (g' & w' & E).
  exists g', w'. split; [exact E|].
  unfold checkEliminations in E.
  apply (foldM_seq_inv _ (checkedUpTo g)) in E.
  - destruct E as [Hlen Hinv]. split; [exact Hlen|].
    intros k p Hk. destruct (Hinv k p Hk) as (p' & Hp' & Ip & Pp & Ep).
    exists p'. rewrite decide_True in Ep by (cbn; eapply lookup_lt_Some, Hk).
    repeat split; assumption.
  - intros m b w0 b' w0' _ Hb Hstep. eapply checkElimination_step; eauto.
  - split; [reflexivity|]. intros k p Hk. exists p.
    destruct (decide (k < 0)%nat); [lia|]. repeat split. exact Hk.
Qed.

End EliminationFurther.

Section EndGameFurther.
Context {N : Number} {H : Host}.
Implicit Types g : GameData.
Implicit Types w : World.

Lemma total_creditLobbyWinner lobbyRef winnerId roomCode :
  total (creditLobbyWinner lobbyRef winnerId roomCode).
Proof. unfold creditLobbyWinner. total_tac. Qed.

Lemma total_endGame g winnerId roomCode : total (endGame g winnerId roomCode).
Proof.
  unfold endGame. cbv zeta.
  apply total_bind; [apply total_getGame|]. intros game.
  apply total_bind.
  { destruct game; [|apply total_ret].
    repeat (apply total_bind; [apply total_clearIfSet|intros ?]).
    apply total_creditLobbyWinner. }
  intros _. total_tac.
Qed.

(** What [creditLobbyWinner] touches: the lobby's players, and the outbox
    with at most one [lobby:player-list-update] to the room. *)
Lemma creditLobbyWinner_effect lobbyRef winnerId roomCode w w' :
  creditLobbyWinner lobbyRef winnerId roomCode w = (Ok tt, w') ->
  activeGames w' = activeGames w /\ timers w' = timers w /\
  nextTimer w' = nextTimer w /\
  exists updates,
    outbox w' = outbox w ++ updates /\
    (updates = [] \/
     exists v, updates = [mkEmit (ToRoom roomCode) "lobby:player-list-update" v]).
Proof.
  unfold creditLobbyWinner, getLobby, mbind, M_bind.
  destruct (lobbyObjs w !! lobbyRef) as [lobby|].
  2: { intros [= <-]. repeat split. exists []. rewrite app_nil_r. auto. }
  destruct (list_find _ _) as [[k lobbyWinner]|].
  2: { intros [= <-]. repeat split. exists []. rewrite app_nil_r. auto. }
  cbn. intros [= <-]. cbn. repeat split. eexists. split; [reflexivity|]. right. eauto.
Qed.

Lemma clearIfSet_effect (h : option nat) w w' :
  clearIfSet h w = (Ok tt, w') ->
  activeGames w' = activeGames w /\ nextTimer w' = nextTimer w /\
  outbox w' = outbox w /\
  (forall k, timers w !! k = None -> timers w' !! k = None) /\
  (forall k, h = Some k -> timers w' !! k = None).
Proof.
  destruct h as [h|]; cbn; intros [= <-]; cbn; repeat split; try discriminate.
  - intros k Hk. destruct (decide (h = k)) as [->|Hne].
    + apply lookup_delete_eq.
    + rewrite lookup_delete_ne by exact Hne. exact Hk.
  - intros k [= ->]. apply lookup_delete_eq.
  - auto.
Qed.

Lemma endGame_run g (winnerId : option string) (roomCode : string) w :
  exists w',
    endGame g winnerId roomCode w
    = (Ok (set_winnerId winnerId (set_status ended g)), w') /\
    (exists updates payload,
       outbox w' = outbox w ++ updates
                   ++ [mkEmit (ToRoom roomCode) "bumper:game-end" payload] /\
       field "winnerId" payload = JStr <$> winnerId /\
       (updates = [] \/
        exists v, updates = [mkEmit (ToRoom roomCode) "lobby:player-list-update" v])) /\
    timers w' !! nextTimer w = Some (CleanupTask roomCode) /\
    nextTimer w' = S (nextTimer w) /\
    (forall e h, activeGames w !! roomCode = Some e ->
       h ∈ [Game.gameLoop e; Game.syncLoop e; Game.cleanupTimeout e] ->
       forall k, h = Some k -> k ≠ nextTimer w -> timers w' !! k = None) /\
    activeGames w' !! roomCode
    = Game.set_cleanupTimeout (Some (nextTimer w)) <$> activeGames w !! roomCode /\
    (forall r, r ≠ roomCode -> activeGames w' !! r = activeGames w !! r).
Proof.
  destruct (total_endGame g winnerId roomCode w) as (g' & w' & E).
  exists w'. rewrite E. unfold endGame in E. cbv zeta in E.
  apply bind_ok in E as (game & w0 & E0 & E). injection E0 as <- <-.
  apply bind_ok in E as ([] & w1 & E1 & E).
  apply bind_ok in E as ([] & w2 & E2 & E). injection E2 as <-.
  apply bind_ok in E as (h & w3 & E3 & E). injection E3 as <- <-.
  apply bind_ok in E as ([] & w4 & E4 & E). injection E as <- <-.
  assert (H1 : activeGames w1 = activeGames w /\ nextTimer w1 = nextTimer w /\
               (exists updates,
                  outbox w1 = outbox w ++ updates /\
                  (updates = [] \/
                   exists v, updates
                     = [mkEmit (ToRoom roomCode) "lobby:player-list-update" v])) /\
               (forall e h, activeGames w !! roomCode = Some e ->
                  h ∈ [Game.gameLoop e; Game.syncLoop e; Game.cleanupTimeout e] ->
                  forall k, h = Some k -> timers w1 !! k = None)).
  { destruct (activeGames w !! roomCode) as [e|] eqn:He.
    - apply bind_ok in E1 as ([] & wa & Ea & E1).
      apply bind_ok in E1 as ([] & wb & Eb & E1).
      apply bind_ok in E1 as ([] & wc & Ec & E1).
      apply clearIfSet_effect in Ea as (Aa & Na & Oa & Ka & Ca).
      apply clearIfSet_effect in Eb as (Ab & Nb & Ob & Kb & Cb).
      apply clearIfSet_effect in Ec as (Ac & Nc & Oc & Kc & Cc).
      apply creditLobbyWinner_effect in E1 as (Ad & Td & Nd & upd & Od & Hupd).
      split; [congruence|]. split; [congruence|]. split.
      + exists upd. split; [congruence|exact Hupd].
      + intros e' h' [= <-] Hh k Hk. rewrite Td.
        rewrite !elem_of_cons in Hh. destruct Hh as [->|[->|[->|Hh]]].
        * apply Kc, Kb, Ca, Hk.
        * apply Kc, Cb, Hk.
        * apply Cc, Hk.
        * apply elem_of_nil in Hh. contradiction.
    - injection E1 as <-. repeat split. 2: intros ? ? [=].
      exists []. rewrite app_nil_r. auto. }
  destruct H1 as (A1 & N1 & (upd & O1 & Hupd) & K1).
  split; [reflexivity|].
  assert (Hw4 : timers w4 = <[nextTimer w := CleanupTask roomCode]> (timers w1) /\
                nextTimer w4 = S (nextTimer w) /\
                outbox w4 = outbox w1 ++
                  [mkEmit (ToRoom roomCode) "bumper:game-end"
                     (JObj (optField "winnerId" (JStr <$> winnerId)
                            ++ [("winnerName", JStr
                                   match findPlayer winnerId (players g) with
                                   | Some (_, p) =>
                                       if strTruthy (name p) then name p else "Unknown"
                                   | None => "Unknown"
                                   end);
                                ("finalScores",
                                 JArr (map (finalScore (set_winnerId winnerId
                                                          (set_status ended g)))
                                         (players g)));
                                ("gameData",
                                 sanitizeGameData
                                   (set_winnerId winnerId (set_status ended g)))]%string))] /\
                activeGames w4 !! roomCode
                = Game.set_cleanupTimeout (Some (nextTimer w)) <$> activeGames w !! roomCode /\
                (forall r, r ≠ roomCode -> activeGames w4 !! r = activeGames w !! r)).
  { destruct (activeGames w !! roomCode) as [e|] eqn:He.
    - injection E4 as <-. cbn. rewrite N1, A1. repeat split.
      + rewrite lookup_alter_eq, He. reflexivity.
      + intros r Hr. rewrite lookup_alter_ne by congruence. reflexivity.
    - injection E4 as <-. cbn. rewrite N1, A1. repeat split.
      + rewrite He. reflexivity. }
  destruct Hw4 as (T4 & N4 & O4 & A4 & R4).
  split.
  { exists upd. eexists. split; [rewrite O4, O1, <- app_assoc; reflexivity|].
    split; [|exact Hupd]. destruct winnerId; reflexivity. }
  split; [rewrite T4; apply lookup_insert_eq|].
  split; [exact N4|]. split; [|split; [exact A4|exact R4]].
  intros e h0 He Hh k Hk Hne. rewrite T4, lookup_insert_ne by congruence.
  eapply K1; eauto.
Qed.

Lemma eventsNamed_app (ev : string) (a b : list Emit) :
  eventsNamed ev (a ++ b) = eventsNamed ev a ++ eventsNamed ev b.
Proof. apply filter_app. Qed.

Lemma gameEnd_once roomCode (out out' updates : list Emit) payload :
  out' = out ++ updates ++ [mkEmit (ToRoom roomCode) "bumper:game-end" payload] ->
  (updates = [] \/
   exists v, updates = [mkEmit (ToRoom roomCode) "lobby:player-list-update" v]) ->
  eventsNamed "bumper:game-end" out'
  = eventsNamed "bumper:game-end" out
    ++ [mkEmit (ToRoom roomCode) "bumper:game-end" payload].
Proof.
  intros -> Hupd. rewrite !eventsNamed_app. f_equal.
  destruct Hupd as [->|[v ->]]; reflexivity.
Qed.

(** X13. What ending a game does.  [endGame] returns the game data with
    [status] set to [ended] and [winnerId] to the winner it was given, and
    nothing else changed.  It sends exactly one [bumper:game-end], to the
    room, after at most one [lobby:player-list-update] to the room and
    nothing else.  It schedules the clean up under a fresh handle; the
    physics and sync intervals and an earlier clean up of the room's entry
    are no longer pending; the entry records the new clean up and is
    otherwise as before, and no other room's entry changes. *)
Theorem endGame_effect g (winnerId : option string) (roomCode : string) w :
  exists w',
    endGame g winnerId roomCode w
    = (Ok (set_winnerId winnerId (set_status ended g)), w') /\
    (exists updates payload,
       outbox w' = outbox w ++ updates
                   ++ [mkEmit (ToRoom roomCode) "bumper:game-end" payload] /\
       field "winnerId" payload = JStr <$> winnerId /\
       (updates = [] \/
        exists v, updates = [mkEmit (ToRoom roomCode) "lobby:player-list-update" v])) /\
    timers w' !! nextTimer w = Some (CleanupTask roomCode) /\
    nextTimer w' = S (nextTimer w) /\
    (forall e h, activeGames w !! roomCode = Some e ->
       h ∈ [Game.gameLoop e; Game.syncLoop e; Game.cleanupTimeout e] ->
       forall k, h = Some k -> k ≠ nextTimer w -> timers w' !! k = None) /\
    activeGames w' !! roomCode
    = Game.set_cleanupTimeout (Some (nextTimer w)) <$> activeGames w !! roomCode /\
    (forall r, r ≠ roomCode -> activeGames w' !! r = activeGames w !! r).
Proof. apply endGame_run. Qed.

(** X14. The victory check outside timed mode.  While the game is playing
    and at most one player is left alive, [checkVictoryCondition] ends the
    game once: the data it returns has status [ended] and as winner the
    survivor or, with nobody left, the last player eliminated, and exactly
    one [bumper:game-end] is added, carrying that winner.  In every other
    case (the game is not playing, or two or more players are alive) it
    returns the data and leaves the world as they are. *)
Theorem checkVictoryCondition_untimed g (roomCode : string) w :
  gameMode g <> timed ->
  exists g' w',
    checkVictoryCondition g roomCode w = (Ok g', w') /\
    if decided g then
      g' = set_winnerId (lastStanding g) (set_status ended g) /\
      exists payload,
        eventsNamed "bumper:game-end" (outbox w')
        = eventsNamed "bumper:game-end" (outbox w)
          ++ [mkEmit (ToRoom roomCode) "bumper:game-end" payload] /\
        field "winnerId" payload = JStr <$> lastStanding g
    else g' = g /\ w' = w.
Proof.
  intros Hmode. unfold checkVictoryCondition, lastStanding, decided.
  destruct (status g) eqn:Hs; eauto.
  destruct (alivePlayers g) as [|a [|b rest]] eqn:Ha; cbn [length Nat.eqb].
  - unfold mbind, M_bind at 1. cbn [mret M_ret]. rewrite Ha. cbn [length Nat.eqb].
    destruct (endGame_run g (last (eliminationOrder g)) roomCode w)
      as (w' & E & (upd & payload & O & F & Hupd) & _).
    unfold mbind, M_bind. rewrite E.
    exists (set_winnerId (last (eliminationOrder g)) (set_status ended g)), w'.
    split; [cbn; destruct (gameMode g); try reflexivity; contradiction|].
    split; [reflexivity|]. exists payload. split; [|exact F].
    eapply gameEnd_once; eauto.
  - destruct (endGame_run g (Some a) roomCode w)
      as (w' & E & (upd & payload & O & F & Hupd) & _).
    unfold mbind, M_bind. cbn [lookup list_lookup]. rewrite E. cbn [alivePlayers set_winnerId set_status].
    rewrite Ha. cbn [length Nat.eqb mret M_ret].
    exists (set_winnerId (Some a) (set_status ended g)), w'.
    split; [cbn; destruct (gameMode g); try reflexivity; contradiction|].
    split; [reflexivity|]. exists payload. split; [|exact F].
    eapply gameEnd_once; eauto.
  - unfold mbind, M_bind. cbn [mret M_ret]. rewrite Ha. cbn [length Nat.eqb].
    exists g, w. split; [cbn; destruct (gameMode g); try reflexivity; contradiction|cbn; auto].
Qed.

End EndGameFurther.

Section FurtherWitnesses.
#[local] Existing Instance floatHost.

Lemma eliminatePlayer_credit_witness :
  players bumpedGame !! 1%nat = Some bumpedBob /\
  exists g' w' ann hitTime,
    eliminatePlayer 1 bumpedGame "ROOM" midGameWorld = (Ok g', w') /\
    players g' !! 0%nat = Some ann /\
    socketId ann = "s1"%string /\ eliminations ann = 1%nat /\
    lastHitBy bumpedBob = Some "s1"%string /\
    lastHitTime bumpedBob = Some hitTime /\
    (clock 1 - hitTime <? #3000)%js = true.
Proof.
  split; [reflexivity|].
  destruct (eliminatePlayer_credit 1 bumpedGame "ROOM" bumpedBob midGameWorld eq_refl)
    as (g' & w' & credited & E & _ & Hp & Hc).
  destruct (Hp 0%nat (fball "s1" "Ann" (fvec 0 1 0) (fvec 0 0 0) false 0) eq_refl)
    as (ann & Hann & Hid & _ & He).
  assert (Hone : eliminations ann = 1%nat).
  { pose proof E as E'. vm_compute in E'. injection E' as <- _.
    vm_compute in Hann. injection Hann as <-. reflexivity. }
  assert (Hcred : credited = Some 0%nat).
  { rewrite Hone in He. destruct (decide (credited = Some 0%nat)); [assumption|discriminate]. }
  destruct (Hc 0%nat Hcred) as (_ & p & hitTime & Hp0 & _ & Hby & Hat & Hwin).
  injection Hp0 as <-.
  exists g', w', ann, hitTime. split; [exact E|]. split; [exact Hann|].
  split; [exact Hid|]. split; [exact Hone|]. split; [exact Hby|]. split; [exact Hat|].
  exact Hwin.
Defined.

Lemma checkVictoryCondition_untimed_witness :
  gameMode lastOneGame <> timed /\
  decided lastOneGame = true /\
  exists g' w' payload,
    checkVictoryCondition lastOneGame "ROOM" lastOneWorld = (Ok g', w') /\
    status g' = ended /\ winnerId g' = Some "s1"%string /\
    eventsNamed "bumper:game-end" (outbox w')
    = eventsNamed "bumper:game-end" (outbox lastOneWorld)
      ++ [mkEmit (ToRoom "ROOM") "bumper:game-end" payload] /\
    field "winnerId" payload = Some (JStr "s1").
Proof.
  split; [discriminate|]. split; [reflexivity|].
  destruct (checkVictoryCondition_untimed lastOneGame "ROOM" lastOneWorld
              ltac:(discriminate)) as (g' & w' & E & Hres).
  change (decided lastOneGame) with true in Hres. cbv iota in Hres.
  destruct Hres as (Hg & payload & Hev & Hf).
  exists g', w', payload. split; [exact E|].
  split; [rewrite Hg; reflexivity|]. split; [rewrite Hg; reflexivity|].
  split; [exact Hev|exact Hf].
Defined.

End FurtherWitnesses.

(** Flattens the nested field updates of a world in [E]. *)
Ltac flat_world E :=
  cbn [activeGames set_activeGames set_clockReads set_nextGameData set_lobbyObjs
       set_outbox set_timers set_nextTimer set_uuidDraws set_lobbies nextGameData
       lobbyObjs timers nextTimer outbox clockReads uuidDraws lobbies] in E.

Section LifecycleFurther.
Context {N : Number} {H : Host}.
Implicit Types w : World.

Lemma clearIfSet_eq (h : option nat) w :
  clearIfSet h w = (Ok tt, set_timers (cancel h (timers w)) w).
Proof. destruct h; [reflexivity|]. destruct w; reflexivity. Qed.

Lemma alter_lookup_insert {K A} `{Countable K} (f : A -> A) (k : K) (m : gmap K A) x :
  m !! k = Some x -> alter f k m = <[k := f x]> m.
Proof.
  intros Hx. apply map_eq. intros j. destruct (decide (j = k)) as [->|Hne].
  - rewrite lookup_alter_eq, lookup_insert_eq, Hx. reflexivity.
  - rewrite lookup_alter_ne, lookup_insert_ne by congruence. reflexivity.
Qed.

Lemma newGameData_fresh (lobby : Lobby) w :
  exists g, newGameData lobby w = (Ok g, set_clockReads (S (S (clockReads w))) w) /\
            freshGame lobby g.
Proof.
  eexists. split; [destruct w; reflexivity|]. unfold freshGame.
  cbn [status countdownValue gameMode players alivePlayers eliminationOrder winnerId].
  assert (Hids : map socketId (imap (spawnPlayer (length (Lobby.players lobby)))
                                 (Lobby.players lobby))
                 = map Player.socketId (Lobby.players lobby)).
  { apply list_eq. intros i.
    change (map socketId ?l) with (socketId <$> l).
    change (map Player.socketId ?l) with (Player.socketId <$> l).
    rewrite !list_lookup_fmap, list_lookup_imap.
    destruct (Lobby.players lobby !! i); reflexivity. }
  repeat split; try exact Hids.
  apply Forall_forall. intros p (i & x & -> & _)%elem_of_lookup_imap. split; reflexivity.
Qed.

Ltac flat_world_goal :=
  cbv beta iota delta
    [activeGames set_activeGames set_clockReads set_nextGameData set_lobbyObjs
     set_outbox set_timers set_nextTimer set_uuidDraws set_lobbies nextGameData
     lobbyObjs timers nextTimer outbox clockReads uuidDraws lobbies].

(** One step of a computation [E : (m ≫= f) w = (Ok b, w')] from a world
    given by its fields: the world [m] leaves is again given by its fields. *)
Ltac world_step E :=
  let a := fresh "a" in
  let w := fresh "w" in
  let E1 := fresh "E" in
  apply bind_ok in E as (a & w & E1 & E);
  try rewrite clearIfSet_eq in E1;
  cbv beta iota delta
    [get getGame getLobby modify emit updGame updLobby setTimer clearTimer
     newGameDataId newUUID Date_now errorTo stateUpdate mret M_ret
     activeGames set_activeGames set_clockReads set_nextGameData set_lobbyObjs
     set_outbox set_timers set_nextTimer set_uuidDraws set_lobbies nextGameData
     lobbyObjs timers nextTimer outbox clockReads uuidDraws lobbies] in E1;
  injection E1 as <- <-.

(** ... and its last step. *)
Ltac world_last E :=
  try rewrite clearIfSet_eq in E;
  cbv beta iota delta
    [get getGame getLobby modify emit updGame updLobby setTimer clearTimer
     newGameDataId newUUID Date_now errorTo stateUpdate mret M_ret
     activeGames set_activeGames set_clockReads set_nextGameData set_lobbyObjs
     set_outbox set_timers set_nextTimer set_uuidDraws set_lobbies nextGameData
     lobbyObjs timers nextTimer outbox clockReads uuidDraws lobbies] in E;
  injection E as <-.

Lemma total_onBumperRestart socket roomCode : total (onBumperRestart socket roomCode).
Proof.
  unfold onBumperRestart, errorTo, startCountdown, newGameData. total_tac.
Qed.

(** X15. The restart handler turns away everybody but the host of a room with a
    game: the requester is sent one [error], and nothing else happens; the
    game, its timers and the lobby are as before. *)
Theorem restart_denied (socket roomCode : string) w :
  (forall e l, activeGames w !! roomCode = Some e ->
               lobbyObjs w !! Game.lobby e = Some l -> Lobby.hostId l <> socket) ->
  exists message,
    onBumperRestart socket roomCode w
    = (Ok tt, set_outbox (outbox w ++ [mkEmit (ToSocket socket) "error"
                                        (JObj [("message", JStr message)]%string)]) w).
Proof.
  intros Hdeny. unfold onBumperRestart, getGame, getLobby, mbind, M_bind.
  destruct (activeGames w !! roomCode) as [e|] eqn:He; [|eexists; reflexivity].
  destruct (lobbyObjs w !! Game.lobby e) as [l|] eqn:Hl; [|eexists; reflexivity].
  destruct (String.eqb (Lobby.hostId l) socket) eqn:Eq; [|eexists; reflexivity].
  apply String.eqb_eq in Eq. destruct (Hdeny e l eq_refl Hl Eq).
Qed.

(** X16. A restart by the host.  Whatever state the room's game was in, the
    handler returns, and the room's entry then holds fresh game data under a
    new stamp, with no physics, sync or clean up timer and the new countdown
    as its only interval.  Every timer of the old entry is cancelled, the
    lobby points at the new game data, and the room is sent one
    [game:started]. *)
Theorem restart_by_host (socket roomCode : string) w e l :
  activeGames w !! roomCode = Some e ->
  lobbyObjs w !! Game.lobby e = Some l ->
  Lobby.hostId l = socket ->
  Lobby.code l = roomCode ->
  exists g w',
    onBumperRestart socket roomCode w = (Ok tt, w') /\
    freshGame l g /\
    activeGames w'
    = <[roomCode := Game.mk (Game.lobby e) g (nextGameData w) None None
                      (Some (nextTimer w)) None]> (activeGames w) /\
    timers w'
    = <[nextTimer w := CountdownTask roomCode (nextGameData w) COUNTDOWN_DURATION]>
        (cancel (Game.cleanupTimeout e)
           (cancel (Game.countdownInterval e)
              (cancel (Game.syncLoop e) (cancel (Game.gameLoop e) (timers w))))) /\
    lobbyObjs w'
    = <[Game.lobby e := Lobby.set_gameData (Some (nextGameData w)) l]> (lobbyObjs w) /\
    outbox w'
    = outbox w ++ [mkEmit (ToRoom roomCode) "game:started" (gameStartedPayload l g)].
Proof.
  intros He Hl Hhost Hcode.
  destruct (total_onBumperRestart socket roomCode w) as ([] & w' & E).
  assert (Hrun : exists g,
            freshGame l g /\
            w' = set_activeGames
                   (<[roomCode := Game.mk (Game.lobby e) g (nextGameData w) None None
                                    (Some (nextTimer w)) None]> (activeGames w))
                   (set_nextTimer (S (nextTimer w))
                      (set_timers
                         (<[nextTimer w := CountdownTask roomCode (nextGameData w)
                                             COUNTDOWN_DURATION]>
                            (cancel (Game.cleanupTimeout e)
                               (cancel (Game.countdownInterval e)
                                  (cancel (Game.syncLoop e)
                                     (cancel (Game.gameLoop e) (timers w))))))
                         (set_outbox
                            (outbox w ++ [mkEmit (ToRoom roomCode) "game:started"
                                            (gameStartedPayload l g)])
                            (set_lobbyObjs
                               (<[Game.lobby e := Lobby.set_gameData
                                                    (Some (nextGameData w)) l]>
                                  (lobbyObjs w))
                               (set_nextGameData (S (nextGameData w))
                                  (set_clockReads (S (S (clockReads w))) w))))))).
  { destruct w as [ag lb lo tm nt ng ob cr ud]. cbn [activeGames lobbyObjs] in He, Hl.
    flat_world_goal.
    unfold onBumperRestart in E.
    world_step E. rewrite He in E.
    world_step E. rewrite Hl in E.
    replace (String.eqb (Lobby.hostId l) socket) with true in E
      by (symmetry; apply String.eqb_eq, Hhost).
    cbn [negb] in E.
    do 5 world_step E.
    apply bind_ok in E as (g & w6 & E6 & E).
    match type of E6 with
    | newGameData l ?W = _ =>
        destruct (newGameData_fresh l W) as (g' & Eg & Hfresh); rewrite Eg in E6
    end.
    flat_world E6. injection E6 as <- <-. exists g'. split; [exact Hfresh|].
    do 4 world_step E.
    rewrite Hcode in E. unfold startCountdown in E.
    world_step E. rewrite !lookup_alter_eq, He in E.
    cbn [fmap option_fmap option_map] in E.
    world_step E. world_last E.
    f_equal.
    - rewrite (alter_lookup_insert _ _ ag e He). rewrite !alter_insert_eq.
      destruct e; reflexivity.
    - apply alter_lookup_insert, Hl. }
  destruct Hrun as (g & Hfresh & ->). exists g. eexists. split; [exact E|].
  split; [exact Hfresh|]. repeat split.
Qed.

Lemma stale_timer_run (h : nat) w task (roomCode : string) (gameDataId : nat) :
  timers w !! h = Some task ->
  taskSession task = Some (roomCode, gameDataId) ->
  (forall e, activeGames w !! roomCode = Some e -> Game.gameDataId e <> gameDataId) ->
  fireTimer h w = (Ok tt, set_timers (delete h (timers w)) w).
Proof.
  intros Ht Hs Hstale. unfold fireTimer, get, mbind, M_bind. rewrite Ht.
  assert (Hcur : currentGameOf roomCode gameDataId w = (Ok None, w)).
  { unfold currentGameOf, getGame, mbind, M_bind.
    destruct (activeGames w !! roomCode) as [e|] eqn:He; [|reflexivity].
    destruct (Nat.eqb_spec (Game.gameDataId e) gameDataId) as [Eq|_]; [|reflexivity].
    destruct (Hstale e eq_refl Eq). }
  destruct task; try discriminate; injection Hs as -> ->;
    unfold countdownTick, gameLoopTick, syncLoopTick, mbind, M_bind;
    rewrite Hcur; reflexivity.
Qed.

(** X17. An interval of a session that is no longer the room's current one
    retires when it fires: it clears itself and touches nothing else.  This
    holds for the countdown, the physics and the sync interval, when the room
    has no entry or its entry holds another game data object. *)
Theorem stale_timer_retires (h : nat) w task (roomCode : string) (gameDataId : nat) :
  timers w !! h = Some task ->
  taskSession task = Some (roomCode, gameDataId) ->
  (forall e, activeGames w !! roomCode = Some e -> Game.gameDataId e <> gameDataId) ->
  fireTimer h w = (Ok tt, set_timers (delete h (timers w)) w).
Proof. apply stale_timer_run. Qed.

End LifecycleFurther.

Section CountdownFurther.
Context {N : Number} {H : Host}.
Implicit Types w : World.

Lemma countdown_fire (h : nat) (roomCode : string) w e (count : Z) :
  timers w !! h = Some (CountdownTask roomCode (Game.gameDataId e) count) ->
  activeGames w !! roomCode = Some e ->
  (0 < count)%Z ->
  fireTimer h w
  = (Ok tt,
     set_timers (<[h := CountdownTask roomCode (Game.gameDataId e) (count - 1)]> (timers w))
       (set_outbox (outbox w ++ [stateUpdateOf roomCode
                                   (set_countdownValue (Some count) (Game.gameData e))])
          (set_activeGames
             (<[roomCode := Game.set_gameData
                              (set_countdownValue (Some count) (Game.gameData e)) e]>
                (activeGames w)) w))).
Proof.
  intros Ht He Hc. unfold fireTimer, get, mbind, M_bind. rewrite Ht.
  unfold countdownTick, currentGameOf, getGame, mbind, M_bind. rewrite He.
  rewrite Nat.eqb_refl. cbn [mret M_ret].
  unfold updGame, stateUpdate, emit, modify.
  cbn [activeGames set_activeGames set_clockReads set_nextGameData set_lobbyObjs
       set_outbox set_timers set_nextTimer nextGameData lobbyObjs timers nextTimer
       outbox clockReads uuidDraws lobbies].
  destruct (Z.ltb_spec (count - 1) 0) as [Hlt|_]; [lia|].
  cbn [mret M_ret]. unfold stateUpdateOf.
  rewrite (alter_lookup_insert _ _ (activeGames w) e He).
  rewrite (alter_lookup_insert _ _ (timers w) _ Ht). reflexivity.
Qed.

Lemma countdown_last_fire (h : nat) (roomCode : string) w e :
  timers w !! h = Some (CountdownTask roomCode (Game.gameDataId e) 0) ->
  activeGames w !! roomCode = Some e ->
  exists w',
    fireTimer h w = (Ok tt, w') /\
    activeGames w'
    = <[roomCode :=
          Game.mk (Game.lobby e)
            (set_lastTickTime (clock (S (clockReads w)))
               (set_startTime (clock (clockReads w))
                  (set_status playing (set_countdownValue (Some 0%Z) (Game.gameData e)))))
            (Game.gameDataId e) (Some (nextTimer w)) (Some (S (nextTimer w))) None
            (Game.cleanupTimeout e)]> (activeGames w) /\
    timers w'
    = <[S (nextTimer w) := SyncLoopTask roomCode (Game.gameDataId e)]>
        (<[nextTimer w := GameLoopTask roomCode (Game.gameDataId e)]>
           (delete h (timers w))) /\
    outbox w'
    = outbox w
      ++ [stateUpdateOf roomCode (set_countdownValue (Some 0%Z) (Game.gameData e));
          stateUpdateOf roomCode
            (set_lastTickTime (clock (S (clockReads w)))
               (set_startTime (clock (clockReads w))
                  (set_status playing
                     (set_countdownValue (Some 0%Z) (Game.gameData e)))))].
Proof.
  intros Ht He. unfold fireTimer, get, mbind, M_bind. rewrite Ht.
  unfold countdownTick, currentGameOf, getGame, mbind, M_bind. rewrite He.
  rewrite Nat.eqb_refl. cbn [mret M_ret].
  unfold updGame, stateUpdate, emit, modify, clearTimer, modify.
  cbn [activeGames set_activeGames set_clockReads set_nextGameData set_lobbyObjs
       set_outbox set_timers set_nextTimer nextGameData lobbyObjs timers nextTimer
       outbox clockReads uuidDraws lobbies].
  change (0 - 1 <? 0)%Z with true. cbv iota.
  unfold startGameLoop, Date_now, getGame, stateUpdate, emit, setTimer, updGame, modify,
    mbind, M_bind.
  cbn [activeGames set_activeGames set_clockReads set_nextGameData set_lobbyObjs
       set_outbox set_timers set_nextTimer nextGameData lobbyObjs timers nextTimer
       outbox clockReads uuidDraws lobbies mret M_ret].
  rewrite !lookup_alter_eq, He. cbn [fmap option_fmap option_map].
  cbn [activeGames set_activeGames set_clockReads set_nextGameData set_lobbyObjs
       set_outbox set_timers set_nextTimer nextGameData lobbyObjs timers nextTimer
       outbox clockReads uuidDraws lobbies mret M_ret].
  eexists. split; [reflexivity|].
  cbn [activeGames set_activeGames set_clockReads set_nextGameData set_lobbyObjs
       set_outbox set_timers set_nextTimer nextGameData lobbyObjs timers nextTimer
       outbox clockReads uuidDraws lobbies mret M_ret].
  split; [|split].
  - rewrite (alter_lookup_insert _ _ (activeGames w) e He), !alter_insert_eq.
    destruct e; reflexivity.
  - do 2 f_equal. apply map_eq. intros k. destruct (decide (k = h)) as [->|Hne].
    + rewrite !lookup_delete_eq. reflexivity.
    + rewrite !lookup_delete_ne, lookup_alter_ne by congruence. reflexivity.
  - rewrite <- app_assoc. reflexivity.
Qed.

(** The countdown values announced by the first [n] ticks of a countdown
    from [count]. *)
Lemma countdown_steps (h : nat) (roomCode : string) (n : nat) :
  forall w e (count : Z),
    timers w !! h = Some (CountdownTask roomCode (Game.gameDataId e) count) ->
    activeGames w !! roomCode = Some e ->
    (Z.of_nat n <= count)%Z ->
    exists w',
      fires h n w = (Ok tt, w') /\
      timers w'
      = <[h := CountdownTask roomCode (Game.gameDataId e) (count - Z.of_nat n)]> (timers w) /\
      activeGames w'
      = match n with
        | O => activeGames w
        | S _ =>
            <[roomCode :=
                Game.set_gameData
                  (set_countdownValue (Some (count - Z.of_nat n + 1)%Z) (Game.gameData e)) e]>
              (activeGames w)
        end /\
      outbox w'
      = outbox w
        ++ map (fun k => stateUpdateOf roomCode
                           (set_countdownValue (Some (count - Z.of_nat k)%Z) (Game.gameData e)))
             (seq 0 n) /\
      nextTimer w' = nextTimer w /\ clockReads w' = clockReads w.
Proof.
  induction n as [|n IH]; intros w e count Ht He Hn.
  - exists w. split; [reflexivity|]. rewrite Z.sub_0_r, insert_id by exact Ht.
    cbn [seq map]. rewrite app_nil_r. auto.
  - cbn [fires]. unfold mbind, M_bind.
    rewrite (countdown_fire h roomCode w e count Ht He) by lia.
    match goal with |- context [fires h n ?W] => set (w1 := W) end.
    destruct (IH w1 (Game.set_gameData (set_countdownValue (Some count) (Game.gameData e)) e)
                (count - 1)%Z) as (w' & E & T & A & O & NT & CR).
    { apply lookup_insert_eq. }
    { apply lookup_insert_eq. }
    { lia. }
    exists w'. split; [exact E|].
    cbn [activeGames set_activeGames set_clockReads set_nextGameData set_lobbyObjs
         set_outbox set_timers set_nextTimer nextGameData lobbyObjs timers nextTimer
         outbox clockReads uuidDraws lobbies w1 Game.gameDataId Game.set_gameData
         Game.gameData] in T, A, O, NT, CR.
    split; [|split; [|split; [|split; [exact NT|exact CR]]]].
    + rewrite T, insert_insert_eq.
      replace (count - 1 - Z.of_nat n)%Z with (count - Z.of_nat (S n))%Z by lia.
      reflexivity.
    + rewrite A. destruct n as [|n].
      * replace (count - Z.of_nat 1 + 1)%Z with count by lia. reflexivity.
      * rewrite insert_insert_eq. f_equal.
        replace (count - 1 - Z.of_nat (S n) + 1)%Z with (count - Z.of_nat (S (S n)) + 1)%Z
          by lia.
        destruct e; reflexivity.
    + rewrite O, <- app_assoc. f_equal. cbn [seq map app]. rewrite Z.sub_0_r. f_equal.
      rewrite <- seq_shift, map_map. apply map_ext. intros k.
      replace (count - 1 - Z.of_nat k)%Z with (count - Z.of_nat (S k))%Z by lia.
      destruct e as [? g ? ? ? ? ?]; destruct g; reflexivity.
Qed.

Lemma fires_snoc (h n : nat) w :
  fires h (S n) w
  = match fires h n w with
    | (Ok _, w') => fireTimer h w'
    | (Throw e, w') => (Throw e, w')
    end.
Proof.
  revert w. induction n as [|n IH]; intros w.
  - cbn [fires]. unfold mbind, M_bind. cbn [mret M_ret].
    destruct (fireTimer h w) as [[[]|err] w']; reflexivity.
  - change (fires h (S (S n)) w) with ((fireTimer h ≫= fun _ => fires h (S n)) w).
    change (fires h (S n) w) with ((fireTimer h ≫= fun _ => fires h n) w).
    unfold mbind, M_bind. destruct (fireTimer h w) as [[[]|err] w1]; [apply IH|reflexivity].
Qed.

(** X18. The countdown.  While the room keeps the game data the countdown was
    started for, the first [n] ticks of a countdown from [count], for [n] up
    to [count], announce the values [count], [count - 1], ... to the room,
    one [bumper:state-update] each, and leave the interval pending and the
    status as it was.  The tick after these, which shows 0, starts play: the
    status is [playing], start and tick time are two fresh readings of the
    clock, the countdown interval is gone, the physics and the sync interval
    are set under the next two handles, and the room is sent the 0 and then
    the playing state. *)
Theorem countdown_run (h : nat) (roomCode : string) w e (count : Z) :
  timers w !! h = Some (CountdownTask roomCode (Game.gameDataId e) count) ->
  activeGames w !! roomCode = Some e ->
  (0 <= count)%Z ->
  (forall n, (Z.of_nat n <= count)%Z ->
     exists w',
       fires h n w = (Ok tt, w') /\
       timers w' !! h
       = Some (CountdownTask roomCode (Game.gameDataId e) (count - Z.of_nat n)) /\
       (exists e', activeGames w' !! roomCode = Some e' /\
                   status (Game.gameData e') = status (Game.gameData e) /\
                   ((0 < n)%nat ->
                    countdownValue (Game.gameData e')
                    = Some (count - Z.of_nat n + 1)%Z)) /\
       outbox w'
       = outbox w
         ++ map (fun k => stateUpdateOf roomCode
                            (set_countdownValue (Some (count - Z.of_nat k)%Z)
                               (Game.gameData e)))
              (seq 0 n)) /\
  exists w',
    fires h (S (Z.to_nat count)) w = (Ok tt, w') /\
    let playingData :=
      set_lastTickTime (clock (S (clockReads w)))
        (set_startTime (clock (clockReads w))
           (set_status playing (set_countdownValue (Some 0%Z) (Game.gameData e)))) in
    activeGames w' !! roomCode
    = Some (Game.mk (Game.lobby e) playingData (Game.gameDataId e)
              (Some (nextTimer w)) (Some (S (nextTimer w))) None (Game.cleanupTimeout e)) /\
    timers w'
    = <[S (nextTimer w) := SyncLoopTask roomCode (Game.gameDataId e)]>
        (<[nextTimer w := GameLoopTask roomCode (Game.gameDataId e)]>
           (delete h (timers w))) /\
    outbox w'
    = outbox w
      ++ map (fun k => stateUpdateOf roomCode
                         (set_countdownValue (Some (count - Z.of_nat k)%Z)
                            (Game.gameData e)))
           (seq 0 (S (Z.to_nat count)))
      ++ [stateUpdateOf roomCode playingData].
Proof.
  intros Ht He Hc. split.
  - intros n Hn.
    destruct (countdown_steps h roomCode n w e count Ht He Hn)
      as (w' & E & T & A & O & _ & _).
    exists w'. split; [exact E|]. split; [rewrite T; apply lookup_insert_eq|].
    split; [|exact O]. rewrite A. destruct n as [|n].
    + exists e. split; [exact He|]. split; [reflexivity|lia].
    + eexists. split; [apply lookup_insert_eq|]. split; reflexivity.
  - rewrite fires_snoc.
    destruct (countdown_steps h roomCode (Z.to_nat count) w e count Ht He ltac:(lia))
      as (w1 & E & T & A & O & NT & CR).
    rewrite E.
    assert (He1 : exists e1, activeGames w1 !! roomCode = Some e1 /\
                    Game.set_gameData (Game.gameData e) e1 = e /\
                    set_countdownValue (Some 0%Z) (Game.gameData e1)
                    = set_countdownValue (Some 0%Z) (Game.gameData e)).
    { rewrite A. destruct (Z.to_nat count).
      - exists e. split; [exact He|]. split; [destruct e|]; reflexivity.
      - eexists. split; [apply lookup_insert_eq|]. split; [destruct e|]; reflexivity. }
    destruct He1 as (e1 & He1 & Hsame & Hdata).
    assert (Hid : Game.gameDataId e1 = Game.gameDataId e /\ Game.lobby e1 = Game.lobby e /\
                  Game.cleanupTimeout e1 = Game.cleanupTimeout e).
    { rewrite <- Hsame. cbn. repeat split. }
    destruct Hid as (Hid & Hlobby & Hclean).
    destruct (countdown_last_fire h roomCode w1 e1) as (w' & E' & A' & T' & O').
    { rewrite T, Hid. rewrite lookup_insert_eq.
      replace (count - Z.of_nat (Z.to_nat count))%Z with 0%Z by lia. reflexivity. }
    { exact He1. }
    exists w'. split; [exact E'|]. cbv zeta.
    rewrite A', T', O', T, O, NT, CR, Hid, Hlobby, Hclean, Hdata.
    split; [apply lookup_insert_eq|]. split.
    + rewrite delete_insert_eq. reflexivity.
    + rewrite seq_S, map_app, <- !app_assoc. cbn [map app Nat.add].
      replace (count - Z.of_nat (Z.to_nat count))%Z with 0%Z by lia. reflexivity.
Qed.

End CountdownFurther.

Section ServerStartFurther.
Context {N : Number} {H : Host}.
Implicit Types w : World.

(** X19. [game:start] refused.  When the room is unknown, the sender is not the
    lobby's host, or the lobby has fewer players than [minPlayers], the
    handler sends the sender one [error] and does nothing else: no game is
    registered, no timer set, the lobby keeps its state. *)
Theorem game_start_refused (socket roomCode : string) w :
  (forall lobbyRef l,
     lobbies w !! roomCode = Some lobbyRef -> lobbyObjs w !! lobbyRef = Some l ->
     Lobby.hostId l <> socket \/
     (Z.of_nat (length (Lobby.players l)) < Settings.minPlayers (Lobby.settings l))%Z) ->
  exists message,
    onGameStart socket roomCode w
    = (Ok tt, set_outbox (outbox w ++ [mkEmit (ToSocket socket) "error"
                                        (JObj [("message", JStr message)]%string)]) w).
Proof.
  intros Hrefuse. unfold onGameStart, tryCatch, get, getLobby, mbind, M_bind.
  destruct (lobbies w !! roomCode) as [lobbyRef|] eqn:Href; [|eexists; reflexivity].
  destruct (lobbyObjs w !! lobbyRef) as [l|] eqn:Hl; [|eexists; reflexivity].
  destruct (String.eqb (Lobby.hostId l) socket) eqn:Eq; [|eexists; reflexivity].
  cbn [negb].
  destruct (Z.ltb_spec (Z.of_nat (length (Lobby.players l)))
              (Settings.minPlayers (Lobby.settings l))) as [Hlt|Hge];
    [eexists; reflexivity|].
  apply String.eqb_eq in Eq. destruct (Hrefuse lobbyRef l eq_refl Hl) as [Hne|Hlt];
    [contradiction|lia].
Qed.

Lemma game_start_run (socket roomCode : string) w lobbyRef l :
  lobbies w !! roomCode = Some lobbyRef ->
  lobbyObjs w !! lobbyRef = Some l ->
  Lobby.hostId l = socket ->
  (Settings.minPlayers (Lobby.settings l) <= Z.of_nat (length (Lobby.players l)))%Z ->
  exists g w' systemMessage,
    onGameStart socket roomCode w = (Ok tt, w') /\
    freshGame l g /\
    activeGames w'
    = <[Lobby.code l := Game.mk lobbyRef g (nextGameData w) None None
                          (Some (nextTimer w)) None]> (activeGames w) /\
    timers w'
    = <[nextTimer w := CountdownTask (Lobby.code l) (nextGameData w) COUNTDOWN_DURATION]>
        (timers w) /\
    lobbyObjs w'
    = <[lobbyRef := Lobby.set_messages (Lobby.messages l ++ [systemMessage])
                      (Lobby.set_gameData (Some (nextGameData w))
                         (Lobby.set_state PLAYING l))]> (lobbyObjs w) /\
    ChatMessage.message systemMessage = "Game starting!"%string /\
    ChatMessage.isSystem systemMessage = Some true /\
    outbox w'
    = outbox w
      ++ [mkEmit (ToRoom (Lobby.code l)) "game:started"
            (gameStartedPayload (Lobby.set_state PLAYING l) g);
          mkEmit (ToRoom (Lobby.code l)) "chat:message" (chatMessageToJS systemMessage)].
Proof.
  intros Href Hl Hhost Hmin.
  remember (onGameStart socket roomCode w) as r eqn:E.
  unfold onGameStart, tryCatch, get, getLobby in E. unfold mbind at 1, M_bind at 1 in E.
  rewrite Href in E. unfold mbind at 1, M_bind at 1 in E. rewrite Hl in E.
  replace (String.eqb (Lobby.hostId l) socket) with true in E
    by (symmetry; apply String.eqb_eq, Hhost).
  cbn [negb] in E.
  destruct (Z.ltb_spec (Z.of_nat (length (Lobby.players l)))
              (Settings.minPlayers (Lobby.settings l))) as [Hlt|_]; [lia|].
  unfold mbind at 1, M_bind at 1 in E. unfold updLobby at 1, modify at 1 in E.
  unfold mbind at 1, M_bind at 1 in E.
  unfold initializeBumperBallsGame, getLobby in E.
  unfold mbind at 1, M_bind at 1 in E.
  cbn [lobbyObjs set_lobbyObjs] in E.
  rewrite lookup_alter_eq, Hl in E. cbn [fmap option_fmap option_map] in E.
  unfold mbind at 1, M_bind at 1 in E.
  match type of E with
  | context [newGameData ?L ?W] =>
      destruct (newGameData_fresh L W) as (g & Eg & Hfresh); rewrite Eg in E
  end.
  unfold startCountdown, newGameDataId, sendSystemMessage, newUUID, Date_now, updGame,
    updLobby, emit, modify, setTimer, getGame, mbind, M_bind in E.
  cbn [activeGames set_activeGames set_clockReads set_nextGameData set_lobbyObjs
       set_outbox set_timers set_nextTimer set_uuidDraws nextGameData lobbyObjs timers
       nextTimer outbox clockReads uuidDraws lobbies Lobby.code Lobby.set_state] in E.
  rewrite lookup_insert_eq in E.
  cbn [activeGames set_activeGames set_clockReads set_nextGameData set_lobbyObjs
       set_outbox set_timers set_nextTimer set_uuidDraws nextGameData lobbyObjs timers
       nextTimer outbox clockReads uuidDraws lobbies Lobby.code Lobby.set_state] in E.
  subst r. exists g. eexists. eexists. split; [reflexivity|].
  split; [exact Hfresh|].
  cbn [activeGames set_activeGames set_clockReads set_nextGameData set_lobbyObjs
       set_outbox set_timers set_nextTimer set_uuidDraws nextGameData lobbyObjs timers
       nextTimer outbox clockReads uuidDraws lobbies].
  split; [rewrite alter_insert_eq; reflexivity|].
  split; [reflexivity|].
  split.
  { rewrite (alter_lookup_insert _ _ (lobbyObjs w) l Hl), !alter_insert_eq.
    destruct l; reflexivity. }
  split; [reflexivity|]. split; [reflexivity|].
  rewrite <- app_assoc. reflexivity.
Qed.

(** X20. [game:start] by the host of a lobby with enough players.  The handler
    returns without reaching its [catch]: the lobby is [PLAYING], points at
    the new game data and has the system message appended; the registry holds,
    under the lobby's code, fresh game data with the countdown as its only
    interval; the countdown is the one timer added, none is cancelled; and
    the lobby's room is sent [game:started], then the [chat:message]. *)
Theorem game_start_by_host (socket roomCode : string) w lobbyRef l :
  lobbies w !! roomCode = Some lobbyRef ->
  lobbyObjs w !! lobbyRef = Some l ->
  Lobby.hostId l = socket ->
  (Settings.minPlayers (Lobby.settings l) <= Z.of_nat (length (Lobby.players l)))%Z ->
  exists g w' systemMessage,
    onGameStart socket roomCode w = (Ok tt, w') /\
    freshGame l g /\
    activeGames w'
    = <[Lobby.code l := Game.mk lobbyRef g (nextGameData w) None None
                          (Some (nextTimer w)) None]> (activeGames w) /\
    timers w'
    = <[nextTimer w := CountdownTask (Lobby.code l) (nextGameData w) COUNTDOWN_DURATION]>
        (timers w) /\
    lobbyObjs w'
    = <[lobbyRef := Lobby.set_messages (Lobby.messages l ++ [systemMessage])
                      (Lobby.set_gameData (Some (nextGameData w))
                         (Lobby.set_state PLAYING l))]> (lobbyObjs w) /\
    ChatMessage.message systemMessage = "Game starting!"%string /\
    ChatMessage.isSystem systemMessage = Some true /\
    outbox w'
    = outbox w
      ++ [mkEmit (ToRoom (Lobby.code l)) "game:started"
            (gameStartedPayload (Lobby.set_state PLAYING l) g);
          mkEmit (ToRoom (Lobby.code l)) "chat:message" (chatMessageToJS systemMessage)].
Proof. apply game_start_run. Qed.

End ServerStartFurther.

Section ServerStartWitnesses.
#[local] Existing Instance floatHost.

Lemma game_start_refused_witness :
  (forall lobbyRef l,
     lobbies lobbyWorld !! "ROOM"%string = Some lobbyRef ->
     lobbyObjs lobbyWorld !! lobbyRef = Some l ->
     Lobby.hostId l <> "s2"%string \/
     (Z.of_nat (length (Lobby.players l)) < Settings.minPlayers (Lobby.settings l))%Z) /\
  exists message,
    onGameStart "s2" "ROOM" lobbyWorld
    = (Ok tt, set_outbox (outbox lobbyWorld
                          ++ [mkEmit (ToSocket "s2") "error"
                                (JObj [("message", JStr message)]%string)])
                lobbyWorld).
Proof.
  assert (Hd : forall lobbyRef l,
             lobbies lobbyWorld !! "ROOM"%string = Some lobbyRef ->
             lobbyObjs lobbyWorld !! lobbyRef = Some l ->
             Lobby.hostId l <> "s2"%string \/
             (Z.of_nat (length (Lobby.players l))
              < Settings.minPlayers (Lobby.settings l))%Z).
  { intros lobbyRef l Href Hl. vm_compute in Href. injection Href as <-.
    vm_compute in Hl. injection Hl as <-. left. discriminate. }
  split; [exact Hd|].
  apply (game_start_refused "s2" "ROOM" lobbyWorld Hd).
Defined.

Lemma game_start_by_host_witness :
  exists g w',
    onGameStart "s1" "ROOM" lobbyWorld = (Ok tt, w') /\
    freshGame waitingLobby g /\
    timers w' !! 0%nat = Some (CountdownTask "ROOM" 0 3).
Proof.
  destruct (game_start_by_host "s1" "ROOM" lobbyWorld 0%nat waitingLobby
              eq_refl eq_refl eq_refl ltac:(vm_compute; discriminate))
    as (g & w' & m & E & Hfresh & _ & T & _).
  exists g, w'. split; [exact E|]. split; [exact Hfresh|].
  rewrite T. apply lookup_insert_eq.
Defined.

End ServerStartWitnesses.

Section CleanupFurther.
Context {N : Number} {H : Host}.
Implicit Types w : World.

Lemma cleanup_fire (h : nat) (roomCode : string) w :
  timers w !! h = Some (CleanupTask roomCode) ->
  fireTimer h w
  = (Ok tt, set_activeGames (delete roomCode (activeGames w))
              (set_timers (delete h (timers w)) w)).
Proof.
  intros Ht. unfold fireTimer, get, mbind, M_bind. rewrite Ht. reflexivity.
Qed.

(** X21. A game started while the clean up of the room's previous game is
    pending.  The clean up timeout removes the room's entry whatever game it
    holds: when the host starts a game before the timeout has fired, the
    handler registers the new game in countdown, the timeout then deletes
    it, and the new countdown, firing next, finds no game, retires and never
    starts play. *)
Theorem start_during_cleanup (socket roomCode : string) w lobbyRef l (h : nat) :
  lobbies w !! roomCode = Some lobbyRef ->
  lobbyObjs w !! lobbyRef = Some l ->
  Lobby.hostId l = socket ->
  Lobby.code l = roomCode ->
  (Settings.minPlayers (Lobby.settings l) <= Z.of_nat (length (Lobby.players l)))%Z ->
  timers w !! h = Some (CleanupTask roomCode) ->
  h <> nextTimer w ->
  exists w1 w2 w3,
    onGameStart socket roomCode w = (Ok tt, w1) /\
    (exists e, activeGames w1 !! roomCode = Some e /\
               status (Game.gameData e) = countdown /\
               Game.countdownInterval e = Some (nextTimer w)) /\
    fireTimer h w1 = (Ok tt, w2) /\
    activeGames w2 !! roomCode = None /\
    timers w2 !! nextTimer w
    = Some (CountdownTask roomCode (nextGameData w) COUNTDOWN_DURATION) /\
    fireTimer (nextTimer w) w2 = (Ok tt, w3) /\
    activeGames w3 = activeGames w2 /\
    outbox w3 = outbox w2 /\
    timers w3 !! nextTimer w = None.
Proof.
  intros Href Hl Hhost Hcode Hmin Ht Hne.
  destruct (game_start_run socket roomCode w lobbyRef l Href Hl Hhost Hmin)
    as (g & w1 & m & E1 & Hfresh & A1 & T1 & _).
  rewrite Hcode in A1, T1.
  assert (Ht1 : timers w1 !! h = Some (CleanupTask roomCode)).
  { rewrite T1, lookup_insert_ne by congruence. exact Ht. }
  pose proof (cleanup_fire h roomCode w1 Ht1) as E2.
  set (w2 := set_activeGames (delete roomCode (activeGames w1))
               (set_timers (delete h (timers w1)) w1)) in *.
  assert (Ht2 : timers w2 !! nextTimer w
                = Some (CountdownTask roomCode (nextGameData w) COUNTDOWN_DURATION)).
  { unfold w2. cbn [timers set_activeGames set_timers].
    rewrite lookup_delete_ne by congruence. rewrite T1. apply lookup_insert_eq. }
  assert (Ha2 : activeGames w2 !! roomCode = None).
  { unfold w2. cbn [activeGames set_activeGames]. apply lookup_delete_eq. }
  pose proof (stale_timer_run (nextTimer w) w2 _ roomCode (nextGameData w) Ht2 eq_refl) as E3.
  exists w1, w2. eexists. split; [exact E1|]. split.
  { eexists. split; [rewrite A1; apply lookup_insert_eq|]. split; [apply Hfresh|reflexivity]. }
  split; [exact E2|]. split; [exact Ha2|]. split; [exact Ht2|]. split.
  { apply E3. intros e He. rewrite Ha2 in He. discriminate. }
  cbn [activeGames outbox timers set_timers]. repeat split. apply lookup_delete_eq.
Qed.

End CleanupFurther.

Section CleanupWitnesses.
#[local] Existing Instance floatHost.

Lemma start_during_cleanup_witness :
  timers (exec (endGame (lateGame classic 0 (fvec 4 1 0)) (Some "s1"%string) "ROOM")
            midGameWorld) !! 3%nat
  = Some (CleanupTask "ROOM") /\
  exists w1 w2,
    onGameStart "s1" "ROOM"
      (exec (endGame (lateGame classic 0 (fvec 4 1 0)) (Some "s1"%string) "ROOM")
         midGameWorld) = (Ok tt, w1) /\
    fireTimer 3 w1 = (Ok tt, w2) /\
    activeGames w2 !! "ROOM"%string = None.
Proof.
  split; [vm_compute; reflexivity|].
  destruct (lobbyObjs
              (exec (endGame (lateGame classic 0 (fvec 4 1 0)) (Some "s1"%string) "ROOM")
                 midGameWorld) !! 0%nat) as [l|] eqn:Hl;
    [|vm_compute in Hl; discriminate].
  assert (Hhost : Lobby.hostId l = "s1"%string /\ Lobby.code l = "ROOM"%string /\
                  (Settings.minPlayers (Lobby.settings l)
                   <= Z.of_nat (length (Lobby.players l)))%Z).
  { vm_compute in Hl. injection Hl as <-. repeat split. vm_compute. discriminate. }
  destruct Hhost as (Hhost & Hcode & Hmin).
  destruct (start_during_cleanup "s1" "ROOM"
              (exec (endGame (lateGame classic 0 (fvec 4 1 0)) (Some "s1"%string) "ROOM")
                 midGameWorld)
              0%nat l 3%nat)
    as (w1 & w2 & w3 & E1 & _ & E2 & A2 & _).
  - vm_compute. reflexivity.
  - exact Hl.
  - exact Hhost.
  - exact Hcode.
  - exact Hmin.
  - vm_compute. reflexivity.
  - vm_compute. discriminate.
  - exists w1, w2. split; [exact E1|]. split; [exact E2|exact A2].
Defined.

End CleanupWitnesses.

Section ValidationProperties.


Lemma trimStart_length s : (length (trimStart s) <= length s)%nat.
Proof.
  induction s as [|c s IH]; cbn; [lia|]. destruct (isWhiteSpace c); cbn; lia.
Qed.

Lemma trim_length s : (length (trim s) <= length s)%nat.
Proof.
  unfold trim, trimEnd. rewrite length_rev.
  pose proof (trimStart_length (rev (trimStart s))) as H1. rewrite length_rev in H1.
  pose proof (trimStart_length s). lia.
Qed.

Lemma trimStart_fixed s :
  match s with c :: _ => isWhiteSpace c = false | [] => True end -> trimStart s = s.
Proof. destruct s as [|c s]; [reflexivity|]. cbn. intros ->. reflexivity. Qed.

Lemma sanitizeInput_length input : (length (sanitizeInput input) <= length (trim input))%nat.
Proof. unfold sanitizeInput. apply List.filter_length_le. Qed.

Lemma sanitizeInput_clean input :
  Forall (fun c => c <> 60%N /\ c <> 62%N) (sanitizeInput input).
Proof.
  apply Forall_forall. intros c Hc. apply list_elem_of_In in Hc.
  unfold sanitizeInput in Hc. apply List.filter_In in Hc as [_ Hc].
  apply negb_true_iff, orb_false_iff in Hc as [H1 H2].
  apply N.eqb_neq in H1, H2. auto.
Qed.

Lemma rev_repeat_same {A} (c : A) n : rev (repeat c n) = repeat c n.
Proof.
  induction n as [|n IH]; [reflexivity|]. cbn [repeat rev]. rewrite IH.
  symmetry. apply repeat_cons.
Qed.

Lemma trim_brackets n : trim (repeat 60%N n) = repeat 60%N n.
Proof.
  unfold trim, trimEnd.
  rewrite (trimStart_fixed (repeat 60%N n)) by (destruct n; cbn; auto).
  rewrite rev_repeat_same.
  rewrite (trimStart_fixed (repeat 60%N n)) by (destruct n; cbn; auto).
  apply rev_repeat_same.
Qed.

(** X22. Player names.  [validatePlayerName] accepts a name exactly when,
    trimmed, it has from 1 to 20 code units; the test for fewer than one is
    never reached with a true outcome.  The name the lobby stores for an
    accepted name, [sanitizeInput(name)], then has at most 20 code units
    and holds neither [<] nor [>]; it can be empty, as for a name of 1 to 20
    [<]. *)
Theorem accepted_name_stored (name : JSString) :
  (valid (validatePlayerName name) = true
   <-> (1 <= length (trim name) <= 20)%nat) /\
  (error (validatePlayerName name) = Some "Player name is required"%string
   <-> trim name = []) /\
  (valid (validatePlayerName name) = true ->
   (length (sanitizeInput name) <= 20)%nat /\
   Forall (fun c => c <> 60%N /\ c <> 62%N) (sanitizeInput name)) /\
  (forall n, (1 <= n <= 20)%nat ->
     valid (validatePlayerName (repeat 60%N n)) = true /\
     sanitizeInput (repeat 60%N n) = []).
Proof.
  assert (Hempty : isEmptyString name = true -> length (trim name) = 0%nat).
  { destruct name; [reflexivity|discriminate]. }
  assert (Hiff : valid (validatePlayerName name) = true
                 <-> (1 <= length (trim name) <= 20)%nat).
  { unfold validatePlayerName.
    destruct (isEmptyString name) eqn:He; cbn [orb].
    - rewrite (Hempty eq_refl). cbn. split; [discriminate|lia].
    - destruct (Nat.eqb_spec (length (trim name)) 0) as [E|E]; cbn [valid].
      + split; [discriminate|lia].
      + cbv zeta. destruct (Nat.ltb_spec (length (trim name)) 1) as [H1|H1]; [lia|].
        cbn [orb]. destruct (Nat.ltb_spec 20 (length (trim name))) as [H2|H2]; cbn [valid].
        * split; [discriminate|lia].
        * split; [lia|reflexivity]. }
  split; [exact Hiff|]. split.
  - unfold validatePlayerName.
    destruct (isEmptyString name) eqn:He; cbn [orb].
    + cbn [error]. pose proof (Hempty eq_refl) as H0.
      split; [intros _; destruct (trim name); [reflexivity|discriminate]|reflexivity].
    + destruct (Nat.eqb_spec (length (trim name)) 0) as [E|E]; cbn [error].
      * split; [intros _; destruct (trim name); [reflexivity|discriminate]|reflexivity].
      * cbv zeta. split.
        -- destruct (_ || _); discriminate.
        -- intros Ht. rewrite Ht in E. contradiction.
  - split.
    + intros Hv. apply Hiff in Hv. split; [|apply sanitizeInput_clean].
      pose proof (sanitizeInput_length name). lia.
    + intros n Hn. split.
      * unfold validatePlayerName. rewrite trim_brackets, repeat_length.
        destruct n as [|n]; [lia|]. cbn [repeat isEmptyString orb Nat.eqb]. cbv zeta.
        destruct (Nat.ltb_spec (S n) 1) as [H1|_]; [lia|].
        destruct (Nat.ltb_spec 20 (S n)) as [H2|_]; [lia|]. reflexivity.
      * unfold sanitizeInput. rewrite trim_brackets. clear Hn.
        induction n as [|n IH]; [reflexivity|exact IH].
Qed.

(** X23. Chat messages.  [validateChatMessage] accepts a string exactly
    when, trimmed, it has from 1 to 500 code units; the text stored for an
    accepted message, [sanitizeInput(message)], then has at most 500 code
    units and holds neither [<] nor [>]. *)
Theorem accepted_message_stored (message : JSString) :
  (valid (validateChatMessage message) = true
   <-> (1 <= length (trim message) <= 500)%nat) /\
  (valid (validateChatMessage message) = true ->
   (length (sanitizeInput message) <= 500)%nat /\
   Forall (fun c => c <> 60%N /\ c <> 62%N) (sanitizeInput message)).
Proof.
  assert (Hiff : valid (validateChatMessage message) = true
                 <-> (1 <= length (trim message) <= 500)%nat).
  { unfold validateChatMessage.
    destruct (isEmptyString message) eqn:He.
    - destruct message; [|discriminate]. cbn. split; [discriminate|lia].
    - cbv zeta. destruct (Nat.eqb_spec (length (trim message)) 0) as [E|E]; cbn [valid].
      + split; [discriminate|lia].
      + destruct (Nat.ltb_spec 500 (length (trim message))) as [H2|H2]; cbn [valid].
        * split; [discriminate|lia].
        * split; [lia|reflexivity]. }
  split; [exact Hiff|].
  intros Hv. apply Hiff in Hv. split; [|apply sanitizeInput_clean].
  pose proof (sanitizeInput_length message). lia.
Qed.

End ValidationProperties.

Lemma lateGame_session_inv mode started bobAt : session_inv (lateGame mode started bobAt).
Proof.
  repeat split.
  - apply (bool_decide_unpack _). vm_compute. exact I.
  - apply (bool_decide_unpack _). vm_compute. exact I.
  - cbn. intros Hin. apply list_elem_of_singleton in Hin as ->.
    unfold flags. cbn. set_solver.
  - unfold flags. cbn. intros Hin. rewrite !elem_of_cons, elem_of_nil in Hin.
    destruct Hin as [[=]|[[=]|[[= ->]|[]]]]. apply list_elem_of_here.
Qed.

Lemma eliminated_places_witness :
  session_inv (lateGame classic 0 (fvec 4 1 0)) /\
  (2 < placeOf (lateGame classic 0 (fvec 4 1 0))
         (fball "s3" "Cy" (fvec 12 (-6) 0) (fvec 0 (-10) 0) true 0) <= 3)%Z.
Proof.
  split; [apply lateGame_session_inv|].
  apply (eliminated_places (lateGame classic 0 (fvec 4 1 0)) 2 2
           (fball "s3" "Cy" (fvec 12 (-6) 0) (fvec 0 (-10) 0) true 0)
           (fball "s3" "Cy" (fvec 12 (-6) 0) (fvec 0 (-10) 0) true 0)
           (lateGame_session_inv _ _ _) eq_refl eq_refl eq_refl eq_refl).
Defined.

Lemma sanitizeGameData_hides_witness :
  map clientView
    (players (set_players (map (set_lastInput None)
                             (players (lateGame classic 0 (fvec 4 1 0))))
                (lateGame classic 0 (fvec 4 1 0))))
  = map clientView (players (lateGame classic 0 (fvec 4 1 0))) /\
  sanitizeGameData
    (set_players (map (set_lastInput None) (players (lateGame classic 0 (fvec 4 1 0))))
       (lateGame classic 0 (fvec 4 1 0)))
  = sanitizeGameData (lateGame classic 0 (fvec 4 1 0)).
Proof.
  split; [reflexivity|].
  apply sanitizeGameData_hides; reflexivity.
Defined.

Section LifecycleWitnesses.
#[local] Existing Instance floatHost.

Lemma restart_denied_witness :
  (forall e l, activeGames midGameWorld !! "ROOM"%string = Some e ->
               lobbyObjs midGameWorld !! Game.lobby e = Some l ->
               Lobby.hostId l <> "s2"%string) /\
  exists message,
    onBumperRestart "s2" "ROOM" midGameWorld
    = (Ok tt, set_outbox (outbox midGameWorld
                          ++ [mkEmit (ToSocket "s2") "error"
                                (JObj [("message", JStr message)]%string)])
                midGameWorld).
Proof.
  assert (Hd : forall e l, activeGames midGameWorld !! "ROOM"%string = Some e ->
                 lobbyObjs midGameWorld !! Game.lobby e = Some l ->
                 Lobby.hostId l <> "s2"%string).
  { intros e l He Hl. vm_compute in He. injection He as <-.
    vm_compute in Hl. injection Hl as <-. discriminate. }
  split; [exact Hd|].
  apply (restart_denied "s2" "ROOM" midGameWorld Hd).
Defined.

Lemma restart_by_host_witness :
  exists g w',
    onBumperRestart "s1" "ROOM" midGameWorld = (Ok tt, w') /\
    freshGame (arenaLobby (Some classic)) g /\
    timers w' !! 3%nat = Some (CountdownTask "ROOM" 1 3).
Proof.
  destruct (restart_by_host "s1" "ROOM" midGameWorld
              (Game.mk 0%nat (lateGame classic (t0 - 60000) (fvec 4 1 0)) 0%nat
                 (Some 1%nat) (Some 2%nat) None None)
              (arenaLobby (Some classic)) eq_refl eq_refl eq_refl eq_refl)
    as (g & w' & E & Hfresh & _ & T & _).
  exists g, w'. split; [exact E|]. split; [exact Hfresh|].
  rewrite T. apply lookup_insert_eq.
Defined.

Lemma stale_timer_retires_witness :
  fireTimer 1 (exec (initializeBumperBallsGame 0) midGameWorld)
  = (Ok tt,
     set_timers (delete 1%nat (timers (exec (initializeBumperBallsGame 0) midGameWorld)))
       (exec (initializeBumperBallsGame 0) midGameWorld)).
Proof.
  apply (stale_timer_retires 1 (exec (initializeBumperBallsGame 0) midGameWorld)
           (GameLoopTask "ROOM" 0) "ROOM" 0).
  - vm_compute. reflexivity.
  - reflexivity.
  - intros e He. vm_compute in He. injection He as <-. discriminate.
Defined.

Lemma countdown_run_witness :
  exists w' e',
    fires 0 4 afterStart = (Ok tt, w') /\
    activeGames w' !! "ROOM"%string = Some e' /\
    status (Game.gameData e') = playing.
Proof.
  destruct (activeGames afterStart !! "ROOM"%string) as [e|] eqn:He;
    [|vm_compute in He; discriminate].
  assert (Ht : timers afterStart !! 0%nat
               = Some (CountdownTask "ROOM" (Game.gameDataId e) 3)).
  { vm_compute in He. injection He as <-. vm_compute. reflexivity. }
  destruct (countdown_run 0 "ROOM" afterStart e 3 Ht He ltac:(lia))
    as (_ & w' & E & A & _).
  exists w'. eexists. split; [exact E|]. split; [exact A|reflexivity].
Defined.

End LifecycleWitnesses.
